(** * Verification of [misc/format_json.py]: the prettier-style JSON formatter

    The formatter [format_json_prettier] is embedded as a structurally
    recursive function over a tagged union of the Python values it
    dispatches on.  The pieces of the Python standard library it calls
    ([json.dumps], [str.join], [str * int], [len]) are embedded next to it,
    and [json.loads] is embedded for the round-trip properties. *)

From Stdlib Require Import String Ascii.
From Stdlib Require Import List ZArith NArith Bool Lia.
From Stdlib Require Import Decimal DecimalZ DecimalFacts.
Import ListNotations.

Local Open Scope Z_scope.

(** ** Python strings *)

(** A Python [str] is a sequence of Unicode code points (surrogates
    included); [len] counts code points. *)
Abbreviation pystr := (list N).

(** ASCII literals. *)
Definition py (s : string) : pystr := map N_of_ascii (list_ascii_of_string s).

Definition DQUOTE : N := 34.
Definition BACKSLASH : N := 92.
Definition NL : pystr := [10%N].

Definition len {A} (s : list A) : Z := Z.of_nat (length s).

(** [s * n]: empty when [n <= 0]. *)
Definition str_mul (s : pystr) (n : Z) : pystr := concat (repeat s (Z.to_nat n)).

(** [sep.join(parts)] *)
Fixpoint str_join (sep : pystr) (parts : list pystr) : pystr :=
  match parts with
  | [] => []
  | p :: rest =>
      match rest with
      | [] => p
      | _ => p ++ sep ++ str_join sep rest
      end
  end.

(** The lines appended by [for i, x in enumerate(l): lines.append(body i x)],
    counting from [i]. *)
Fixpoint for_enumerate {A B} (body : nat -> A -> B) (i : nat) (l : list A) : list B :=
  match l with
  | [] => []
  | x :: rest => body i x :: for_enumerate body (S i) rest
  end.

(** [s.split(sep)] for a one-character separator. *)
Fixpoint str_split (sep : N) (s : pystr) : list pystr :=
  match s with
  | [] => [[]]
  | c :: r =>
      if (c =? sep)%N then [] :: str_split sep r
      else
        match str_split sep r with
        | [] => [[c]]
        | line :: lines => (c :: line) :: lines
        end
  end.

(** *** The layouts, as the specification words them *)

(** A comma after every part but the last. *)
Fixpoint with_commas (parts : list pystr) : list pystr :=
  match parts with
  | [] => []
  | p :: rest =>
      match rest with
      | [] => [p]
      | _ => (p ++ py ",") :: with_commas rest
      end
  end.

(** The expanded form: the opening bracket, one part per line at
    [current_indent + indent] with a comma after all but the last, the
    closing bracket at [current_indent]. *)
Definition one_per_line (opening closing : pystr) (indent current_indent : Z)
    (parts : list pystr) : pystr :=
  str_join NL
    ([opening]
     ++ map (fun p => str_mul (py " ") (current_indent + indent) ++ p) (with_commas parts)
     ++ [str_mul (py " ") current_indent ++ closing]).

(** ** The string encoders of [json.encoder] *)

Definition hexdigit (d : N) : N := (if d <? 10 then 48 + d else 87 + d)%N.

(** ['{0:04x}'.format(n)] for [n < 0x10000]. *)
Definition hex4 (n : N) : pystr :=
  [hexdigit (n / 4096 mod 16); hexdigit (n / 256 mod 16);
   hexdigit (n / 16 mod 16); hexdigit (n mod 16)]%N.

Definition u_escape (n : N) : pystr := BACKSLASH :: 117%N :: hex4 n.

(** [ESCAPE_DCT]: the short escapes, and [\u00XX] for the other control
    characters. *)
Definition ESCAPE_DCT (c : N) : option pystr :=
  if (c =? 92)%N then Some [BACKSLASH; BACKSLASH]
  else if (c =? 34)%N then Some [BACKSLASH; DQUOTE]
  else if (c =? 8)%N then Some [BACKSLASH; 98%N]
  else if (c =? 12)%N then Some [BACKSLASH; 102%N]
  else if (c =? 10)%N then Some [BACKSLASH; 110%N]
  else if (c =? 13)%N then Some [BACKSLASH; 114%N]
  else if (c =? 9)%N then Some [BACKSLASH; 116%N]
  else if (c <? 32)%N then Some (u_escape c)
  else None.

(** [encode_basestring] (used under [ensure_ascii=False]): only the
    characters of [ESCAPE_DCT] are replaced. *)
Definition escape_char (c : N) : pystr :=
  match ESCAPE_DCT c with
  | Some e => e
  | None => [c]
  end.

Definition encode_basestring (s : pystr) : pystr :=
  DQUOTE :: flat_map escape_char s ++ [DQUOTE].

(** [encode_basestring_ascii] (the default, [ensure_ascii=True]): every
    character outside [' '..'~'] is replaced as well, above the BMP by a
    surrogate pair. *)
Definition escape_char_ascii (c : N) : pystr :=
  match ESCAPE_DCT c with
  | Some e => e
  | None =>
      if ((32 <=? c) && (c <=? 126))%N then [c]
      else if (c <? 65536)%N then u_escape c
      else
        let n := (c - 65536)%N in
        let s1 := N.lor 55296 (N.land (N.shiftr n 10) 1023) in
        let s2 := N.lor 56320 (N.land n 1023) in
        u_escape s1 ++ u_escape s2
  end.

Definition encode_basestring_ascii (s : pystr) : pystr :=
  DQUOTE :: flat_map escape_char_ascii s ++ [DQUOTE].

(** [int.__repr__]: decimal digits, ['-'] in front of a negative number. *)
Fixpoint uint_str (d : uint) : pystr :=
  match d with
  | Nil => []
  | D0 d => 48%N :: uint_str d
  | D1 d => 49%N :: uint_str d
  | D2 d => 50%N :: uint_str d
  | D3 d => 51%N :: uint_str d
  | D4 d => 52%N :: uint_str d
  | D5 d => 53%N :: uint_str d
  | D6 d => 54%N :: uint_str d
  | D7 d => 55%N :: uint_str d
  | D8 d => 56%N :: uint_str d
  | D9 d => 57%N :: uint_str d
  end.

Definition int_repr (z : Z) : pystr :=
  match Z.to_int z with
  | Pos d => uint_str d
  | Neg d => 45%N :: uint_str d
  end.

(** ** Python floats

    The formatter hands floats to [json.dumps], which prints them with
    [float.__repr__] (and [NaN], [Infinity], [-Infinity] for the others);
    [json.loads] reads a number with a fraction or an exponent, and those
    three constants, with [float()].  These are kept as an interface. *)
Class PyFloat := {
  float : Type;
  float_str : float -> pystr;
  float_of_str : pystr -> float;
  float_isfinite : float -> bool
}.

Section Values.

Context {F : PyFloat}.

(** ** Values

    The objects [format_value] dispatches on by [isinstance]: [dict]
    (keys are [str], kept in insertion order), [list], [str], [int],
    [float], [bool], [None]. *)
Unset Elimination Schemes.
Inductive value : Type :=
| VNone
| VBool (b : bool)
| VInt (z : Z)
| VFloat (f : float)
| VStr (s : pystr)
| VList (l : list value)
| VDict (items : list (pystr * value)).
Set Elimination Schemes.

(** [isinstance(x, (str, int, float, bool, type(None)))] *)
Definition is_simple (x : value) : bool :=
  match x with
  | VStr _ | VInt _ | VFloat _ | VBool _ | VNone => true
  | VList _ | VDict _ => false
  end.

(** [all(isinstance(x, (...)) for x in v)] *)
Definition all_simple (l : list value) : bool := forallb is_simple l.

Definition encode_str (ensure_ascii : bool) (s : pystr) : pystr :=
  if ensure_ascii then encode_basestring_ascii s else encode_basestring s.

(** [json.dumps(o, ensure_ascii=...)] with the default separators
    [", "] and [": "]. *)
Fixpoint json_dumps (ensure_ascii : bool) (o : value) : pystr :=
  match o with
  | VNone => py "null"
  | VBool true => py "true"
  | VBool false => py "false"
  | VInt z => int_repr z
  | VFloat f => float_str f
  | VStr s => encode_str ensure_ascii s
  | VList l =>
      py "[" ++ str_join (py ", ") (map (json_dumps ensure_ascii) l) ++ py "]"
  | VDict items =>
      py "{"
      ++ str_join (py ", ")
           (map (fun kv => encode_str ensure_ascii (fst kv) ++ py ": "
                           ++ json_dumps ensure_ascii (snd kv)) items)
      ++ py "}"
  end.

(** ** The formatter *)

Section Formatter.

(** The arguments of [format_json_prettier] that the nested function
    [format_value] closes over. *)
Variables (indent max_line_length : Z).

(** Lines 22-28: the value of [formatted_value] after the check for a
    simple array; it comes in as the result of the recursive call. *)
Definition inline_simple_array (current_indent : Z) (k : pystr) (v : value)
    (formatted_value : pystr) : pystr :=
  match v with
  | VList l =>
      if all_simple l then
        let json_str := json_dumps false v in
        if len json_str <=? max_line_length - current_indent - len k - 5
        then json_str
        else formatted_value
      else formatted_value
  | _ => formatted_value
  end.

(** The body of the loop over the items of a dict (lines 19-32). *)
Definition dict_line (n : nat) (current_indent : Z) (i : nat) (k : pystr)
    (v : value) (formatted_value : pystr) : pystr :=
  let comma := if Z.of_nat i <? Z.of_nat n - 1 then py "," else [] in
  let formatted_value := inline_simple_array current_indent k v formatted_value in
  str_mul (py " ") (current_indent + indent)
  ++ json_dumps true (VStr k) ++ py ": " ++ formatted_value ++ comma.

(** The body of the loop over the items of a list (lines 49-53). *)
Definition list_line (n : nat) (current_indent : Z) (i : nat)
    (formatted_item : pystr) : pystr :=
  let comma := if Z.of_nat i <? Z.of_nat n - 1 then py "," else [] in
  str_mul (py " ") (current_indent + indent) ++ formatted_item ++ comma.

Fixpoint format_value (value : value) (current_indent : Z) : pystr :=
  match value with
  | VDict items =>
      match items with
      | [] => py "{}"
      | _ =>
          let lines :=
            [py "{"]
            ++ for_enumerate
                 (fun i kv =>
                    dict_line (length items) current_indent i (fst kv) (snd kv)
                      (format_value (snd kv) (current_indent + indent)))
                 0%nat items
            ++ [str_mul (py " ") current_indent ++ py "}"] in
          str_join NL lines
      end
  | VList l =>
      match l with
      | [] => py "[]"
      | _ =>
          if all_simple l
             && (len (json_dumps false value) <=? max_line_length)
          then json_dumps false value
          else
            let lines :=
              [py "["]
              ++ for_enumerate
                   (fun i item =>
                      list_line (length l) current_indent i
                        (format_value item (current_indent + indent)))
                   0%nat l
              ++ [str_mul (py " ") current_indent ++ py "]"] in
            str_join NL lines
      end
  | _ => json_dumps false value
  end.

(** The text after the key of a dict item: [formatted_value] as line 31
    prints it. *)
Definition dict_entry_value (current_indent : Z) (k : pystr) (v : value) : pystr :=
  inline_simple_array current_indent k v (format_value v (current_indent + indent)).

Definition dict_entry (current_indent : Z) (kv : pystr * value) : pystr :=
  json_dumps true (VStr (fst kv)) ++ py ": " ++ dict_entry_value current_indent (fst kv) (snd kv).

(** The number of nested frames of [format_value] a value takes. *)
Fixpoint call_depth (value : value) : nat :=
  match value with
  | VDict items => S (fold_right Nat.max 0%nat (map (fun kv => call_depth (snd kv)) items))
  | VList l =>
      match l with
      | [] => 1%nat
      | _ =>
          if all_simple l
             && (len (json_dumps false value) <=? max_line_length)
          then 1%nat
          else S (fold_right Nat.max 0%nat (map call_depth l))
      end
  | _ => 1%nat
  end.

End Formatter.

(** The nesting depth of a value: 0 for a scalar, one more than the
    deepest member for a container. *)
Fixpoint nesting_depth (value : value) : nat :=
  match value with
  | VDict items => S (fold_right Nat.max 0%nat (map (fun kv => nesting_depth (snd kv)) items))
  | VList l => S (fold_right Nat.max 0%nat (map nesting_depth l))
  | _ => 0%nat
  end.

Definition format_json_prettier (obj : value) (indent max_line_length : Z) : pystr :=
  format_value indent max_line_length obj 0.

(** ** [json.loads]

    The decoder of the standard library ([json.decoder], [json.scanner]),
    for the round trip through the formatted text. *)

Definition is_ws (c : N) : bool :=
  ((c =? 32) || (c =? 9) || (c =? 10) || (c =? 13))%N.

(** [WHITESPACE.match(s, end).end()] *)
Fixpoint skip_ws (s : pystr) : pystr :=
  match s with
  | c :: r => if is_ws c then skip_ws r else s
  | [] => []
  end.

Definition is_digit (c : N) : bool := ((48 <=? c) && (c <=? 57))%N.

(** The value of a hexadecimal digit, [0-9A-Fa-f]. *)
Definition hexval (c : N) : option N :=
  if is_digit c then Some (c - 48)%N
  else if ((97 <=? c) && (c <=? 102))%N then Some (c - 87)%N
  else if ((65 <=? c) && (c <=? 70))%N then Some (c - 55)%N
  else None.

(** [_decode_uXXXX] on the four characters after [\u]. *)
Definition decode_uXXXX (h1 h2 h3 h4 : N) : option N :=
  match hexval h1, hexval h2, hexval h3, hexval h4 with
  | Some a, Some b, Some c, Some d => Some (4096 * a + 256 * b + 16 * c + d)%N
  | _, _, _, _ => None
  end.

(** The table [BACKSLASH] of the short escapes. *)
Definition BACKSLASH_DCT (esc : N) : option N :=
  if (esc =? 34)%N then Some 34%N
  else if (esc =? 92)%N then Some 92%N
  else if (esc =? 47)%N then Some 47%N
  else if (esc =? 98)%N then Some 8%N
  else if (esc =? 102)%N then Some 12%N
  else if (esc =? 110)%N then Some 10%N
  else if (esc =? 114)%N then Some 13%N
  else if (esc =? 116)%N then Some 9%N
  else None.

Definition is_high_surrogate (c : N) : bool := ((55296 <=? c) && (c <=? 56319))%N.
Definition is_low_surrogate (c : N) : bool := ((56320 <=? c) && (c <=? 57343))%N.

Definition cons_char (c : N) (r : option (pystr * pystr)) : option (pystr * pystr) :=
  match r with
  | Some (str, rest) => Some (c :: str, rest)
  | None => None
  end.

(** [scanstring(s, end, strict=True)], from the character after the opening
    quote: the decoded string and the text after the closing quote. *)
Fixpoint scanstring (s : pystr) : option (pystr * pystr) :=
  match s with
  | [] => None
  | c :: r =>
      if (c =? 34)%N then Some ([], r)
      else if (c =? 92)%N then
        match r with
        | [] => None
        | esc :: r1 =>
            if (esc =? 117)%N then
              match r1 with
              | h1 :: h2 :: h3 :: h4 :: r2 =>
                  match decode_uXXXX h1 h2 h3 h4 with
                  | None => None
                  | Some uni =>
                      match r2 with
                      | b :: u :: g1 :: g2 :: g3 :: g4 :: r3 =>
                          if is_high_surrogate uni && (b =? 92)%N && (u =? 117)%N then
                            match decode_uXXXX g1 g2 g3 g4 with
                            | None => None
                            | Some uni2 =>
                                if is_low_surrogate uni2 then
                                  cons_char
                                    (65536 + N.lor (N.shiftl (uni - 55296) 10) (uni2 - 56320))%N
                                    (scanstring r3)
                                else cons_char uni (scanstring r2)
                            end
                          else cons_char uni (scanstring r2)
                      | b :: u :: _ =>
                          if is_high_surrogate uni && (b =? 92)%N && (u =? 117)%N then None
                          else cons_char uni (scanstring r2)
                      | _ => cons_char uni (scanstring r2)
                      end
                  end
              | _ => None
              end
            else
              match BACKSLASH_DCT esc with
              | Some char => cons_char char (scanstring r1)
              | None => None
              end
        end
      else if (c <? 32)%N then None
      else cons_char c (scanstring r)
  end.

(** [NUMBER_RE], group by group. *)
Fixpoint span_digits (s : pystr) : pystr * pystr :=
  match s with
  | c :: r =>
      if is_digit c then let (ds, r') := span_digits r in (c :: ds, r')
      else ([], s)
  | [] => ([], [])
  end.

Definition match_sign (signs : N -> bool) (s : pystr) : pystr * pystr :=
  match s with
  | c :: r => if signs c then ([c], r) else ([], s)
  | [] => ([], s)
  end.

(** The group [integer]: an optional minus sign, then a single zero or
    a digit from 1 to 9 followed by any digits. *)
Definition match_integer (s : pystr) : option (pystr * pystr) :=
  let (sign, s1) := match_sign (fun c => c =? 45)%N s in
  match s1 with
  | c :: r =>
      if (c =? 48)%N then Some (sign ++ [c], r)
      else if is_digit c then
        let (ds, r') := span_digits r in Some (sign ++ c :: ds, r')
      else None
  | [] => None
  end.

(** [(\.[0-9]+)?] *)
Definition match_frac (s : pystr) : pystr * pystr :=
  match s with
  | c :: r =>
      if (c =? 46)%N then
        match span_digits r with
        | ([], _) => ([], s)
        | (ds, r') => (c :: ds, r')
        end
      else ([], s)
  | [] => ([], s)
  end.

(** The optional group [exp]: e or E, an optional sign, one digit or more. *)
Definition match_exp (s : pystr) : pystr * pystr :=
  match s with
  | c :: r =>
      if ((c =? 101) || (c =? 69))%N then
        let (sign, r1) := match_sign (fun c => (c =? 45) || (c =? 43))%N r in
        match span_digits r1 with
        | ([], _) => ([], s)
        | (ds, r2) => (c :: sign ++ ds, r2)
        end
      else ([], s)
  | [] => ([], s)
  end.

(** [NUMBER_RE.match]: the groups [integer], [frac], [exp] and the text
    after the match. *)
Definition match_number (s : pystr) : option (pystr * pystr * pystr * pystr) :=
  match match_integer s with
  | None => None
  | Some (integer, r) =>
      let (frac, r1) := match_frac r in
      let (exp, r2) := match_exp r1 in
      Some (integer, frac, exp, r2)
  end.

(** [int()] on the digits of a token. *)
Fixpoint uint_of_str (s : pystr) : uint :=
  match s with
  | [] => Nil
  | c :: r =>
      let d := uint_of_str r in
      if (c =? 48)%N then D0 d else if (c =? 49)%N then D1 d
      else if (c =? 50)%N then D2 d else if (c =? 51)%N then D3 d
      else if (c =? 52)%N then D4 d else if (c =? 53)%N then D5 d
      else if (c =? 54)%N then D6 d else if (c =? 55)%N then D7 d
      else if (c =? 56)%N then D8 d else if (c =? 57)%N then D9 d
      else Nil
  end.

Definition int_of_str (s : pystr) : Z :=
  match s with
  | c :: r => if (c =? 45)%N then Z.of_int (Neg (uint_of_str r))
              else Z.of_int (Pos (uint_of_str s))
  | [] => 0
  end.

(** [s.startswith(prefix)], giving the text after the prefix. *)
Fixpoint strip_prefix (prefix s : pystr) : option pystr :=
  match prefix with
  | [] => Some s
  | p :: prefix' =>
      match s with
      | c :: r => if (c =? p)%N then strip_prefix prefix' r else None
      | [] => None
      end
  end.

(** [dict(pairs)]: a later pair with a key already present replaces the
    value and keeps the position of the key. *)
Fixpoint pystr_eqb (a b : pystr) : bool :=
  match a, b with
  | [], [] => true
  | x :: a', y :: b' => (x =? y)%N && pystr_eqb a' b'
  | _, _ => false
  end.

Fixpoint dict_setitem (d : list (pystr * value)) (k : pystr) (v : value)
  : list (pystr * value) :=
  match d with
  | [] => [(k, v)]
  | (k', v') :: d' =>
      if pystr_eqb k' k then (k', v) :: d' else (k', v') :: dict_setitem d' k v
  end.

Definition dict_of_pairs (pairs : list (pystr * value)) : list (pystr * value) :=
  fold_left (fun d kv => dict_setitem d (fst kv) (snd kv)) pairs [].

Section Decoder.

(** The scanner the object and array decoders call back. *)
Variable scan_once : pystr -> option (value * pystr).

(** The loop of [JSONArray], entered at the first character of a value. *)
Fixpoint array_values (n : nat) (s : pystr) : option (list value * pystr) :=
  match n with
  | O => None
  | S n =>
      match scan_once s with
      | None => None
      | Some (v, r) =>
          match skip_ws r with
          | [] => None
          | c :: r' =>
              if (c =? 93)%N then Some ([v], r')
              else if (c =? 44)%N then
                match array_values n (skip_ws r') with
                | Some (vs, r'') => Some (v :: vs, r'')
                | None => None
                end
              else None
          end
      end
  end.

Definition JSONArray (n : nat) (s : pystr) : option (value * pystr) :=
  match skip_ws s with
  | [] => None
  | c :: r =>
      if (c =? 93)%N then Some (VList [], r)
      else
        match array_values n (c :: r) with
        | Some (vs, r') => Some (VList vs, r')
        | None => None
        end
  end.

(** The loop of [JSONObject], entered after the opening quote of a key. *)
Fixpoint object_pairs (n : nat) (s : pystr) : option (list (pystr * value) * pystr) :=
  match n with
  | O => None
  | S n =>
      match scanstring s with
      | None => None
      | Some (key, r) =>
          match skip_ws r with
          | [] => None
          | c :: r1 =>
              if (c =? 58)%N then
                match scan_once (skip_ws r1) with
                | None => None
                | Some (v, r2) =>
                    match skip_ws r2 with
                    | [] => None
                    | c2 :: r3 =>
                        if (c2 =? 125)%N then Some ([(key, v)], r3)
                        else if (c2 =? 44)%N then
                          match skip_ws r3 with
                          | [] => None
                          | q :: r4 =>
                              if (q =? 34)%N then
                                match object_pairs n r4 with
                                | Some (pairs, r5) => Some ((key, v) :: pairs, r5)
                                | None => None
                                end
                              else None
                          end
                        else None
                    end
                end
              else None
          end
      end
  end.

Definition JSONObject (n : nat) (s : pystr) : option (value * pystr) :=
  match skip_ws s with
  | [] => None
  | c :: r =>
      if (c =? 125)%N then Some (VDict [], r)
      else if (c =? 34)%N then
        match object_pairs n r with
        | Some (pairs, r') => Some (VDict (dict_of_pairs pairs), r')
        | None => None
        end
      else None
  end.

End Decoder.

(** [_scan_once]: the value at the head of [s] and the text after it.
    [fuel] bounds the nesting and the loops; the length of the text is
    always enough. *)
Fixpoint scan_once (fuel : nat) (s : pystr) : option (value * pystr) :=
  match fuel with
  | O => None
  | S fuel =>
      match s with
      | [] => None
      | nextchar :: r =>
          if (nextchar =? 34)%N then
            match scanstring r with
            | Some (str, r') => Some (VStr str, r')
            | None => None
            end
          else if (nextchar =? 123)%N then JSONObject (scan_once fuel) fuel r
          else if (nextchar =? 91)%N then JSONArray (scan_once fuel) fuel r
          else
            match strip_prefix (py "null") s, strip_prefix (py "true") s,
                  strip_prefix (py "false") s with
            | Some r', _, _ => Some (VNone, r')
            | _, Some r', _ => Some (VBool true, r')
            | _, _, Some r' => Some (VBool false, r')
            | None, None, None =>
                match match_number s with
                | Some (integer, frac, exp, r') =>
                    match frac, exp with
                    | [], [] => Some (VInt (int_of_str integer), r')
                    | _, _ => Some (VFloat (float_of_str (integer ++ frac ++ exp)), r')
                    end
                | None =>
                    match strip_prefix (py "NaN") s, strip_prefix (py "Infinity") s,
                          strip_prefix (py "-Infinity") s with
                    | Some r', _, _ => Some (VFloat (float_of_str (py "NaN")), r')
                    | _, Some r', _ => Some (VFloat (float_of_str (py "Infinity")), r')
                    | _, _, Some r' => Some (VFloat (float_of_str (py "-Infinity")), r')
                    | None, None, None => None
                    end
                end
            end
      end
  end.

(** [json.loads(s)] for a [str]: no byte-order mark, one value between
    whitespace, nothing after it. *)
Definition json_loads (s : pystr) : option value :=
  match strip_prefix [65279%N] s with
  | Some _ => None
  | None =>
      match scan_once (length s) (skip_ws s) with
      | Some (obj, r) =>
          match skip_ws r with
          | [] => Some obj
          | _ => None
          end
      | None => None
      end
  end.

(** ** JSON-representable values *)

(** Code points end at U+10FFFF. *)
Definition is_str (s : pystr) : bool := forallb (fun c => c <=? 1114111)%N s.

Fixpoint distinct (keys : list pystr) : bool :=
  match keys with
  | [] => true
  | k :: rest => negb (existsb (pystr_eqb k) rest) && distinct rest
  end.

(** What [json.loads] can produce: strings of code points, finite floats,
    dicts whose keys are distinct strings. *)
Fixpoint json_value (v : value) : bool :=
  match v with
  | VNone | VBool _ | VInt _ => true
  | VFloat f => float_isfinite f
  | VStr s => is_str s
  | VList l => forallb json_value l
  | VDict items =>
      forallb (fun kv => is_str (fst kv) && json_value (snd kv)) items
      && distinct (map fst items)
  end.

(** No high surrogate immediately followed by a low surrogate. *)
Fixpoint pair_free (s : pystr) : bool :=
  match s with
  | [] => true
  | c :: r =>
      match r with
      | [] => true
      | d :: _ => negb (is_high_surrogate c && is_low_surrogate d) && pair_free r
      end
  end.

Fixpoint keys_pair_free (v : value) : bool :=
  match v with
  | VList l => forallb keys_pair_free l
  | VDict items =>
      forallb (fun kv => pair_free (fst kv) && keys_pair_free (snd kv)) items
  | _ => true
  end.

End Values.

(** A token of [NUMBER_RE] with a fraction or an exponent: what the
    decoder hands to [float()]. *)
Definition float_token (tok : pystr) : bool :=
  match match_number tok with
  | Some (_, frac, exp, []) => negb (match frac, exp with [], [] => true | _, _ => false end)
  | _ => false
  end.

(** [float.__repr__] on a finite float gives such a token, and [float()]
    reads it back as the same float. *)
Definition float_repr_roundtrips (F : PyFloat) : Prop :=
  forall f : float,
    float_isfinite f = true ->
    float_token (float_str f) = true /\ float_of_str (float_str f) = f.

(** Floats carried as the text of their [repr]: an instance to run the
    definitions on. *)
#[local] Instance repr_floats : PyFloat := {|
  float := pystr;
  float_str := fun f => f;
  float_of_str := fun s => s;
  float_isfinite := float_token
|}.

(** ** Notions for the round trip *)

(** The text starts with the two characters of a [\\u] escape. *)
Definition starts_u (s : pystr) : bool :=
  match s with
  | b :: u :: _ => ((b =? 92) && (u =? 117))%N
  | _ => false
  end.

(** The text after an escaped high surrogate cannot complete a pair. *)
Definition unpairable (tail : pystr) : Prop :=
  starts_u tail = false
  \/ exists n t, tail = u_escape n ++ t /\ (n < 65536)%N /\ is_low_surrogate n = false.

(** The text after a value: the end, whitespace, a comma or a closing
    bracket. *)
Definition at_delimiter (s : pystr) : bool :=
  match s with
  | [] => true
  | c :: _ => is_ws c || (c =? 44)%N || (c =? 93)%N || (c =? 125)%N
  end.

Definition is_number_char (c : N) : bool :=
  (is_digit c || (c =? 45) || (c =? 43) || (c =? 46) || (c =? 101) || (c =? 69))%N.

Definition no_number_char (s : pystr) : bool :=
  match s with
  | [] => true
  | c :: _ => negb (is_number_char c)
  end.

(** The first character of a value is no whitespace, delimiter or
    byte-order mark. *)
Definition starts_value (s : pystr) : bool :=
  match s with
  | [] => false
  | c :: _ => negb (is_ws c || (c =? 44) || (c =? 93) || (c =? 125) || (c =? 65279))%N
  end.

(** The parts of a container as the formatter lays them out: a comma and
    [after_comma] between two parts, [before_close] and the closing bracket
    after the last, [rest] behind. *)
Fixpoint render_seq (after_comma before_close closing : pystr) (parts : list pystr)
    (rest : pystr) : pystr :=
  match parts with
  | [] => before_close ++ closing ++ rest
  | p :: ps =>
      match ps with
      | [] => p ++ before_close ++ closing ++ rest
      | _ => p ++ py "," ++ after_comma ++ render_seq after_comma before_close closing ps rest
      end
  end.

Definition all_ws (s : pystr) : bool := forallb is_ws s.

(** The scanner reads a formatted value back, whatever the options it was
    formatted with. *)
Definition reads_back {F : PyFloat} (v : value) : Prop :=
  forall (indent max_line_length ci : Z) (rest : pystr) (fuel : nat),
    json_value v = true ->
    keys_pair_free v = true ->
    at_delimiter rest = true ->
    (length (format_value indent max_line_length v ci ++ rest) <= fuel)%nat ->
    scan_once fuel (format_value indent max_line_length v ci ++ rest) = Some (v, rest).

(** ** Sample values *)

Definition xs (n : nat) : pystr := repeat 120%N n.


(** A key of two code points, a high surrogate and a low one, and the key
    of the one character the pair stands for. *)
Definition surrogate_key : pystr := [55357; 56832]%N.
Definition astral_key : pystr := [128512%N].

Section Samples.

Context {F : PyFloat}.

(** Arrays of scalars whose compact renderings are 80, 81 and 75
    characters long. *)
Definition array_of_80 : list value := [VStr (xs 70); VInt 1234].
Definition array_of_81 : list value := [VStr (xs 70); VInt 12345].
Definition array_of_75 : list value := [VStr (xs 71)].

Definition array_of_mappings : list value := [VDict [(py "id", VInt 1)]; VDict []].

Definition surrogate_key_dict : value := VDict [(surrogate_key, VInt 1)].
Definition astral_key_dict : value := VDict [(astral_key, VInt 1)].
Definition colliding_keys_dict : value :=
  VDict [(surrogate_key, VInt 1); (astral_key, VInt 2)].

End Samples.

Definition sample_document : value :=
  VDict
    [(py "name", VStr [99; 97; 102; 233; 34; 10]%N);
     ([233; 55357; 128512]%N,
      VList [VInt 1; VInt (-20); VFloat (F := repr_floats) (py "1.5e+22"); VNone]);
     (py "rows", VList [VDict [(py "id", VInt 0); (py "ok", VBool true)]; VList []; VDict []]);
     (py "long", VList array_of_81)].

(** ** More of [str] *)

(** [str.isspace] on one character, which is also the class [\s] of [re]
    on a [str]. *)
Definition is_space (c : N) : bool :=
  (((9 <=? c) && (c <=? 13)) || ((28 <=? c) && (c <=? 32))
   || (c =? 133) || (c =? 160) || (c =? 5760)
   || ((8192 <=? c) && (c <=? 8202))
   || (c =? 8232) || (c =? 8233) || (c =? 8239) || (c =? 8287) || (c =? 12288))%N.

(** [s.lstrip(chars)] and [s.rstrip(chars)], the set of characters as a
    predicate. *)
Fixpoint lstrip_chars (chars : N -> bool) (s : pystr) : pystr :=
  match s with
  | c :: r => if chars c then lstrip_chars chars r else s
  | [] => []
  end.

Definition rstrip_chars (chars : N -> bool) (s : pystr) : pystr :=
  List.rev (lstrip_chars chars (List.rev s)).

(** [s.strip()] *)
Definition str_strip (s : pystr) : pystr :=
  lstrip_chars is_space (rstrip_chars is_space s).

(** [s.split()]: the maximal runs of characters that are not whitespace. *)
Fixpoint str_split_ws (s : pystr) : list pystr :=
  match s with
  | [] => []
  | c :: r =>
      if is_space c then str_split_ws r
      else
        match r with
        | [] => [[c]]
        | d :: _ =>
            if is_space d then [c] :: str_split_ws r
            else
              match str_split_ws r with
              | word :: words => (c :: word) :: words
              | [] => [[c]]
              end
        end
  end.

(** [d.get(k)] and [k in d] for a dict kept as its items. *)
Fixpoint dict_get {A} (d : list (pystr * A)) (k : pystr) : option A :=
  match d with
  | [] => None
  | (k', v) :: d' => if pystr_eqb k' k then Some v else dict_get d' k
  end.

Definition dict_contains {A} (d : list (pystr * A)) (k : pystr) : bool :=
  match dict_get d k with
  | Some _ => true
  | None => false
  end.

(** A small [info.json], and the tags of a repository. *)
Definition sample_info : list (pystr * value) :=
  [(py "name", VStr (py "my-mod")); (py "version", VStr (py "0.1.0"));
   (py "dependencies", VList [VStr (py "base >= 1.1")])].

Definition sample_info_text : pystr := format_json_prettier (VDict sample_info) 4 20.

Definition sample_tags : list (pystr * pystr) :=
  [(py "vv1.2.0", py "2024-05-01 10:00:00 +0200"); (py "v1.1.0", py "2024-01-01 10:00:00 +0100")].

(** ** [parse_commit_line] of [factorio_changelog_generator.py] *)

(** The regular expressions are written with two combinators that try the
    longest repetition first and give characters back when what follows
    fails, as [re] does.  [star_then cls k] is [cls*] followed by [k],
    which receives the characters matched and the text after them;
    [plus_then] is [cls+]. *)
Fixpoint star_then {A} (cls : N -> bool) (k : pystr -> pystr -> option A) (s : pystr)
  : option A :=
  match s with
  | c :: r =>
      if cls c then
        match star_then cls (fun m => k (c :: m)) r with
        | Some x => Some x
        | None => k [] s
        end
      else k [] s
  | [] => k [] s
  end.

Definition plus_then {A} (cls : N -> bool) (k : pystr -> pystr -> option A) (s : pystr)
  : option A :=
  match s with
  | c :: r => if cls c then star_then cls (fun m => k (c :: m)) r else None
  | [] => None
  end.

(** The class [a-zA-Z]. *)
Definition is_alpha (c : N) : bool :=
  (((65 <=? c) && (c <=? 90)) || ((97 <=? c) && (c <=? 122)))%N.

(** [$]: the end of the text, or just before a newline that ends it. *)
Definition at_end (s : pystr) : bool :=
  match s with
  | [] => true
  | c :: r => (c =? 10)%N && match r with [] => true | _ => false end
  end.

(** The end of the pattern of line 64, from the whitespace before the
    colon: the colon, whitespace, and group 2, one character or more other
    than a newline up to the end. *)
Definition match_description (prefix : pystr) (s : pystr) : option (pystr * pystr) :=
  star_then is_space
    (fun _ r =>
       match r with
       | c :: r' =>
           if (c =? 58)%N then
             star_then is_space
               (fun _ r'' =>
                  plus_then (fun c => negb (c =? 10)%N)
                    (fun description rest =>
                       if at_end rest then Some (prefix, description) else None)
                    r'')
               r'
           else None
       | [] => None
       end)
    s.

(** The optional scope between parentheses, one character or more other
    than the closing parenthesis, and what follows it. *)
Definition match_scope (prefix : pystr) (s : pystr) : option (pystr * pystr) :=
  match s with
  | c :: r =>
      if (c =? 40)%N then
        plus_then (fun c => negb (c =? 41)%N)
          (fun _ r' =>
             match r' with
             | c' :: r'' => if (c' =? 41)%N then match_description prefix r'' else None
             | [] => None
             end)
          r
      else None
  | [] => None
  end.

(** [re.match] with the pattern of line 64: groups 1 and 2. *)
Definition match_commit_line (line : pystr) : option (pystr * pystr) :=
  plus_then is_alpha
    (fun prefix r =>
       match match_scope prefix r with
       | Some groups => Some groups
       | None => match_description prefix r
       end)
    line.

(** [re.sub] of line 61: a leading dash goes with the whitespace after it. *)
Definition remove_leading_dash (line : pystr) : pystr :=
  match line with
  | c :: r => if (c =? 45)%N then lstrip_chars is_space r else line
  | [] => []
  end.

(** [str.lower] on the letters of group 1. *)
Definition str_lower (s : pystr) : pystr :=
  map (fun c => if ((65 <=? c) && (c <=? 90))%N then (c + 32)%N else c) s.

Definition CATEGORY_MAP : list (pystr * pystr) :=
  [(py "major", py "Major Features");
   (py "feat", py "Features");
   (py "minor", py "Minor Features");
   (py "graphics", py "Graphics");
   (py "sounds", py "Sounds");
   (py "perf", py "Optimizations");
   (py "balance", py "Balancing");
   (py "combat", py "Combat Balancing");
   (py "circuits", py "Circuit Network");
   (py "change", py "Changes");
   (py "fix", py "Bugfixes");
   (py "modding", py "Modding");
   (py "scripting", py "Scripting");
   (py "gui", py "Gui");
   (py "control", py "Control");
   (py "translations", py "Translation");
   (py "debug", py "Debug");
   (py "info", py "Info");
   (py "ease", py "Ease of use");
   (py "locale", py "Locale")].

Definition IGNORED_PREFIXES : list pystr := [py "release"].

(** [CATEGORY_MAP.get(prefix, "Changes")] *)
Definition category_of (prefix : pystr) : pystr :=
  match dict_get CATEGORY_MAP prefix with
  | Some category => category
  | None => py "Changes"
  end.

Definition parse_commit_line (line : pystr) : option (pystr * pystr) :=
  match str_strip line with
  | [] => None
  | stripped =>
      let line := remove_leading_dash stripped in
      match match_commit_line line with
      | Some (group1, group2) =>
          let prefix := str_lower group1 in
          if existsb (pystr_eqb prefix) IGNORED_PREFIXES then None
          else
            let description := str_strip group2 in
            Some (category_of prefix, description)
      | None => None
      end
  end.

(** The text does not go on with a character of the class. *)
Definition stops (cls : N -> bool) (r : pystr) : Prop :=
  match r with
  | [] => True
  | c :: _ => cls c = false
  end.

(** No whitespace at the end. *)
Definition rstripped (s : pystr) : Prop := stops is_space (List.rev s).

(** A line in the conventional form: whitespace, an optional dash with
    whitespace after it, the prefix, an optional scope in parentheses,
    whitespace, a colon, whitespace, the description, whitespace. *)
Definition conventional_line (lead : pystr) (dash : option pystr) (prefix : pystr)
    (scope : option pystr) (w1 w2 description trail : pystr) : pystr :=
  lead
  ++ match dash with Some ws => 45%N :: ws | None => [] end
  ++ prefix
  ++ match scope with Some sc => 40%N :: sc ++ [41%N] | None => [] end
  ++ w1 ++ 58%N :: w2 ++ description ++ trail.

Definition all_space (s : pystr) : bool := forallb is_space s.

Definition option_all (p : pystr -> bool) (o : option pystr) : bool :=
  match o with
  | Some s => p s
  | None => true
  end.

Definition scope_ok (sc : pystr) : bool :=
  negb (match sc with [] => true | _ => false end)
  && forallb (fun c => negb (c =? 41)%N) sc.

(** ** [categorize_commits] *)

(** The [TypedDict] [Commit] of [git_utils.py]. *)
Record Commit : Type := {
  hash : pystr;
  subject : pystr;
  body : pystr;
  date : pystr
}.

(** [categorized[category].append(description)] on a [defaultdict(list)]:
    a new category goes last. *)
Fixpoint append_entry (categorized : list (pystr * list pystr))
    (category description : pystr) : list (pystr * list pystr) :=
  match categorized with
  | [] => [(category, [description])]
  | (c, entries) :: rest =>
      if pystr_eqb c category then (c, entries ++ [description]) :: rest
      else (c, entries) :: append_entry rest category description
  end.

(** Lines 88-91 and 96-99: one line of a commit. *)
Definition add_line (categorized : list (pystr * list pystr)) (line : pystr)
  : list (pystr * list pystr) :=
  match parse_commit_line line with
  | Some (category, description) => append_entry categorized category description
  | None => categorized
  end.

(** The body of the loop over the commits. *)
Definition categorize_commit (categorized : list (pystr * list pystr)) (commit : Commit)
  : list (pystr * list pystr) :=
  let categorized := add_line categorized (subject commit) in
  match body commit with
  | [] => categorized
  | _ => fold_left add_line (str_split 10 (body commit)) categorized
  end.

Definition categorize_commits (commits : list Commit) : list (pystr * list pystr) :=
  fold_left categorize_commit commits [].

(** The entries of a category, none when it is absent. *)
Definition entries_of (categories : list (pystr * list pystr)) (category : pystr)
  : list pystr :=
  match dict_get categories category with
  | Some entries => entries
  | None => []
  end.

(** What [parse_commit_line] accepts among the subject and the lines of
    the body of every commit, in order. *)
Definition accepted_lines (commits : list Commit) : list (pystr * pystr) :=
  flat_map
    (fun line => match parse_commit_line line with Some r => [r] | None => [] end)
    (flat_map (fun commit => subject commit :: str_split 10 (body commit)) commits).

Definition sample_commits : list Commit :=
  [ {| hash := py "c3"; subject := py "fix: crash on load";
       body := py "- feat(gui): new button" ++ NL ++ NL ++ py "fix: typo";
       date := py "2024-05-01 10:00:00 +0200" |};
    {| hash := py "c2"; subject := py "release: 1.1.0"; body := [];
       date := py "2024-04-01 10:00:00 +0200" |};
    {| hash := py "c1"; subject := py "wip: untested"; body := py "no prefix here";
       date := py "2024-03-01 10:00:00 +0200" |} ].

(** What [parse_commit_line] makes of one line, and the descriptions of a
    category among parsed lines. *)
Definition accepted (line : pystr) : list (pystr * pystr) :=
  match parse_commit_line line with Some r => [r] | None => [] end.

Definition entries_in (category : pystr) (parsed : list (pystr * pystr)) : list pystr :=
  map snd (filter (fun r => pystr_eqb (fst r) category) parsed).

(** Every key is a value of [CATEGORY_MAP], no key comes twice, no list
    is empty. *)
Definition well_grouped (categorized : list (pystr * list pystr)) : Prop :=
  distinct (map fst categorized) = true
  /\ Forall (fun kv => In (fst kv) (map snd CATEGORY_MAP) /\ snd kv <> []) categorized.

(** ** [format_changelog_entry] *)

(** The state of the loop that wraps one entry (lines 152-186):
    [lines_out] holds the lines the loop has appended to [lines]. *)
Record wrap_state : Type := {
  lines_out : list pystr;
  current_line : list pystr;
  current_length : Z;
  is_first_line : bool
}.

(** The line written for the words of [current_line] (lines 173-177 and
    183-186). *)
Definition entry_line (is_first_line : bool) (current_line : list pystr) : pystr :=
  (if is_first_line then py "    - " else py "      ") ++ str_join (py " ") current_line.

(** The body of the loop over the words (lines 157-179). *)
Definition wrap_word (st : wrap_state) (word : pystr) : wrap_state :=
  let word_length := len word + 1 in
  match current_line st with
  | [] =>
      {| lines_out := lines_out st;
         current_line := [word];
         current_length := 6 + len word;
         is_first_line := is_first_line st |}
  | _ =>
      if current_length st + word_length <=? 80 then
        {| lines_out := lines_out st;
           current_line := current_line st ++ [word];
           current_length := current_length st + word_length;
           is_first_line := is_first_line st |}
      else
        {| lines_out := lines_out st ++ [entry_line (is_first_line st) (current_line st)];
           current_line := [word];
           current_length := 6 + len word;
           is_first_line := false |}
  end.

Definition wrap_start : wrap_state :=
  {| lines_out := []; current_line := []; current_length := 0; is_first_line := true |}.

(** The lines written for one entry (lines 150-186). *)
Definition wrap_entry (entry : pystr) : list pystr :=
  let st := fold_left wrap_word (str_split_ws entry) wrap_start in
  match current_line st with
  | [] => lines_out st
  | _ => lines_out st ++ [entry_line (is_first_line st) (current_line st)]
  end.

(** Lines 132-140: the categories that are values of [CATEGORY_MAP], in
    its order, then the others in the order of the dict. *)
Definition sorted_categories (categories : list (pystr * list pystr)) : list pystr :=
  let official :=
    filter (fun cat => dict_contains categories cat) (map snd CATEGORY_MAP) in
  fold_left
    (fun sorted cat =>
       if existsb (fun c => pystr_eqb c cat) sorted then sorted else sorted ++ [cat])
    (map fst categories) official.

Section ChangelogEntry.

(** [datetime.fromisoformat(s).strftime("%d.%m.%Y")], [None] for a
    [ValueError]. *)
Variable iso_date_dmy : pystr -> option pystr.

(** Lines 116-123. *)
Definition date_lines (date : pystr) : list pystr :=
  match date with
  | [] => []
  | _ =>
      match str_split_ws date with
      | [] => []
      | day :: _ =>
          match iso_date_dmy day with
          | Some formatted_date => [py "Date: " ++ formatted_date]
          | None => []
          end
      end
  end.

(** [category] is a key of [categories]: it went into
    [sorted_categories] from the keys. *)
Definition category_lines (categories : list (pystr * list pystr)) (category : pystr)
  : list pystr :=
  (py "  " ++ category ++ py ":") :: flat_map wrap_entry (entries_of categories category).

Definition format_changelog_entry (version date : pystr)
    (categories : list (pystr * list pystr)) : pystr :=
  str_join NL
    ([str_mul (py "-") 99; py "Version: " ++ version]
     ++ date_lines date
     ++ [[]]
     ++ flat_map (category_lines categories) (sorted_categories categories)).

End ChangelogEntry.

(** The lines of an entry from its words put in groups: the first line
    behind a dash, the others behind six spaces. *)
Definition wrapped_lines (groups : list (list pystr)) : list pystr :=
  match groups with
  | [] => []
  | g :: gs =>
      (py "    - " ++ str_join (py " ") g)
      :: map (fun g => py "      " ++ str_join (py " ") g) gs
  end.

Definition line_width (words : list pystr) : Z := 6 + len (str_join (py " ") words).

(** The words of the lines of an entry: [current_line] holds the words of
    the line that is open, a word that does not fit opens the next. *)
Fixpoint fill_groups (current_line words : list pystr) : list (list pystr) :=
  match words with
  | [] => [current_line]
  | word :: rest =>
      if line_width current_line + (len word + 1) <=? 80
      then fill_groups (current_line ++ [word]) rest
      else current_line :: fill_groups [word] rest
  end.

Definition word_groups (words : list pystr) : list (list pystr) :=
  match words with
  | [] => []
  | word :: rest => fill_groups [word] rest
  end.

(** Every line but the last is followed by a word that would have gone
    past column 80 on it. *)
Fixpoint forced_breaks (groups : list (list pystr)) : bool :=
  match groups with
  | [] => true
  | g :: rest =>
      match rest with
      | [] => true
      | [] :: _ => false
      | (word :: _) :: _ => (80 <? line_width g + (len word + 1)) && forced_breaks rest
      end
  end.

Definition is_official (category : pystr) : bool :=
  existsb (fun c => pystr_eqb c category) (map snd CATEGORY_MAP).

Definition mixed_categories : list (pystr * list pystr) :=
  [(py "Zeta", [py "z"]); (py "Bugfixes", [py "b"]); (py "Alpha", [py "a"]);
   (py "Features", [py "f"])].

(** ** Keys as they are read back *)

(** What [scanstring] makes of the escapes [json.dumps(k)] writes for a
    key: a high surrogate immediately followed by a low one comes back as
    the one character the pair stands for. *)
Fixpoint join_pairs (s : pystr) : pystr :=
  match s with
  | [] => []
  | c :: r =>
      match r with
      | d :: r' =>
          if is_high_surrogate c && is_low_surrogate d
          then (65536 + N.lor (N.shiftl (c - 55296) 10) (d - 56320))%N :: join_pairs r'
          else c :: join_pairs r
      | [] => [c]
      end
  end.

Section ReadKeys.

Context {F : PyFloat}.

(** The value with every key as it is read back. *)
Fixpoint read_keys (v : value) : value :=
  match v with
  | VList l => VList (map read_keys l)
  | VDict items => VDict (map (fun kv => (join_pairs (fst kv), read_keys (snd kv))) items)
  | _ => v
  end.

(** No two keys of one dict are read back as the same key. *)
Fixpoint keys_read_distinct (v : value) : bool :=
  match v with
  | VList l => forallb keys_read_distinct l
  | VDict items =>
      distinct (map (fun kv => join_pairs (fst kv)) items)
      && forallb (fun kv => keys_read_distinct (snd kv)) items
  | _ => true
  end.

Section Layout.

Variables (indent max_line_length : Z).

(** The check of lines 22-28 tells the key from the key as it is read
    back: the list is too long for the line, so that the recursive call
    of line 19 has expanded it, and it is within the budget of line 27
    with the key as it is read back but not with the key as it is. *)
Definition key_length_matters (current_indent : Z) (k : pystr) (v : value) : bool :=
  match v with
  | VList [] => false
  | VList l =>
      let json_str := json_dumps false v in
      all_simple l
      && (max_line_length <? len json_str)
      && (max_line_length - current_indent - len k - 5 <? len json_str)
      && (len json_str <=? max_line_length - current_indent - len (join_pairs k) - 5)
  | _ => false
  end.

(** No entry of a dict is laid out otherwise for the key as it is read
    back, the value formatted at [current_indent]. *)
Fixpoint keys_keep_layout (v : value) (current_indent : Z) : bool :=
  match v with
  | VList l => forallb (fun x => keys_keep_layout x (current_indent + indent)) l
  | VDict items =>
      forallb
        (fun kv =>
           negb (key_length_matters current_indent (fst kv) (snd kv))
           && keys_keep_layout (snd kv) (current_indent + indent))
        items
  | _ => true
  end.

End Layout.

(** A dict inside a dict, with a key of a surrogate pair over a list of
    scalars whose compact rendering is 81 characters long. *)
Definition surrogate_key_inside : value :=
  VDict [(py "o", VDict [(surrogate_key, VList array_of_81)])].

End ReadKeys.

(** ** Running under the limits of the interpreter

    A call returns, or an exception leaves it. *)
Inductive exception : Type :=
| RecursionError
| ValueError
| AttributeError
| JSONDecodeError.

Inductive run (A : Type) : Type :=
| Return (a : A)
| Raise (e : exception).

Arguments Return {A} a.
Arguments Raise {A} e.

Definition bind {A B} (r : run A) (k : A -> run B) : run B :=
  match r with
  | Return a => k a
  | Raise e => Raise e
  end.

(** The loop [for i, x in enumerate(l)] with a body that may raise: the
    first exception ends it. *)
Fixpoint for_enumerate_run {A B} (body : nat -> A -> run B) (i : nat) (l : list A)
  : run (list B) :=
  match l with
  | [] => Return []
  | x :: rest =>
      bind (body i x) (fun y =>
      bind (for_enumerate_run body (S i) rest) (fun ys => Return (y :: ys)))
  end.

(** [sys.get_int_max_str_digits()], as the interpreter starts. *)
Definition int_max_str_digits : Z := 4300.

(** The digits of an [int], without the sign. *)
Definition int_digits (z : Z) : Z := len (int_repr (Z.abs z)).

(** [int.__repr__] raises [ValueError] on more digits than that. *)
Definition int_printable (z : Z) : bool := int_digits z <=? int_max_str_digits.

Section FormatterRun.

Context {F : PyFloat}.

Fixpoint ints_printable (v : value) : bool :=
  match v with
  | VInt z => int_printable z
  | VList l => forallb ints_printable l
  | VDict items => forallb (fun kv => ints_printable (snd kv)) items
  | _ => true
  end.

(** [json.dumps(o, ensure_ascii=...)] as it runs on a scalar or a list
    of scalars: it raises on an [int] that cannot be printed. *)
Definition json_dumps_run (ensure_ascii : bool) (o : value) : run pystr :=
  if ints_printable o then Return (json_dumps ensure_ascii o) else Raise ValueError.

Variables (indent max_line_length : Z).

(** Lines 22-28 as they run. *)
Definition inline_simple_array_run (current_indent : Z) (k : pystr) (v : value)
    (formatted_value : pystr) : run pystr :=
  match v with
  | VList l =>
      if all_simple l then
        bind (json_dumps_run false v) (fun json_str =>
        Return (if len json_str <=? max_line_length - current_indent - len k - 5
                then json_str
                else formatted_value))
      else Return formatted_value
  | _ => Return formatted_value
  end.

(** [format_value] as it runs when the interpreter allows [limit] more
    nested calls of it: a call beyond that raises [RecursionError]. *)
Fixpoint format_value_run (limit : nat) (value : value) (current_indent : Z)
  : run pystr :=
  match limit with
  | O => Raise RecursionError
  | S limit =>
      match value with
      | VDict items =>
          match items with
          | [] => Return (py "{}")
          | _ =>
              bind (for_enumerate_run
                      (fun i kv =>
                         bind (format_value_run limit (snd kv) (current_indent + indent))
                           (fun formatted_value =>
                         let comma :=
                           if Z.of_nat i <? Z.of_nat (length items) - 1 then py "," else [] in
                         bind (inline_simple_array_run current_indent (fst kv) (snd kv)
                                 formatted_value)
                           (fun formatted_value =>
                         Return (str_mul (py " ") (current_indent + indent)
                                 ++ json_dumps true (VStr (fst kv)) ++ py ": "
                                 ++ formatted_value ++ comma))))
                      0%nat items)
                (fun body =>
              Return (str_join NL
                        ([py "{"] ++ body ++ [str_mul (py " ") current_indent ++ py "}"])))
          end
      | VList l =>
          match l with
          | [] => Return (py "[]")
          | _ =>
              let expanded :=
                bind (for_enumerate_run
                        (fun i item =>
                           bind (format_value_run limit item (current_indent + indent))
                             (fun formatted_item =>
                           Return (list_line indent (length l) current_indent i
                                     formatted_item)))
                        0%nat l)
                  (fun body =>
                Return (str_join NL
                          ([py "["] ++ body ++ [str_mul (py " ") current_indent ++ py "]"]))) in
              if all_simple l then
                bind (json_dumps_run false value) (fun json_str =>
                if len json_str <=? max_line_length then Return json_str else expanded)
              else expanded
          end
      | _ => json_dumps_run false value
      end
  end.

End FormatterRun.

Definition format_json_prettier_run {F : PyFloat} (limit : nat) (obj : value)
    (indent max_line_length : Z) : run pystr :=
  format_value_run indent max_line_length limit obj 0.


(** ** [json.loads] under the limits of the interpreter *)

(** The digits of the token [integer] of a number, without the sign. *)
Definition token_digits (integer : pystr) : Z :=
  match integer with
  | c :: r => if (c =? 45)%N then len r else len integer
  | [] => 0
  end.

(** [int(integer)] raises [ValueError] on more digits than
    [int_max_str_digits]. *)
Definition int_readable (integer : pystr) : bool :=
  token_digits integer <=? int_max_str_digits.

Section DecoderRun.

Context {F : PyFloat}.

(** The scanner the object and array decoders call back. *)
Variable scan_once : pystr -> run (value * pystr).

(** The loop of [JSONArray], entered at the first character of a value. *)
Fixpoint array_values_run (n : nat) (s : pystr) : run (list value * pystr) :=
  match n with
  | O => Raise JSONDecodeError
  | S n =>
      match scan_once s with
      | Raise e => Raise e
      | Return (v, r) =>
          match skip_ws r with
          | [] => Raise JSONDecodeError
          | c :: r' =>
              if (c =? 93)%N then Return ([v], r')
              else if (c =? 44)%N then
                match array_values_run n (skip_ws r') with
                | Return (vs, r'') => Return (v :: vs, r'')
                | Raise e => Raise e
                end
              else Raise JSONDecodeError
          end
      end
  end.

Definition JSONArray_run (n : nat) (s : pystr) : run (value * pystr) :=
  match skip_ws s with
  | [] => Raise JSONDecodeError
  | c :: r =>
      if (c =? 93)%N then Return (VList [], r)
      else
        match array_values_run n (c :: r) with
        | Return (vs, r') => Return (VList vs, r')
        | Raise e => Raise e
        end
  end.

(** The loop of [JSONObject], entered after the opening quote of a key. *)
Fixpoint object_pairs_run (n : nat) (s : pystr) : run (list (pystr * value) * pystr) :=
  match n with
  | O => Raise JSONDecodeError
  | S n =>
      match scanstring s with
      | None => Raise JSONDecodeError
      | Some (key, r) =>
          match skip_ws r with
          | [] => Raise JSONDecodeError
          | c :: r1 =>
              if (c =? 58)%N then
                match scan_once (skip_ws r1) with
                | Raise e => Raise e
                | Return (v, r2) =>
                    match skip_ws r2 with
                    | [] => Raise JSONDecodeError
                    | c2 :: r3 =>
                        if (c2 =? 125)%N then Return ([(key, v)], r3)
                        else if (c2 =? 44)%N then
                          match skip_ws r3 with
                          | [] => Raise JSONDecodeError
                          | q :: r4 =>
                              if (q =? 34)%N then
                                match object_pairs_run n r4 with
                                | Return (pairs, r5) => Return ((key, v) :: pairs, r5)
                                | Raise e => Raise e
                                end
                              else Raise JSONDecodeError
                          end
                        else Raise JSONDecodeError
                    end
                end
              else Raise JSONDecodeError
          end
      end
  end.

Definition JSONObject_run (n : nat) (s : pystr) : run (value * pystr) :=
  match skip_ws s with
  | [] => Raise JSONDecodeError
  | c :: r =>
      if (c =? 125)%N then Return (VDict [], r)
      else if (c =? 34)%N then
        match object_pairs_run n r with
        | Return (pairs, r') => Return (VDict (dict_of_pairs pairs), r')
        | Raise e => Raise e
        end
      else Raise JSONDecodeError
  end.

End DecoderRun.

(** [_scan_once] as it runs: [JSONDecodeError] where the text is no JSON,
    [ValueError] from [int()] on a token of too many digits,
    [RecursionError] on a container inside more than [depth] others.  The
    first of these on the way through the text ends the run.  [fuel] is as
    in [scan_once]. *)
Fixpoint scan_once_run {F : PyFloat} (depth fuel : nat) (s : pystr) {struct fuel}
  : run (value * pystr) :=
  match fuel with
  | O => Raise JSONDecodeError
  | S fuel =>
      match s with
      | [] => Raise JSONDecodeError
      | nextchar :: r =>
          if (nextchar =? 34)%N then
            match scanstring r with
            | Some (str, r') => Return (VStr str, r')
            | None => Raise JSONDecodeError
            end
          else if (nextchar =? 123)%N then
            match depth with
            | O => Raise RecursionError
            | S depth => JSONObject_run (scan_once_run depth fuel) fuel r
            end
          else if (nextchar =? 91)%N then
            match depth with
            | O => Raise RecursionError
            | S depth => JSONArray_run (scan_once_run depth fuel) fuel r
            end
          else
            match strip_prefix (py "null") s, strip_prefix (py "true") s,
                  strip_prefix (py "false") s with
            | Some r', _, _ => Return (VNone, r')
            | _, Some r', _ => Return (VBool true, r')
            | _, _, Some r' => Return (VBool false, r')
            | None, None, None =>
                match match_number s with
                | Some (integer, frac, exp, r') =>
                    match frac, exp with
                    | [], [] =>
                        if int_readable integer
                        then Return (VInt (int_of_str integer), r')
                        else Raise ValueError
                    | _, _ => Return (VFloat (float_of_str (integer ++ frac ++ exp)), r')
                    end
                | None =>
                    match strip_prefix (py "NaN") s, strip_prefix (py "Infinity") s,
                          strip_prefix (py "-Infinity") s with
                    | Some r', _, _ => Return (VFloat (float_of_str (py "NaN")), r')
                    | _, Some r', _ => Return (VFloat (float_of_str (py "Infinity")), r')
                    | _, _, Some r' => Return (VFloat (float_of_str (py "-Infinity")), r')
                    | None, None, None => Raise JSONDecodeError
                    end
                end
            end
      end
  end.

(** [json.loads(s)] as it runs, able to nest [depth] containers. *)
Definition json_loads_run {F : PyFloat} (depth : nat) (s : pystr) : run value :=
  match strip_prefix [65279%N] s with
  | Some _ => Raise JSONDecodeError
  | None =>
      match scan_once_run depth (length s) (skip_ws s) with
      | Return (obj, r) =>
          match skip_ws r with
          | [] => Return obj
          | _ => Raise JSONDecodeError
          end
      | Raise e => Raise e
      end
  end.

(** The decoder as it runs reads a formatted value back, whatever the
    options it was formatted with, when the interpreter can print its
    [int]s and nest its containers. *)
Definition reads_back_run {F : PyFloat} (v : value) : Prop :=
  forall (indent max_line_length ci : Z) (rest : pystr) (fuel depth : nat),
    json_value v = true ->
    keys_pair_free v = true ->
    ints_printable v = true ->
    (nesting_depth v <= depth)%nat ->
    at_delimiter rest = true ->
    (length (format_value indent max_line_length v ci ++ rest) <= fuel)%nat ->
    scan_once_run depth fuel (format_value indent max_line_length v ci ++ rest)
    = Return (v, rest).

(** ** [update_info_json_version] of [factorio_changelog_generator.py]

    The file [info.json] and the tags of the repository are passed in and
    the new state of the file is passed out. *)

(** What opening and reading the file gives: [FileNotFoundError], another
    caught error ([OSError], [UnicodeDecodeError]), or the text. *)
Inductive read_result : Type :=
| NotFound
| Unreadable
| Contents (text : pystr).

Inductive file_state : Type :=
| Untouched
| Truncated
| Rewritten (text : pystr).

(** The function returns with a result, or an exception leaves it. *)
Inductive outcome : Type :=
| Returns (result : bool) (file : file_state)
| Raises (e : exception) (file : file_state).

(** The [utf-8] codec refuses surrogate code points. *)
Definition utf8_encodable (s : pystr) : bool :=
  forallb (fun c => negb (is_high_surrogate c || is_low_surrogate c)) s.

Section UpdateInfo.

Context {F : PyFloat}.

(** The argument [info_json_path]. *)
Variable info_json_path : pystr.

(** The interpreter: the containers [json.load] can nest and the nested
    calls of [format_value] it allows before [RecursionError]. *)
Variables (nesting frames : nat).

(** [repr] of a value that is no [str], and whether [sys.stdout] takes a
    text ([UnicodeEncodeError] or [OSError] when it does not). *)
Variable repr_value : value -> pystr.
Variable stdout_accepts : pystr -> bool.

(** [str(v)], for the f-string of line 311. *)
Definition py_str (v : value) : pystr :=
  match v with
  | VStr s => s
  | _ => repr_value v
  end.

(** [info.get("version", "unknown")] *)
Definition old_version_of (info : list (pystr * value)) : value :=
  match dict_get info (py "version") with
  | Some v => v
  | None => VStr (py "unknown")
  end.

(** The text of line 311. *)
Definition updated_message (old_version : value) (version : pystr) : pystr :=
  py "Updated " ++ info_json_path ++ py ": " ++ py_str old_version ++ py " -> " ++ version.

(** [tags] is what [get_tags()] returned, [file] what reading
    [info_json_path] gives, [writable] whether opening it for writing
    succeeds.  Opening for writing empties the file; [f.write] encodes the
    whole text before it writes any of it. *)
Definition update_info_json_version (tags : list (pystr * pystr)) (file : read_result)
    (writable : bool) : outcome :=
  match tags with
  | [] => Returns false Untouched
  | (latest_tag, _) :: _ =>
      let version := lstrip_chars (fun c => c =? 118)%N latest_tag in
      match file with
      | NotFound => Returns false Untouched
      | Unreadable => Returns false Untouched
      | Contents text =>
          match json_loads_run nesting text with
          | Raise JSONDecodeError => Returns false Untouched
          | Raise e => Raises e Untouched
          | Return (VDict info) =>
              let old_version := old_version_of info in
              let info := dict_setitem info (py "version") (VStr version) in
              if writable then
                match format_json_prettier_run frames (VDict info) 2 80 with
                | Raise e => Raises e Truncated
                | Return formatted_json =>
                    if utf8_encodable formatted_json then
                      if stdout_accepts (updated_message old_version version)
                      then Returns true (Rewritten (formatted_json ++ NL))
                      else Returns false (Rewritten (formatted_json ++ NL))
                    else Returns false Truncated
                end
              else Returns false Untouched
          | Return _ => Raises AttributeError Untouched
          end
      end
  end.

End UpdateInfo.

(** A version that [print] cannot encode: an escaped lone surrogate. *)
Definition surrogate_info_text : pystr :=
  py "{" ++ [DQUOTE] ++ py "version" ++ [DQUOTE] ++ py ": " ++ [DQUOTE; BACKSLASH]
  ++ py "ud83d" ++ [DQUOTE] ++ py "}".

(** The interpreter and the console of the samples: [repr] is not
    called on them, and [sys.stdout] encodes with [utf-8]. *)
Definition sample_repr {F : PyFloat} (v : value) : pystr := [].

Definition sample_update (tags : list (pystr * pystr)) (file : read_result)
    (writable : bool) : outcome :=
  update_info_json_version (F := repr_floats) (py "info.json") 100 100 sample_repr
    utf8_encodable tags file writable.

(** What the update writes for [sample_info_text] and [sample_tags]. *)
Definition sample_info_updated_text : pystr :=
  format_json_prettier (F := repr_floats)
    (VDict (dict_setitem sample_info (py "version") (VStr (py "1.2.0")))) 2 80 ++ NL.

(** The document of [surrogate_info_text], and what the update writes
    for it. *)
Definition surrogate_info : list (pystr * value) := [(py "version", VStr [55357%N])].

Definition surrogate_info_updated_text : pystr :=
  format_json_prettier (F := repr_floats)
    (VDict (dict_setitem surrogate_info (py "version") (VStr (py "1.2.0")))) 2 80 ++ NL.

(** * Properties *)

(** ** The layout of containers *)

Lemma for_enumerate_ext {A B} (f g : nat -> A -> B) (l : list A) :
  (forall i x, In x l -> f i x = g i x) ->
  forall i, for_enumerate f i l = for_enumerate g i l.
Proof.
  induction l as [|x rest IH]; intros Hfg i; simpl; [reflexivity|].
  rewrite (Hfg i x) by (left; reflexivity).
  f_equal. apply IH. intros j y Hy. apply Hfg. right; exact Hy.
Qed.

Lemma for_enumerate_commas {A} (pad : pystr) (g : A -> pystr) (n : nat) (l : list A) :
  forall i, (i + length l = n)%nat ->
  for_enumerate
    (fun i x => pad ++ g x ++ (if Z.of_nat i <? Z.of_nat n - 1 then py "," else [])) i l
  = map (fun p => pad ++ p) (with_commas (map g l)).
Proof.
  induction l as [|x rest IH]; intros i Hn; [reflexivity|].
  cbn [for_enumerate map with_commas].
  destruct rest as [|y rest'].
  - cbn in *. replace (Z.of_nat i <? Z.of_nat n - 1) with false.
    + rewrite List.app_nil_r. reflexivity.
    + symmetry. apply Z.ltb_ge. lia.
  - replace (Z.of_nat i <? Z.of_nat n - 1) with true.
    + cbn [map]. f_equal. apply IH. cbn in *. lia.
    + symmetry. apply Z.ltb_lt. cbn in Hn. lia.
Qed.

Section FormatterFacts.

Context {F : PyFloat}.
Variables (indent max_line_length : Z).

(** The dict branch, in the words of the specification. *)
Lemma format_value_dict (items : list (pystr * value)) (ci : Z) :
  format_value indent max_line_length (VDict items) ci
  = match items with
    | [] => py "{}"
    | _ => one_per_line (py "{") (py "}") indent ci
             (map (dict_entry indent max_line_length ci) items)
    end.
Proof.
  destruct items as [|kv items']; [reflexivity|].
  set (items := kv :: items').
  change (format_value indent max_line_length (VDict items) ci)
    with (str_join NL
            ([py "{"]
             ++ for_enumerate
                  (fun i kv =>
                     dict_line indent max_line_length (length items) ci i (fst kv) (snd kv)
                       (format_value indent max_line_length (snd kv) (ci + indent)))
                  0%nat items
             ++ [str_mul (py " ") ci ++ py "}"])).
  unfold one_per_line. do 3 f_equal.
  rewrite <- (for_enumerate_commas (str_mul (py " ") (ci + indent))
                (dict_entry indent max_line_length ci) (length items) items 0%nat eq_refl).
  apply for_enumerate_ext. intros i x _.
  unfold dict_line, dict_entry, dict_entry_value.
  rewrite <- !List.app_assoc. reflexivity.
Qed.

(** The list branch, in the words of the specification. *)
Lemma format_value_list (l : list value) (ci : Z) :
  format_value indent max_line_length (VList l) ci
  = match l with
    | [] => py "[]"
    | _ =>
        if all_simple l && (len (json_dumps false (VList l)) <=? max_line_length)
        then json_dumps false (VList l)
        else one_per_line (py "[") (py "]") indent ci
               (map (fun x => format_value indent max_line_length x (ci + indent)) l)
    end.
Proof.
  destruct l as [|x l']; [reflexivity|].
  set (l := x :: l').
  change (format_value indent max_line_length (VList l) ci)
    with (if all_simple l && (len (json_dumps false (VList l)) <=? max_line_length)
          then json_dumps false (VList l)
          else str_join NL
            ([py "["]
             ++ for_enumerate
                  (fun i item =>
                     list_line indent (length l) ci i (format_value indent max_line_length item (ci + indent)))
                  0%nat l
             ++ [str_mul (py " ") ci ++ py "]"])).
  destruct (all_simple l && _); [reflexivity|].
  unfold one_per_line. do 3 f_equal.
  rewrite <- (for_enumerate_commas (str_mul (py " ") (ci + indent))
                (fun x => format_value indent max_line_length x (ci + indent)) (length l) l 0%nat eq_refl).
  reflexivity.
Qed.

Lemma format_value_simple (v : value) (ci : Z) :
  is_simple v = true -> format_value indent max_line_length v ci = json_dumps false v.
Proof. destruct v; simpl; intros H; try reflexivity; discriminate. Qed.

End FormatterFacts.

Lemma len_compact_nil {F : PyFloat} : len (json_dumps false (VList [])) = 2.
Proof. reflexivity. Qed.

Lemma all_simple_map_format {F : PyFloat} (indent max_line_length : Z) (l : list value) (ci : Z) :
  all_simple l = true ->
  map (fun x => format_value indent max_line_length x ci) l = map (json_dumps false) l.
Proof.
  unfold all_simple. intros H. apply map_ext_in. intros x Hx.
  apply format_value_simple. rewrite forallb_forall in H. apply H, Hx.
Qed.

(** C4. With [max_line_length = 80], a top-level list of scalars whose
    compact rendering is exactly 80 characters long is returned as that
    compact line; one whose compact rendering is 81 characters long is
    expanded: the opening bracket, one element per line at the indent with
    a comma after all but the last, the closing bracket at indent 0. *)
Theorem C4_compact_array_threshold {F : PyFloat} (indent : Z) (l : list value) :
  all_simple l = true ->
  (len (json_dumps false (VList l)) = 80 ->
   format_json_prettier (VList l) indent 80 = json_dumps false (VList l))
  /\ (len (json_dumps false (VList l)) = 81 ->
      format_json_prettier (VList l) indent 80
      = one_per_line (py "[") (py "]") indent 0 (map (json_dumps false) l)).
Proof.
  intros Hs. unfold format_json_prettier. rewrite format_value_list.
  destruct l as [|x l'].
  - split; intros H; rewrite len_compact_nil in H; discriminate.
  - rewrite Hs. split; intros H; rewrite H; cbn [andb Z.leb Z.compare Pos.compare Pos.compare_cont].
    + reflexivity.
    + rewrite (all_simple_map_format _ _ _ _ Hs). reflexivity.
Qed.

Lemma C4_compact_array_threshold_witness :
  format_json_prettier (F := repr_floats) (VList array_of_80) 2 80
    = json_dumps false (VList array_of_80)
  /\ format_json_prettier (F := repr_floats) (VList array_of_81) 2 80
    = one_per_line (py "[") (py "]") 2 0 (map (json_dumps false) array_of_81).
Proof.
  split.
  - apply (C4_compact_array_threshold (F := repr_floats) 2 array_of_80); reflexivity.
  - apply (C4_compact_array_threshold (F := repr_floats) 2 array_of_81); reflexivity.
Defined.

(** C5. [format_json_prettier({"a": [1, 2, 3]})] with [indent = 2] and
    [max_line_length = 80] is the three lines: an opening brace, the key
    [a] with the array inline at two spaces, a closing brace. *)
Theorem C5_key_aware_inline_example {F : PyFloat} :
  format_json_prettier (VDict [(py "a", VList [VInt 1; VInt 2; VInt 3])]) 2 80
  = str_join NL [py "{"; py "  " ++ [DQUOTE] ++ py "a" ++ [DQUOTE] ++ py ": [1, 2, 3]"; py "}"].
Proof. vm_compute. reflexivity. Qed.

Lemma all_simple_false_cons {F : PyFloat} (l : list value) :
  all_simple l = false -> exists x l', l = x :: l'.
Proof. destruct l as [|x l']; [discriminate|]. intros _. eauto. Qed.

(** C6. In a dict, a value that is a list with a member that is not a
    scalar is printed in the expanded form, one member per line, whatever
    [max_line_length] is: the dict is laid out one entry per line, and the
    entry of such a list is its key followed by the expanded list. *)
Theorem C6_nested_expansion {F : PyFloat} (indent max_line_length ci : Z)
    (items : list (pystr * value)) (k : pystr) (l : list value) :
  In (k, VList l) items ->
  all_simple l = false ->
  format_value indent max_line_length (VDict items) ci
  = one_per_line (py "{") (py "}") indent ci (map (dict_entry indent max_line_length ci) items)
  /\ dict_entry indent max_line_length ci (k, VList l)
     = json_dumps true (VStr k) ++ py ": "
       ++ one_per_line (py "[") (py "]") indent (ci + indent)
            (map (fun x => format_value indent max_line_length x (ci + indent + indent)) l).
Proof.
  intros Hin Hns. split.
  - rewrite format_value_dict. destruct items; [destruct Hin | reflexivity].
  - unfold dict_entry, dict_entry_value, inline_simple_array. cbn [fst snd].
    rewrite Hns, format_value_list.
    destruct (all_simple_false_cons l Hns) as (x & l' & ->).
    rewrite Hns. reflexivity.
Qed.

Lemma C6_nested_expansion_witness :
  dict_entry (F := repr_floats) 2 80 0 (py "rows", VList array_of_mappings)
  = json_dumps true (VStr (py "rows")) ++ py ": "
    ++ one_per_line (py "[") (py "]") 2 2
         (map (fun x => format_value 2 80 x 4) array_of_mappings).
Proof.
  apply (C6_nested_expansion (F := repr_floats) 2 80 0
           [(py "n", VInt 1); (py "rows", VList array_of_mappings)] (py "rows") array_of_mappings).
  - right; left; reflexivity.
  - reflexivity.
Defined.

(** C7. The entries of a dict are printed in the order of its items
    (the insertion order), each behind its own key; nothing sorts them:
    with keys [b] then [a], [b] is printed first. *)
Theorem C7_key_order_preserved {F : PyFloat} (indent max_line_length ci : Z)
    (items : list (pystr * value)) :
  (exists rendered : list pystr,
     length rendered = length items
     /\ format_value indent max_line_length (VDict items) ci
        = match items with
          | [] => py "{}"
          | _ => one_per_line (py "{") (py "}") indent ci
                   (map (fun kr => json_dumps true (VStr (fst kr)) ++ py ": " ++ snd kr)
                      (combine (map fst items) rendered))
          end)
  /\ format_json_prettier (VDict [(py "b", VInt 1); (py "a", VInt 2)]) 2 80
     = str_join NL [py "{"; py "  " ++ [DQUOTE] ++ py "b" ++ [DQUOTE] ++ py ": 1,";
                    py "  " ++ [DQUOTE] ++ py "a" ++ [DQUOTE] ++ py ": 2"; py "}"].
Proof.
  split; [|vm_compute; reflexivity].
  exists (map (fun kv => dict_entry_value indent max_line_length ci (fst kv) (snd kv)) items).
  split; [apply length_map|].
  rewrite format_value_dict. destruct items as [|kv items']; [reflexivity|].
  f_equal. generalize (kv :: items'). intros l.
  induction l as [|x l IH]; [reflexivity|]. cbn [map combine fst snd]. f_equal. exact IH.
Qed.

Lemma format_value_compact_list {F : PyFloat} (indent max_line_length ci : Z) (l : list value) :
  all_simple l = true ->
  len (json_dumps false (VList l)) <= max_line_length ->
  format_value indent max_line_length (VList l) ci = json_dumps false (VList l).
Proof.
  intros Hs Hlen. rewrite format_value_list. destruct l as [|x l']; [reflexivity|].
  rewrite Hs. apply Z.leb_le in Hlen. rewrite Hlen. reflexivity.
Qed.












Lemma dict_entry_value_simple_list {F : PyFloat} (indent max_line_length ci : Z)
    (k : pystr) (l : list value) :
  all_simple l = true ->
  len (json_dumps false (VList l)) <= max_line_length ->
  dict_entry_value indent max_line_length ci k (VList l) = json_dumps false (VList l).
Proof.
  intros Hs Hlen. unfold dict_entry_value, inline_simple_array.
  rewrite Hs, (format_value_compact_list _ _ _ _ Hs Hlen).
  destruct (_ <=? _); reflexivity.
Qed.

(** C1. On [{"a": [x]}] where [x] is a string of 71 characters, the
    compact rendering of the array is 75 characters long, above the
    budget [80 - 0 - 2 - 1 - 5 = 72] (and above the [80 - 0 - 1 - 5 = 74]
    that line 27 computes), and the array is printed compact all the same,
    on a line of 82 characters: the recursive call had already returned
    the compact rendering. *)
Theorem C1_key_budget_not_enforced {F : PyFloat} :
  len (json_dumps false (VList array_of_75)) = 75
  /\ (75 <=? 80 - 0 - 2 - len (py "a") - 5) = false
  /\ (75 <=? 80 - 0 - len (py "a") - 5) = false
  /\ dict_entry_value 2 80 0 (py "a") (VList array_of_75)
     = json_dumps false (VList array_of_75)
  /\ format_json_prettier (VDict [(py "a", VList array_of_75)]) 2 80
     = str_join NL
         [py "{";
          py "  " ++ [DQUOTE] ++ py "a" ++ [DQUOTE] ++ py ": "
          ++ json_dumps false (VList array_of_75);
          py "}"]
  /\ len (py "  " ++ [DQUOTE] ++ py "a" ++ [DQUOTE] ++ py ": "
          ++ json_dumps false (VList array_of_75)) = 82.
Proof. repeat split; vm_compute; reflexivity. Qed.

(** ** Recursion depth *)

(** Induction over values, with the hypothesis for every member of a
    container. *)
Lemma value_ind' {F : PyFloat} (P : value -> Prop) :
  P VNone ->
  (forall b, P (VBool b)) ->
  (forall z, P (VInt z)) ->
  (forall f, P (VFloat f)) ->
  (forall s, P (VStr s)) ->
  (forall l, Forall P l -> P (VList l)) ->
  (forall items, Forall (fun kv => P (snd kv)) items -> P (VDict items)) ->
  forall v, P v.
Proof.
  intros HN HB HI HF HS HL HD.
  fix IH 1. intros [ | b | z | f | s | l | items ].
  - exact HN.
  - apply HB.
  - apply HI.
  - apply HF.
  - apply HS.
  - apply HL. induction l as [|x l IHl]; constructor; [apply IH | exact IHl].
  - apply HD. induction items as [|[k x] items IHl]; constructor; [apply IH | exact IHl].
Qed.

Lemma fold_max_ge {A} (f : A -> nat) (l : list A) (x : A) :
  In x l -> (f x <= fold_right Nat.max 0 (map f l))%nat.
Proof.
  induction l as [|y rest IH]; intros Hin; [destruct Hin|].
  cbn [map fold_right]. destruct Hin as [->|Hin]; [lia|]. specialize (IH Hin). lia.
Qed.



Section Recursion.

Context {F : PyFloat}.
Variables (indent max_line_length : Z).

Lemma call_depth_pos (v : value) : (1 <= call_depth max_line_length v)%nat.
Proof.
  destruct v as [ | | | | | [|x l] | items]; cbn; try lia.
  destruct (_ && _); lia.
Qed.


End Recursion.

(** ** Reading the formatted text back *)

(** *** Hexadecimal escapes *)

Lemma hexval_hexdigit (d : N) : (d < 16)%N -> hexval (hexdigit d) = Some d.
Proof.
  intros H. unfold hexval, hexdigit, is_digit.
  destruct (N.ltb_spec d 10).
  - replace ((48 <=? 48 + d)%N && (48 + d <=? 57)%N) with true.
    + f_equal. lia.
    + symmetry. apply andb_true_intro. split; apply N.leb_le; lia.
  - replace ((48 <=? 87 + d)%N && (87 + d <=? 57)%N) with false.
    + replace ((97 <=? 87 + d)%N && (87 + d <=? 102)%N) with true.
      * f_equal. lia.
      * symmetry. apply andb_true_intro. split; apply N.leb_le; lia.
    + symmetry. apply andb_false_intro2. apply N.leb_gt. lia.
Qed.

Lemma hex4_digits (n : N) :
  (n < 65536)%N ->
  (4096 * (n / 4096 mod 16) + 256 * (n / 256 mod 16) + 16 * (n / 16 mod 16) + n mod 16 = n)%N.
Proof.
  intros H.
  pose proof (N.div_mod n 16 ltac:(lia)) as H1.
  pose proof (N.div_mod (n / 16) 16 ltac:(lia)) as H2.
  pose proof (N.div_mod (n / 16 / 16) 16 ltac:(lia)) as H3.
  rewrite !N.Div0.div_div in H2, H3. rewrite N.Div0.div_div in H3.
  change (16 * 16)%N with 256%N in *. change (256 * 16)%N with 4096%N in *.
  assert (n / 4096 < 16)%N as H4 by (apply N.Div0.div_lt_upper_bound; lia).
  rewrite (N.mod_small (n / 4096) 16 H4). lia.
Qed.

Lemma decode_hex4 (n : N) :
  (n < 65536)%N ->
  decode_uXXXX (hexdigit (n / 4096 mod 16)) (hexdigit (n / 256 mod 16))
    (hexdigit (n / 16 mod 16)) (hexdigit (n mod 16)) = Some n.
Proof.
  intros H. unfold decode_uXXXX.
  rewrite !hexval_hexdigit by (apply N.mod_lt; lia).
  f_equal. apply hex4_digits, H.
Qed.

(** *** Surrogate pairs *)

Lemma lor_shiftl_low (a b k : N) :
  (b < 2 ^ k)%N -> N.lor (N.shiftl a k) b = (a * 2 ^ k + b)%N.
Proof.
  intros Hb.
  assert (N.land (N.shiftl a k) b = 0%N) as Hland.
  { apply N.bits_inj_0. intros i. rewrite N.land_spec.
    destruct (N.lt_ge_cases i k) as [Hi|Hi].
    - rewrite N.shiftl_spec_low by exact Hi. reflexivity.
    - rewrite <- (N.mod_small b (2 ^ k) Hb).
      rewrite N.mod_pow2_bits_high by exact Hi. apply andb_false_r. }
  rewrite <- N.lxor_lor by exact Hland.
  rewrite <- N.add_nocarry_lxor by exact Hland.
  rewrite N.shiftl_mul_pow2. reflexivity.
Qed.

Lemma high_half (n : N) :
  N.lor 55296 (N.land (N.shiftr n 10) 1023) = (55296 + (n / 1024) mod 1024)%N.
Proof.
  change 1023%N with (N.ones 10). rewrite N.land_ones, N.shiftr_div_pow2.
  change 55296%N with (N.shiftl 54 10) at 1.
  rewrite lor_shiftl_low by (apply N.mod_lt; discriminate). reflexivity.
Qed.

Lemma low_half (n : N) :
  N.lor 56320 (N.land n 1023) = (56320 + n mod 1024)%N.
Proof.
  change 1023%N with (N.ones 10). rewrite N.land_ones.
  change 56320%N with (N.shiftl 55 10) at 1.
  rewrite lor_shiftl_low by (apply N.mod_lt; discriminate). reflexivity.
Qed.

Lemma join_halves (c : N) :
  (65536 <= c)%N -> (c <= 1114111)%N ->
  (65536 + N.lor (N.shiftl (55296 + ((c - 65536) / 1024) mod 1024 - 55296) 10)
             (56320 + (c - 65536) mod 1024 - 56320))%N = c.
Proof.
  intros Hlo Hhi.
  rewrite (N.add_comm 55296), (N.add_comm 56320), !N.add_sub.
  rewrite lor_shiftl_low by (apply N.mod_lt; discriminate).
  assert ((c - 65536) / 1024 < 1024)%N as H by (apply N.Div0.div_lt_upper_bound; lia).
  rewrite (N.mod_small _ _ H).
  pose proof (N.div_mod (c - 65536) 1024 ltac:(lia)) as Hd.
  change (2 ^ 10)%N with 1024%N. lia.
Qed.

(** *** [scanstring] on one escape *)

Lemma scanstring_u_single (h1 h2 h3 h4 uni : N) (r2 : pystr) :
  decode_uXXXX h1 h2 h3 h4 = Some uni ->
  is_high_surrogate uni && starts_u r2 = false ->
  scanstring (92 :: 117 :: h1 :: h2 :: h3 :: h4 :: r2)%N = cons_char uni (scanstring r2).
Proof.
  intros Hd Hc. cbn [scanstring N.eqb Pos.eqb]. rewrite Hd.
  destruct r2 as [|b [|u [|g1 [|g2 [|g3 [|g4 r3]]]]]]; try reflexivity;
    cbn [starts_u] in Hc; rewrite andb_assoc in Hc; rewrite Hc; reflexivity.
Qed.

Lemma scanstring_u_unpaired (h1 h2 h3 h4 g1 g2 g3 g4 uni uni2 : N) (r3 : pystr) :
  decode_uXXXX h1 h2 h3 h4 = Some uni ->
  decode_uXXXX g1 g2 g3 g4 = Some uni2 ->
  is_high_surrogate uni && is_low_surrogate uni2 = false ->
  scanstring (92 :: 117 :: h1 :: h2 :: h3 :: h4 :: 92 :: 117 :: g1 :: g2 :: g3 :: g4 :: r3)%N
  = cons_char uni (scanstring (92 :: 117 :: g1 :: g2 :: g3 :: g4 :: r3)%N).
Proof.
  intros Hd Hd2 Hc.
  remember (scanstring (92 :: 117 :: g1 :: g2 :: g3 :: g4 :: r3)%N) as tail eqn:Et.
  cbn [scanstring N.eqb Pos.eqb]. rewrite Hd, Hd2.
  cbn [scanstring N.eqb Pos.eqb] in Et. rewrite Hd2 in Et. rewrite <- Et.
  rewrite !andb_true_r.
  destruct (is_high_surrogate uni); [|reflexivity].
  cbn [andb] in Hc. rewrite Hc. reflexivity.
Qed.

Lemma scanstring_u_pair (h1 h2 h3 h4 g1 g2 g3 g4 uni uni2 : N) (r3 : pystr) :
  decode_uXXXX h1 h2 h3 h4 = Some uni ->
  decode_uXXXX g1 g2 g3 g4 = Some uni2 ->
  is_high_surrogate uni = true -> is_low_surrogate uni2 = true ->
  scanstring (92 :: 117 :: h1 :: h2 :: h3 :: h4 :: 92 :: 117 :: g1 :: g2 :: g3 :: g4 :: r3)%N
  = cons_char (65536 + N.lor (N.shiftl (uni - 55296) 10) (uni2 - 56320))%N (scanstring r3).
Proof.
  intros Hd Hd2 Hh Hl. cbn [scanstring N.eqb Pos.eqb]. rewrite Hd, Hd2, Hh, Hl. reflexivity.
Qed.

Lemma scanstring_literal (c : N) (r : pystr) :
  c <> 34%N -> c <> 92%N -> (32 <= c)%N ->
  scanstring (c :: r) = cons_char c (scanstring r).
Proof.
  intros H1 H2 H3. cbn [scanstring].
  destruct (N.eqb_spec c 34); [contradiction|].
  destruct (N.eqb_spec c 92); [contradiction|].
  destruct (N.ltb_spec c 32); [lia|reflexivity].
Qed.

Lemma u_escape_app (n : N) (r : pystr) :
  u_escape n ++ r
  = (92 :: 117 :: hexdigit (n / 4096 mod 16) :: hexdigit (n / 256 mod 16)
       :: hexdigit (n / 16 mod 16) :: hexdigit (n mod 16) :: r)%N.
Proof. reflexivity. Qed.

Lemma scanstring_ESCAPE_DCT (c : N) (e r : pystr) :
  ESCAPE_DCT c = Some e -> scanstring (e ++ r) = cons_char c (scanstring r).
Proof.
  unfold ESCAPE_DCT.
  repeat match goal with
         | |- context [(c =? ?b)%N] => destruct (N.eqb_spec c b); [subst c; intros [= <-]; reflexivity|]
         end.
  destruct (N.ltb_spec c 32) as [Hc|Hc]; [|discriminate].
  intros [= <-]. rewrite u_escape_app.
  apply scanstring_u_single.
  - apply decode_hex4. lia.
  - unfold is_high_surrogate. replace (55296 <=? c)%N with false; [reflexivity|].
    symmetry. apply N.leb_gt. lia.
Qed.

Lemma ESCAPE_DCT_None (c : N) :
  ESCAPE_DCT c = None -> c <> 34%N /\ c <> 92%N /\ (32 <= c)%N.
Proof.
  unfold ESCAPE_DCT.
  repeat match goal with
         | |- context [(c =? ?b)%N] => destruct (N.eqb_spec c b); [discriminate|]
         end.
  destruct (N.ltb_spec c 32); [discriminate|]. intros _. repeat split; assumption.
Qed.

(** What [ensure_ascii=False] writes reads back as the same string. *)
Lemma scanstring_encode_basestring (s rest : pystr) :
  scanstring (flat_map escape_char s ++ DQUOTE :: rest) = Some (s, rest).
Proof.
  induction s as [|c s IH]; [reflexivity|].
  cbn [flat_map]. rewrite <- List.app_assoc.
  unfold escape_char at 1. destruct (ESCAPE_DCT c) as [e|] eqn:He.
  - rewrite (scanstring_ESCAPE_DCT _ _ _ He), IH. reflexivity.
  - apply ESCAPE_DCT_None in He as (H1 & H2 & H3).
    cbn [List.app]. rewrite (scanstring_literal _ _ H1 H2 H3), IH. reflexivity.
Qed.

Lemma ESCAPE_DCT_shape (d : N) (e : pystr) :
  ESCAPE_DCT d = Some e ->
  (e = u_escape d /\ (d < 32)%N) \/ (forall r, starts_u (e ++ r) = false).
Proof.
  unfold ESCAPE_DCT.
  repeat match goal with
         | |- context [(d =? ?b)%N] =>
             destruct (N.eqb_spec d b); [intros [= <-]; right; reflexivity|]
         end.
  destruct (N.ltb_spec d 32) as [Hd|Hd]; [|discriminate].
  intros [= <-]. left. split; [reflexivity|exact Hd].
Qed.

Lemma is_low_surrogate_false_lt (n : N) : (n < 56320)%N -> is_low_surrogate n = false.
Proof.
  intros H. unfold is_low_surrogate. replace (56320 <=? n)%N with false; [reflexivity|].
  symmetry. apply N.leb_gt, H.
Qed.

Lemma is_low_surrogate_false_gt (n : N) : (57343 < n)%N -> is_low_surrogate n = false.
Proof.
  intros H. unfold is_low_surrogate. replace (n <=? 57343)%N with false; [apply andb_false_r|].
  symmetry. apply N.leb_gt, H.
Qed.

Lemma is_high_surrogate_false_lt (n : N) : (n < 55296)%N -> is_high_surrogate n = false.
Proof.
  intros H. unfold is_high_surrogate. replace (55296 <=? n)%N with false; [reflexivity|].
  symmetry. apply N.leb_gt, H.
Qed.

Lemma escape_char_ascii_shape (d : N) :
  (exists n t, escape_char_ascii d = u_escape n ++ t /\ (n < 65536)%N
               /\ is_low_surrogate n = is_low_surrogate d)
  \/ (forall r, starts_u (escape_char_ascii d ++ r) = false).
Proof.
  unfold escape_char_ascii. destruct (ESCAPE_DCT d) as [e|] eqn:He.
  - destruct (ESCAPE_DCT_shape _ _ He) as [[-> Hd]|Hs]; [left|right; exact Hs].
    exists d, []. rewrite List.app_nil_r. repeat split; lia.
  - apply ESCAPE_DCT_None in He as (H1 & H2 & H3).
    destruct ((32 <=? d)%N && (d <=? 126)%N).
    + right. intros r. cbn [List.app starts_u].
      destruct r; [reflexivity|].
      destruct (N.eqb_spec d 92); [contradiction|reflexivity].
    + left. destruct (N.ltb_spec d 65536) as [Hd|Hd].
      * exists d, []. rewrite List.app_nil_r. repeat split. exact Hd.
      * eexists _, _. split; [reflexivity|]. rewrite high_half.
        pose proof (N.mod_lt ((d - 65536) / 1024) 1024 ltac:(discriminate)) as Hm.
        revert Hm. generalize (((d - 65536) / 1024) mod 1024)%N. intros hi Hm.
        split; [lia|].
        rewrite is_low_surrogate_false_lt by lia.
        rewrite is_low_surrogate_false_gt by lia. reflexivity.
Qed.

Lemma scanstring_escape_char_ascii (c : N) (tail : pystr) :
  (c <= 1114111)%N ->
  (is_high_surrogate c = true -> unpairable tail) ->
  scanstring (escape_char_ascii c ++ tail) = cons_char c (scanstring tail).
Proof.
  intros Hc Htail. unfold escape_char_ascii.
  destruct (ESCAPE_DCT c) as [e|] eqn:He; [apply (scanstring_ESCAPE_DCT _ _ _ He)|].
  apply ESCAPE_DCT_None in He as (H1 & H2 & H3).
  destruct ((32 <=? c)%N && (c <=? 126)%N); [apply scanstring_literal; assumption|].
  destruct (N.ltb_spec c 65536) as [Hlt|Hge].
  - rewrite u_escape_app.
    destruct (is_high_surrogate c) eqn:Hh.
    + destruct (Htail eq_refl) as [Hs|(n & t & -> & Hn & Hl)].
      * apply scanstring_u_single; [apply decode_hex4, Hlt|].
        rewrite Hs. apply andb_false_r.
      * rewrite u_escape_app.
        apply (scanstring_u_unpaired _ _ _ _ _ _ _ _ c n);
          [apply decode_hex4, Hlt | apply decode_hex4, Hn|].
        rewrite Hl. apply andb_false_r.
    + apply scanstring_u_single; [apply decode_hex4, Hlt|]. rewrite Hh. reflexivity.
  - rewrite high_half, low_half, <- List.app_assoc, !u_escape_app.
    pose proof (N.mod_lt ((c - 65536) / 1024) 1024 ltac:(discriminate)) as Hhi.
    pose proof (N.mod_lt (c - 65536) 1024 ltac:(discriminate)) as Hlo.
    rewrite (scanstring_u_pair _ _ _ _ _ _ _ _
               (55296 + ((c - 65536) / 1024) mod 1024)%N (56320 + (c - 65536) mod 1024)%N).
    + rewrite (join_halves c Hge Hc). reflexivity.
    + apply decode_hex4. revert Hhi. generalize (((c - 65536) / 1024) mod 1024)%N. lia.
    + apply decode_hex4. revert Hlo. generalize ((c - 65536) mod 1024)%N. lia.
    + revert Hhi. generalize (((c - 65536) / 1024) mod 1024)%N. intros hi Hhi.
      unfold is_high_surrogate. apply andb_true_intro. split; apply N.leb_le; lia.
    + revert Hlo. generalize ((c - 65536) mod 1024)%N. intros lo Hlo.
      unfold is_low_surrogate. apply andb_true_intro. split; apply N.leb_le; lia.
Qed.

(** What [ensure_ascii=True] writes reads back as the same string, unless
    the string holds a high surrogate just before a low one. *)
Lemma scanstring_encode_basestring_ascii (s rest : pystr) :
  is_str s = true -> pair_free s = true ->
  scanstring (flat_map escape_char_ascii s ++ DQUOTE :: rest) = Some (s, rest).
Proof.
  induction s as [|c s IH]; intros Hs Hp; [reflexivity|].
  cbn [flat_map]. rewrite <- List.app_assoc.
  cbn [is_str forallb] in Hs. apply andb_prop in Hs as [Hc Hs]. apply N.leb_le in Hc.
  rewrite scanstring_escape_char_ascii.
  - rewrite IH; [reflexivity | exact Hs |].
    cbn [pair_free] in Hp. destruct s; [reflexivity|].
    apply andb_prop in Hp as [_ Hp]. exact Hp.
  - exact Hc.
  - intros Hh. destruct s as [|d s']; [left; destruct rest; reflexivity|].
    cbn [pair_free] in Hp. apply andb_prop in Hp as [Hp _].
    rewrite Hh in Hp. cbn [andb] in Hp. apply negb_true_iff in Hp.
    cbn [flat_map]. rewrite <- List.app_assoc.
    destruct (escape_char_ascii_shape d) as [(n & t & -> & Hn & Hl)|Hns].
    + right. exists n, (t ++ flat_map escape_char_ascii s' ++ DQUOTE :: rest).
      rewrite <- List.app_assoc. repeat split; [exact Hn | congruence].
    + left. apply Hns.
Qed.

(** *** Number tokens *)

Lemma at_delimiter_no_number_char (rest : pystr) :
  at_delimiter rest = true -> no_number_char rest = true.
Proof.
  destruct rest as [|c r]; [reflexivity|]. cbn [at_delimiter no_number_char].
  unfold is_ws. intros H.
  repeat (apply orb_prop in H as [H|H]);
    apply N.eqb_eq in H; subst c; reflexivity.
Qed.

Lemma no_number_char_inv (c : N) (r : pystr) :
  no_number_char (c :: r) = true ->
  is_digit c = false /\ (c =? 45)%N = false /\ (c =? 43)%N = false
  /\ (c =? 46)%N = false /\ (c =? 101)%N = false /\ (c =? 69)%N = false.
Proof.
  cbn [no_number_char]. unfold is_number_char. intros H. apply negb_true_iff in H.
  repeat (apply orb_false_elim in H as [H ?]). repeat split; assumption.
Qed.

Lemma span_digits_app (a rest : pystr) :
  no_number_char rest = true ->
  span_digits (a ++ rest) = (fst (span_digits a), snd (span_digits a) ++ rest).
Proof.
  intros Hr. induction a as [|c a IH].
  - destruct rest as [|d r]; [reflexivity|].
    apply no_number_char_inv in Hr as (Hd & _). cbn [List.app span_digits]. rewrite Hd.
    reflexivity.
  - cbn [List.app span_digits]. destruct (is_digit c); [|reflexivity].
    rewrite IH. destruct (span_digits a). reflexivity.
Qed.

Lemma match_sign_app (signs : N -> bool) (a rest : pystr) :
  match rest with [] => True | c :: _ => signs c = false end ->
  match_sign signs (a ++ rest) = (fst (match_sign signs a), snd (match_sign signs a) ++ rest).
Proof.
  intros Hr. destruct a as [|c a].
  - destruct rest as [|d r]; [reflexivity|]. cbn [List.app match_sign]. rewrite Hr. reflexivity.
  - cbn [List.app match_sign]. destruct (signs c); reflexivity.
Qed.

Lemma match_integer_app (a rest : pystr) :
  no_number_char rest = true ->
  match_integer (a ++ rest)
  = match match_integer a with
    | Some (i, r) => Some (i, r ++ rest)
    | None => None
    end.
Proof.
  intros Hr. unfold match_integer.
  rewrite match_sign_app.
  2:{ destruct rest as [|d r]; [exact I|]. apply no_number_char_inv in Hr. tauto. }
  destruct (match_sign (fun c => (c =? 45)%N) a) as [sign s1]. cbn [fst snd].
  destruct s1 as [|c r].
  - destruct rest as [|d r']; [reflexivity|].
    apply no_number_char_inv in Hr as (Hd & _). cbn [List.app]. rewrite Hd.
    destruct (N.eqb_spec d 48) as [->|]; [discriminate|reflexivity].
  - cbn [List.app]. destruct (c =? 48)%N; [reflexivity|].
    destruct (is_digit c); [|reflexivity].
    rewrite span_digits_app by exact Hr. destruct (span_digits r). reflexivity.
Qed.

Lemma match_frac_app (a rest : pystr) :
  no_number_char rest = true ->
  match_frac (a ++ rest) = (fst (match_frac a), snd (match_frac a) ++ rest).
Proof.
  intros Hr. unfold match_frac. destruct a as [|c r].
  - destruct rest as [|d r']; [reflexivity|].
    apply no_number_char_inv in Hr as (_ & _ & _ & Hd & _). cbn [List.app]. rewrite Hd.
    reflexivity.
  - cbn [List.app]. destruct (c =? 46)%N; [|reflexivity].
    rewrite span_digits_app by exact Hr.
    destruct (span_digits r) as [[|d ds] r']; reflexivity.
Qed.

Lemma match_exp_app (a rest : pystr) :
  no_number_char rest = true ->
  match_exp (a ++ rest) = (fst (match_exp a), snd (match_exp a) ++ rest).
Proof.
  intros Hr. unfold match_exp. destruct a as [|c r].
  - destruct rest as [|d r']; [reflexivity|].
    apply no_number_char_inv in Hr as (_ & _ & _ & _ & H1 & H2). cbn [List.app].
    rewrite H1, H2. reflexivity.
  - cbn [List.app]. destruct ((c =? 101)%N || (c =? 69)%N); [|reflexivity].
    rewrite match_sign_app.
    2:{ destruct rest as [|d r']; [exact I|].
        apply no_number_char_inv in Hr as (_ & H1 & H2 & _). rewrite H1, H2. reflexivity. }
    destruct (match_sign _ r) as [sign r1]. cbn [fst snd].
    rewrite span_digits_app by exact Hr.
    destruct (span_digits r1) as [[|d ds] r2]; reflexivity.
Qed.

(** A token followed by a delimiter is matched as the token alone. *)
Lemma match_number_app (a rest : pystr) :
  no_number_char rest = true ->
  match_number (a ++ rest)
  = match match_number a with
    | Some (i, f, e, r) => Some (i, f, e, r ++ rest)
    | None => None
    end.
Proof.
  intros Hr. unfold match_number. rewrite match_integer_app by exact Hr.
  destruct (match_integer a) as [[i r]|]; [|reflexivity].
  rewrite match_frac_app by exact Hr. destruct (match_frac r) as [f r1]. cbn [fst snd].
  rewrite match_exp_app by exact Hr. destruct (match_exp r1) as [e r2]. reflexivity.
Qed.

Lemma span_digits_parts (s : pystr) : s = fst (span_digits s) ++ snd (span_digits s).
Proof.
  induction s as [|c s IH]; [reflexivity|]. cbn [span_digits].
  destruct (is_digit c); [|reflexivity].
  destruct (span_digits s) as [ds r]. cbn [fst snd] in *. cbn [List.app]. f_equal. exact IH.
Qed.

Lemma match_sign_parts (signs : N -> bool) (s : pystr) :
  s = fst (match_sign signs s) ++ snd (match_sign signs s).
Proof. destruct s as [|c s]; [reflexivity|]. cbn. destruct (signs c); reflexivity. Qed.

Lemma match_integer_parts (s i r : pystr) : match_integer s = Some (i, r) -> s = i ++ r.
Proof.
  unfold match_integer. pose proof (match_sign_parts (fun c => (c =? 45)%N) s) as Hs.
  destruct (match_sign _ s) as [sign s1]. cbn [fst snd] in Hs. subst s.
  destruct s1 as [|c r']; [discriminate|].
  destruct (c =? 48)%N.
  - intros [= <- <-]. rewrite <- List.app_assoc. reflexivity.
  - destruct (is_digit c); [|discriminate].
    pose proof (span_digits_parts r') as Hd. destruct (span_digits r') as [ds r2].
    cbn [fst snd] in Hd. intros [= <- <-]. rewrite <- List.app_assoc. cbn [List.app].
    rewrite <- Hd. reflexivity.
Qed.

Lemma match_frac_parts (s : pystr) : s = fst (match_frac s) ++ snd (match_frac s).
Proof.
  unfold match_frac. destruct s as [|c r]; [reflexivity|].
  destruct (c =? 46)%N; [|reflexivity].
  pose proof (span_digits_parts r) as Hd.
  destruct (span_digits r) as [[|d ds] r2]; [reflexivity|].
  cbn [fst snd List.app] in *. f_equal. exact Hd.
Qed.

Lemma match_exp_parts (s : pystr) : s = fst (match_exp s) ++ snd (match_exp s).
Proof.
  unfold match_exp. destruct s as [|c r]; [reflexivity|].
  destruct ((c =? 101)%N || (c =? 69)%N); [|reflexivity].
  pose proof (match_sign_parts (fun c => (c =? 45)%N || (c =? 43)%N) r) as Hs.
  destruct (match_sign _ r) as [sign r1]. cbn [fst snd] in Hs.
  pose proof (span_digits_parts r1) as Hd.
  destruct (span_digits r1) as [[|d ds] r2]; [reflexivity|].
  cbn [fst snd] in *. cbn [List.app]. f_equal. rewrite <- List.app_assoc, <- Hd. exact Hs.
Qed.

Lemma match_number_parts (s i f e r : pystr) :
  match_number s = Some (i, f, e, r) -> s = i ++ f ++ e ++ r.
Proof.
  unfold match_number. destruct (match_integer s) as [[i' r0]|] eqn:Hi; [|discriminate].
  apply match_integer_parts in Hi. subst s.
  pose proof (match_frac_parts r0) as Hf. destruct (match_frac r0) as [f' r1].
  pose proof (match_exp_parts r1) as He. destruct (match_exp r1) as [e' r2].
  cbn [fst snd] in *. intros [= <- <- <- <-]. rewrite <- He, <- Hf. reflexivity.
Qed.

(** *** Integers *)

Lemma span_digits_uint_str (d : uint) : span_digits (uint_str d) = (uint_str d, []).
Proof. induction d; cbn [uint_str span_digits]; try reflexivity; rewrite IHd; reflexivity. Qed.

Lemma uint_of_str_uint_str (d : uint) : uint_of_str (uint_str d) = d.
Proof. induction d; cbn; try reflexivity; rewrite IHd; reflexivity. Qed.

Lemma pos_to_uint_head (p : positive) :
  exists (c : N) (d' : uint),
    uint_str (Pos.to_uint p) = c :: uint_str d'
    /\ is_digit c = true /\ (c =? 48)%N = false /\ (c =? 45)%N = false.
Proof.
  pose proof (DecimalPos.Unsigned.of_to p) as Hof.
  pose proof (DecimalPos.Unsigned.to_of (Pos.to_uint p)) as Hto.
  rewrite Hof in Hto. cbn [N.to_uint] in Hto.
  remember (Pos.to_uint p) as d eqn:Ed. clear Ed.
  destruct (nzhead d) eqn:Hnz;
    [ exfalso; apply unorm_0 in Hnz; rewrite Hnz in Hto; subst d; discriminate
    | exfalso; apply (nzhead_nonzero _ _ Hnz)
    | .. ];
    rewrite (unorm_nzhead d) in Hto by (rewrite Hnz; discriminate);
    rewrite Hnz in Hto; subst d; eexists _, _; cbn [uint_str];
    (split; [reflexivity|]); repeat split.
Qed.

Lemma match_number_digits (c : N) (d' : uint) (sign : pystr) :
  is_digit c = true -> (c =? 48)%N = false -> (c =? 45)%N = false ->
  match_number (c :: uint_str d') = Some (c :: uint_str d', [], [], [])
  /\ match_number (45%N :: c :: uint_str d') = Some (45%N :: c :: uint_str d', [], [], []).
Proof.
  intros Hd H0 Hm. unfold match_number, match_integer.
  cbn [match_sign N.eqb Pos.eqb]. rewrite Hm, H0, Hd, span_digits_uint_str.
  split; reflexivity.
Qed.

Lemma match_number_int_repr (z : Z) :
  match_number (int_repr z) = Some (int_repr z, [], [], []).
Proof.
  unfold int_repr. destruct z as [|p|p]; cbn [Z.to_int]; [reflexivity| |];
    destruct (pos_to_uint_head p) as (c & d' & -> & Hd & H0 & Hm);
    apply (match_number_digits c d' []); assumption.
Qed.

Lemma int_of_str_int_repr (z : Z) : int_of_str (int_repr z) = z.
Proof.
  rewrite <- (DecimalZ.of_to z) at 2.
  unfold int_repr. destruct z as [|p|p]; cbn [Z.to_int]; [reflexivity| |].
  - destruct (pos_to_uint_head p) as (c & d' & Hs & Hd & H0 & Hm).
    unfold int_of_str. rewrite Hs, Hm, <- Hs, uint_of_str_uint_str. reflexivity.
  - unfold int_of_str. cbn [N.eqb Pos.eqb]. rewrite uint_of_str_uint_str. reflexivity.
Qed.

Lemma match_integer_head (s i r : pystr) :
  match_integer s = Some (i, r) ->
  exists c t, s = c :: t /\ (is_digit c || (c =? 45)%N) = true.
Proof.
  unfold match_integer. destruct s as [|c t]; [discriminate|].
  intros H. exists c, t. split; [reflexivity|].
  cbn [match_sign] in H. destruct (c =? 45)%N; [apply orb_true_r|].
  destruct (N.eqb_spec c 48) as [->|]; [reflexivity|].
  destruct (is_digit c); [reflexivity|discriminate].
Qed.

Lemma strip_prefix_head (p c : N) (ps r : pystr) :
  c <> p -> strip_prefix (p :: ps) (c :: r) = None.
Proof. intros H. cbn [strip_prefix]. destruct (N.eqb_spec c p); [contradiction|reflexivity]. Qed.

Section ScanScalars.

Context {F : PyFloat}.

(** At a digit or a minus sign the scanner goes by [NUMBER_RE]. *)
Lemma scan_once_number (fuel : nat) (c : N) (r : pystr) :
  (is_digit c || (c =? 45)%N) = true ->
  scan_once (S fuel) (c :: r)
  = match match_number (c :: r) with
    | Some (integer, frac, exp, r') =>
        match frac, exp with
        | [], [] => Some (VInt (int_of_str integer), r')
        | _, _ => Some (VFloat (float_of_str (integer ++ frac ++ exp)), r')
        end
    | None =>
        match strip_prefix (py "-Infinity") (c :: r) with
        | Some r' => Some (VFloat (float_of_str (py "-Infinity")), r')
        | None => None
        end
    end.
Proof.
  intros Hc.
  assert ((c < 58)%N) as Hlt.
  { apply orb_prop in Hc as [Hc|Hc].
    - unfold is_digit in Hc. apply andb_prop in Hc as [_ Hc]. apply N.leb_le in Hc. lia.
    - apply N.eqb_eq in Hc. lia. }
  cbn [scan_once].
  destruct (N.eqb_spec c 34) as [->|_]; [discriminate|].
  destruct (N.eqb_spec c 123); [lia|]. destruct (N.eqb_spec c 91); [lia|].
  change (py "null") with [110; 117; 108; 108]%N.
  change (py "true") with [116; 114; 117; 101]%N.
  change (py "false") with [102; 97; 108; 115; 101]%N.
  change (py "NaN") with [78; 97; 78]%N.
  change (py "Infinity") with [73; 110; 102; 105; 110; 105; 116; 121]%N.
  rewrite !strip_prefix_head by lia.
  reflexivity.
Qed.

Lemma scan_once_int (fuel : nat) (z : Z) (rest : pystr) :
  at_delimiter rest = true ->
  scan_once (S fuel) (int_repr z ++ rest) = Some (VInt z, rest).
Proof.
  intros Hr. pose proof (match_number_int_repr z) as Hm.
  pose proof Hm as Hh. unfold match_number in Hh.
  destruct (match_integer (int_repr z)) as [[i r]|] eqn:Hi; [|discriminate]. clear Hh.
  destruct (match_integer_head _ _ _ Hi) as (c & t & Hs & Hc).
  rewrite Hs in *. cbn [List.app]. rewrite (scan_once_number _ _ _ Hc).
  change (c :: t ++ rest) with ((c :: t) ++ rest).
  rewrite match_number_app by (apply at_delimiter_no_number_char, Hr).
  rewrite Hm, <- Hs, int_of_str_int_repr. reflexivity.
Qed.

Lemma scan_once_float (fuel : nat) (f : float) (rest : pystr) :
  float_token (float_str f) = true ->
  float_of_str (float_str f) = f ->
  at_delimiter rest = true ->
  scan_once (S fuel) (float_str f ++ rest) = Some (VFloat f, rest).
Proof.
  intros Ht Hf Hr. unfold float_token in Ht.
  destruct (match_number (float_str f)) as [[[[i fr] e] r]|] eqn:Hm; [|discriminate].
  destruct r; [|discriminate].
  pose proof (match_number_parts _ _ _ _ _ Hm) as Hparts. rewrite List.app_nil_r in Hparts.
  pose proof Hm as Hh. unfold match_number in Hh.
  destruct (match_integer (float_str f)) as [[i' r']|] eqn:Hi; [|discriminate]. clear Hh.
  destruct (match_integer_head _ _ _ Hi) as (c & t & Hs & Hc).
  rewrite Hs in Hm. rewrite Hs. cbn [List.app]. rewrite (scan_once_number _ _ _ Hc).
  change (c :: t ++ rest) with ((c :: t) ++ rest).
  rewrite match_number_app by (apply at_delimiter_no_number_char, Hr).
  rewrite Hm. rewrite <- Hparts, Hf.
  destruct fr, e; try reflexivity. discriminate.
Qed.

Lemma scan_once_string (fuel : nat) (s rest : pystr) :
  scan_once (S fuel) (encode_basestring s ++ rest) = Some (VStr s, rest).
Proof.
  unfold encode_basestring. cbn [List.app scan_once]. change (DQUOTE =? 34)%N with true.
  cbv iota. rewrite <- List.app_assoc. cbn [List.app].
  rewrite scanstring_encode_basestring. reflexivity.
Qed.

End ScanScalars.

(** *** Layout as a sequence of parts *)

Lemma str_join_cons (sep p : pystr) (l : list pystr) :
  l <> [] -> str_join sep (p :: l) = p ++ sep ++ str_join sep l.
Proof. destruct l; [contradiction|reflexivity]. Qed.

Lemma with_commas_nonempty (parts : list pystr) : parts <> [] -> with_commas parts <> [].
Proof. destruct parts as [|p [|q ps]]; [contradiction|discriminate|discriminate]. Qed.

Lemma lines_render (pad pad0 closing : pystr) (parts : list pystr) (rest : pystr) :
  parts <> [] ->
  str_join NL (map (fun p => pad ++ p) (with_commas parts) ++ [pad0 ++ closing]) ++ rest
  = pad ++ render_seq (NL ++ pad) (NL ++ pad0) closing parts rest.
Proof.
  induction parts as [|p ps IH]; [contradiction|]. intros _.
  destruct ps as [|q ps'].
  - cbn [with_commas map List.app str_join render_seq]. rewrite <- ?List.app_assoc. reflexivity.
  - change (with_commas (p :: q :: ps')) with ((p ++ py ",") :: with_commas (q :: ps')).
    cbn [map]. rewrite <- List.app_comm_cons.
    rewrite str_join_cons.
    2:{ intros H. apply app_eq_nil in H as [_ H]. discriminate. }
    cbn [render_seq]. rewrite <- ?List.app_assoc. rewrite IH by discriminate.
    rewrite <- ?List.app_assoc. reflexivity.
Qed.

Lemma one_per_line_render (opening closing : pystr) (indent ci : Z) (parts : list pystr)
    (rest : pystr) :
  parts <> [] ->
  one_per_line opening closing indent ci parts ++ rest
  = opening ++ NL ++ str_mul (py " ") (ci + indent)
    ++ render_seq (NL ++ str_mul (py " ") (ci + indent)) (NL ++ str_mul (py " ") ci)
         closing parts rest.
Proof.
  intros Hne. unfold one_per_line. cbn [List.app].
  rewrite str_join_cons.
  2:{ intros H. apply app_eq_nil in H as [_ H]. discriminate. }
  rewrite <- ?List.app_assoc. rewrite lines_render by exact Hne. reflexivity.
Qed.

Lemma compact_render (opening closing : pystr) (parts : list pystr) (rest : pystr) :
  parts <> [] ->
  (opening ++ str_join (py ", ") parts ++ closing) ++ rest
  = opening ++ render_seq (py " ") [] closing parts rest.
Proof.
  intros Hne. rewrite <- ?List.app_assoc. f_equal.
  induction parts as [|p ps IH]; [contradiction|].
  destruct ps as [|q ps'].
  - reflexivity.
  - rewrite str_join_cons by discriminate. cbn [render_seq].
    rewrite <- ?List.app_assoc. rewrite IH by discriminate. reflexivity.
Qed.

Lemma render_seq_cons (ac bc closing p q : pystr) (ps : list pystr) (rest : pystr) :
  render_seq ac bc closing (p :: q :: ps) rest
  = p ++ py "," ++ ac ++ render_seq ac bc closing (q :: ps) rest.
Proof. reflexivity. Qed.

Lemma length_render_seq (ac bc closing : pystr) (parts : list pystr) (rest : pystr) :
  (length rest <= length (render_seq ac bc closing parts rest))%nat.
Proof.
  induction parts as [|p ps IH].
  - cbn [render_seq]. rewrite !length_app. lia.
  - destruct ps as [|q ps'].
    + cbn [render_seq]. rewrite !length_app. lia.
    + rewrite render_seq_cons, !length_app. lia.
Qed.

(** *** Whitespace and first characters *)

Lemma skip_ws_app (ws s : pystr) : all_ws ws = true -> skip_ws (ws ++ s) = skip_ws s.
Proof.
  induction ws as [|c ws IH]; [reflexivity|]. cbn [all_ws forallb List.app skip_ws].
  intros H. apply andb_prop in H as [Hc Hw]. rewrite Hc. apply IH, Hw.
Qed.

Lemma all_ws_pad (n : Z) : all_ws (str_mul (py " ") n) = true.
Proof.
  unfold str_mul. induction (Z.to_nat n) as [|k IH]; [reflexivity|]. exact IH.
Qed.

Lemma all_ws_NL_pad (n : Z) : all_ws (NL ++ str_mul (py " ") n) = true.
Proof. apply (all_ws_pad n). Qed.

Lemma starts_value_skip_ws (s : pystr) : starts_value s = true -> skip_ws s = s.
Proof.
  destruct s as [|c r]; [discriminate|]. cbn [starts_value skip_ws].
  intros H. apply negb_true_iff in H. do 4 (apply orb_false_elim in H as [H _]).
  rewrite H. reflexivity.
Qed.

Lemma starts_value_app (s r : pystr) : starts_value s = true -> starts_value (s ++ r) = true.
Proof. destruct s; [discriminate|]. intros H; exact H. Qed.

Lemma starts_value_app_inv (s r : pystr) :
  s <> [] -> starts_value (s ++ r) = true -> starts_value s = true.
Proof. destruct s; [contradiction|]. intros _ H; exact H. Qed.

Lemma at_delimiter_close (ws : pystr) (c : N) (rest : pystr) :
  all_ws ws = true -> (c = 93 \/ c = 125 \/ c = 44)%N -> at_delimiter (ws ++ c :: rest) = true.
Proof.
  intros Hw Hc. destruct ws as [|w ws'].
  - cbn [List.app at_delimiter]. destruct Hc as [ -> | [ -> | -> ] ]; reflexivity.
  - cbn [all_ws forallb] in Hw. apply andb_prop in Hw as [Hw _].
    cbn [List.app at_delimiter]. rewrite Hw. reflexivity.
Qed.

Section ScanHead.

Context {F : PyFloat}.

Lemma scan_once_starts_value (fuel : nat) (s : pystr) (x : value * pystr) :
  scan_once fuel s = Some x -> starts_value s = true.
Proof.
  destruct fuel as [|fuel]; [discriminate|]. destruct s as [|c r]; [discriminate|].
  cbn [starts_value]. destruct (is_ws c || _ || _ || _ || _)%N eqn:Hc; [|reflexivity].
  intros H. exfalso. unfold is_ws in Hc.
  repeat (apply orb_prop in Hc as [Hc|Hc]); apply N.eqb_eq in Hc; subst c;
    vm_compute in H; discriminate.
Qed.

End ScanHead.

Lemma render_seq_head (ac bc closing p : pystr) (ps : list pystr) (rest : pystr) :
  exists t, render_seq ac bc closing (p :: ps) rest = p ++ t.
Proof. destruct ps; eexists; reflexivity. Qed.

Lemma starts_value_render_seq (ac bc closing p : pystr) (ps : list pystr) (rest : pystr) :
  (forall r, starts_value (p ++ r) = true) ->
  starts_value (render_seq ac bc closing (p :: ps) rest) = true.
Proof.
  intros H. destruct (render_seq_head ac bc closing p ps rest) as (t & ->). apply H.
Qed.

(** *** The loops of the decoder on a laid-out container *)

Section Loops.

Context {F : PyFloat}.
Variable scan : pystr -> option (value * pystr).

Lemma array_values_render (f : value -> pystr) (ac bc : pystr) :
  all_ws ac = true -> all_ws bc = true ->
  forall (l : list value) (rest : pystr) (n : nat),
    l <> [] ->
    (forall x, In x l -> forall r, starts_value (f x ++ r) = true) ->
    (forall x, In x l -> forall r,
        at_delimiter r = true -> (length (f x ++ r) <= n)%nat -> scan (f x ++ r) = Some (x, r)) ->
    (length (render_seq ac bc (py "]") (map f l) rest) <= n)%nat ->
    array_values scan n (render_seq ac bc (py "]") (map f l) rest) = Some (l, rest).
Proof.
  intros Hac Hbc. induction l as [|x l IH]; intros rest n Hne Hst Hscan Hlen; [contradiction|].
  destruct l as [|y l'].
  - cbn [map render_seq] in *.
    destruct n as [|n]; [rewrite !length_app in Hlen; cbn in Hlen; lia|].
    cbn [array_values].
    rewrite (Hscan x (or_introl eq_refl));
      [|apply at_delimiter_close; [exact Hbc | left; reflexivity] | exact Hlen].
    rewrite skip_ws_app by exact Hbc. reflexivity.
  - cbn [map] in *. rewrite render_seq_cons in *.
    destruct n as [|n]; [rewrite !length_app in Hlen; cbn in Hlen; lia|].
    cbn [array_values].
    rewrite (Hscan x (or_introl eq_refl)); [|reflexivity|exact Hlen].
    change (py ",") with [44%N] in *.
    cbn [List.app skip_ws is_ws N.eqb Pos.eqb orb].
    rewrite skip_ws_app by exact Hac.
    rewrite starts_value_skip_ws
      by (apply starts_value_render_seq; apply Hst; right; left; reflexivity).
    rewrite IH; [reflexivity | discriminate | | |].
    + intros z Hz. apply Hst. right; exact Hz.
    + intros z Hz r Hr Hl. apply Hscan; [right; exact Hz | exact Hr | lia].
    + rewrite !length_app in Hlen. cbn [length] in Hlen. lia.
Qed.

Lemma JSONArray_render (f : value -> pystr) (ws ac bc : pystr) (l : list value)
    (rest : pystr) (n : nat) :
  all_ws ws = true -> all_ws ac = true -> all_ws bc = true ->
  l <> [] ->
  (forall x, In x l -> forall r, starts_value (f x ++ r) = true) ->
  (forall x, In x l -> forall r,
      at_delimiter r = true -> (length (f x ++ r) <= n)%nat -> scan (f x ++ r) = Some (x, r)) ->
  (length (render_seq ac bc (py "]") (map f l) rest) <= n)%nat ->
  JSONArray scan n (ws ++ render_seq ac bc (py "]") (map f l) rest) = Some (VList l, rest).
Proof.
  intros Hws Hac Hbc Hne Hst Hscan Hlen. unfold JSONArray.
  rewrite skip_ws_app by exact Hws.
  pose proof (array_values_render f ac bc Hac Hbc l rest n Hne Hst Hscan Hlen) as Hloop.
  assert (starts_value (render_seq ac bc (py "]") (map f l) rest) = true) as Hsv.
  { destruct l as [|x l']; [contradiction|]. cbn [map].
    apply starts_value_render_seq, Hst. left; reflexivity. }
  rewrite (starts_value_skip_ws _ Hsv).
  destruct (render_seq ac bc (py "]") (map f l) rest) as [|c r]; [discriminate|].
  cbn [starts_value] in Hsv. apply negb_true_iff in Hsv.
  do 2 (apply orb_false_elim in Hsv as [Hsv _]). apply orb_false_elim in Hsv as [_ Hsv].
  rewrite Hsv, Hloop. reflexivity.
Qed.

Lemma object_pairs_render (g : pystr * value -> pystr) (ac bc : pystr) :
  all_ws ac = true -> all_ws bc = true ->
  forall (items : list (pystr * value)) (rest : pystr) (n : nat),
    items <> [] ->
    (forall kv, In kv items -> is_str (fst kv) = true /\ pair_free (fst kv) = true) ->
    (forall kv, In kv items -> forall r, starts_value (g kv ++ r) = true) ->
    (forall kv, In kv items -> forall r,
        at_delimiter r = true -> (length (g kv ++ r) <= n)%nat ->
        scan (g kv ++ r) = Some (snd kv, r)) ->
    (length (render_seq ac bc (py "}")
               (map (fun kv => encode_basestring_ascii (fst kv) ++ py ": " ++ g kv) items)
               rest) <= n)%nat ->
    object_pairs scan n
      (tl (render_seq ac bc (py "}")
             (map (fun kv => encode_basestring_ascii (fst kv) ++ py ": " ++ g kv) items) rest))
    = Some (items, rest).
Proof.
  intros Hac Hbc.
  induction items as [|[k v] items IH]; intros rest n Hne Hkeys Hst Hscan Hlen; [contradiction|].
  destruct (Hkeys (k, v) (or_introl eq_refl)) as [Hk1 Hk2]. cbn [fst] in Hk1, Hk2.
  pose proof (Hst (k, v) (or_introl eq_refl)) as Hst1.
  pose proof (Hscan (k, v) (or_introl eq_refl)) as Hscan1. cbn [snd] in Hscan1.
  destruct items as [|kv' items'].
  - cbn [map render_seq fst snd] in *. unfold encode_basestring_ascii in *.
    change (py ": ") with [58%N; 32%N] in *. change (py "}") with [125%N] in *.
    rewrite <- ?List.app_assoc in *. cbn [List.app tl] in *.
    destruct n as [|n]; [cbn [length] in Hlen; lia|].
    cbn [object_pairs]. rewrite <- List.app_assoc. cbn [List.app].
    rewrite (scanstring_encode_basestring_ascii _ _ Hk1 Hk2).
    cbn [skip_ws is_ws N.eqb Pos.eqb orb].
    rewrite (starts_value_skip_ws _ (Hst1 _)).
    rewrite Hscan1;
      [|apply at_delimiter_close; [exact Hbc | right; left; reflexivity]
       |cbn [length] in Hlen; rewrite !length_app in Hlen; cbn [length] in Hlen; lia].
    rewrite skip_ws_app by exact Hbc. reflexivity.
  - cbn [map] in *. rewrite render_seq_cons in *. cbn [fst snd] in *.
    specialize (IH rest (pred n)).
    remember (render_seq ac bc (py "}")
                ((encode_basestring_ascii (fst kv') ++ py ": " ++ g kv')
                 :: map (fun kv => encode_basestring_ascii (fst kv) ++ py ": " ++ g kv) items')
                rest) as R eqn:ER.
    assert (exists R', R = DQUOTE :: R') as (R' & HR).
    { exists (tl R). rewrite ER. unfold encode_basestring_ascii.
      destruct (map _ items'); reflexivity. }
    clear ER. subst R.
    unfold encode_basestring_ascii in Hlen |- *.
    change (py ": ") with [58%N; 32%N] in *. change (py ",") with [44%N] in *.
    rewrite <- ?List.app_assoc in *. cbn [List.app tl] in *.
    destruct n as [|n]; [cbn [length] in Hlen; lia|].
    cbn [object_pairs]. rewrite <- List.app_assoc. cbn [List.app].
    rewrite (scanstring_encode_basestring_ascii _ _ Hk1 Hk2).
    cbn [skip_ws is_ws N.eqb Pos.eqb orb].
    rewrite (starts_value_skip_ws _ (Hst1 _)).
    rewrite Hscan1;
      [|reflexivity
       |cbn [length] in Hlen; rewrite !length_app in Hlen; cbn [length] in Hlen; lia].
    cbn [skip_ws is_ws N.eqb Pos.eqb orb].
    rewrite skip_ws_app by exact Hac.
    cbn [skip_ws is_ws DQUOTE N.eqb Pos.eqb orb pred] in *.
    rewrite IH; [reflexivity | discriminate | | | |].
    + intros z Hz. apply Hkeys. right; exact Hz.
    + intros z Hz. apply Hst. right; exact Hz.
    + intros z Hz r Hr Hl. apply Hscan; [right; exact Hz | exact Hr | lia].
    + cbn [length]. repeat (progress (rewrite ?length_app in Hlen; cbn [length] in Hlen)). lia.
Qed.

End Loops.

Section Objects.

Context {F : PyFloat}.

Lemma JSONObject_render (scan : pystr -> option (value * pystr))
    (g : pystr * value -> pystr) (ws ac bc : pystr)
    (items : list (pystr * value)) (rest : pystr) (n : nat) :
  all_ws ws = true -> all_ws ac = true -> all_ws bc = true ->
  items <> [] ->
  (forall kv, In kv items -> is_str (fst kv) = true /\ pair_free (fst kv) = true) ->
  (forall kv, In kv items -> forall r, starts_value (g kv ++ r) = true) ->
  (forall kv, In kv items -> forall r,
      at_delimiter r = true -> (length (g kv ++ r) <= n)%nat ->
      scan (g kv ++ r) = Some (snd kv, r)) ->
  (length (render_seq ac bc (py "}")
             (map (fun kv => encode_basestring_ascii (fst kv) ++ py ": " ++ g kv) items)
             rest) <= n)%nat ->
  JSONObject scan n
    (ws ++ render_seq ac bc (py "}")
             (map (fun kv => encode_basestring_ascii (fst kv) ++ py ": " ++ g kv) items) rest)
  = Some (VDict (dict_of_pairs items), rest).
Proof.
  intros Hws Hac Hbc Hne Hkeys Hst Hscan Hlen. unfold JSONObject.
  rewrite skip_ws_app by exact Hws.
  pose proof (object_pairs_render scan g ac bc Hac Hbc items rest n Hne Hkeys Hst Hscan Hlen)
    as Hloop.
  remember (render_seq ac bc (py "}")
              (map (fun kv => encode_basestring_ascii (fst kv) ++ py ": " ++ g kv) items)
              rest) as R eqn:ER.
  assert (exists R', R = DQUOTE :: R') as (R' & HR).
  { exists (tl R). rewrite ER. destruct items as [|kv items']; [contradiction|].
    cbn [map]. unfold encode_basestring_ascii. destruct (map _ items'); reflexivity. }
  clear ER. subst R. cbn [tl] in Hloop.
  cbn [skip_ws is_ws DQUOTE N.eqb Pos.eqb orb]. rewrite Hloop. reflexivity.
Qed.

(** [dict(pairs)] keeps pairs with distinct keys as they are. *)
Lemma distinct_app_cons (a b : list pystr) (k k' : pystr) :
  distinct (a ++ k :: b) = true -> In k' a -> pystr_eqb k' k = false.
Proof.
  induction a as [|x a IH]; intros Hd Hin; [destruct Hin|].
  cbn [List.app distinct] in Hd. apply andb_prop in Hd as [Hx Hd].
  destruct Hin as [->|Hin]; [|apply IH; assumption].
  apply negb_true_iff in Hx. rewrite existsb_app in Hx.
  apply orb_false_elim in Hx as [_ Hx]. cbn [existsb] in Hx.
  apply orb_false_elim in Hx as [Hx _]. exact Hx.
Qed.

Lemma dict_setitem_fresh (d : list (pystr * value)) (k : pystr) (v : value) :
  (forall k', In k' (map fst d) -> pystr_eqb k' k = false) ->
  dict_setitem d k v = d ++ [(k, v)].
Proof.
  induction d as [|[k' v'] d IH]; intros H; [reflexivity|].
  cbn [dict_setitem]. rewrite (H k') by (left; reflexivity).
  cbn [List.app]. f_equal. apply IH. intros k'' Hk. apply H. right; exact Hk.
Qed.

Lemma fold_dict_setitem (items acc : list (pystr * value)) :
  distinct (map fst (acc ++ items)) = true ->
  fold_left (fun d kv => dict_setitem d (fst kv) (snd kv)) items acc = acc ++ items.
Proof.
  revert acc. induction items as [|[k v] items IH]; intros acc Hd.
  - cbn [fold_left]. rewrite List.app_nil_r. reflexivity.
  - cbn [fold_left fst snd]. rewrite dict_setitem_fresh.
    + rewrite IH; rewrite <- List.app_assoc; [reflexivity|exact Hd].
    + intros k' Hk. rewrite map_app in Hd. cbn [map fst] in Hd.
      apply (distinct_app_cons _ _ _ _ Hd Hk).
Qed.

Lemma dict_of_pairs_distinct (items : list (pystr * value)) :
  distinct (map fst items) = true -> dict_of_pairs items = items.
Proof. intros H. unfold dict_of_pairs. apply (fold_dict_setitem items [] H). Qed.

Lemma dict_entry_value_as_format (indent max_line_length ci : Z) (k : pystr) (v : value) :
  exists m c, dict_entry_value indent max_line_length ci k v = format_value indent m v c.
Proof.
  unfold dict_entry_value, inline_simple_array.
  destruct v as [ | | | | | l | ]; try (eexists _, _; reflexivity).
  destruct (all_simple l) eqn:Hs; [|eexists _, _; reflexivity].
  destruct (_ <=? _); [|eexists _, _; reflexivity].
  exists (len (json_dumps false (VList l))), 0.
  symmetry. apply format_value_compact_list; [exact Hs | apply Z.le_refl].
Qed.

End Objects.

Section RoundTrip.

Context {F : PyFloat}.
Hypothesis float_law : float_repr_roundtrips F.

Lemma reads_back_starts_value (v : value) :
  reads_back v -> json_value v = true -> keys_pair_free v = true ->
  forall (indent max_line_length ci : Z) (r : pystr),
    starts_value (format_value indent max_line_length v ci ++ r) = true.
Proof.
  intros Hv Hj Hk indent max_line_length ci r.
  specialize (Hv indent max_line_length ci [] _ Hj Hk eq_refl (le_n _)).
  apply scan_once_starts_value in Hv. rewrite List.app_nil_r in Hv.
  apply starts_value_app, Hv.
Qed.

Lemma scan_once_array (fuel : nat) (s : pystr) :
  scan_once (S fuel) (91%N :: s) = JSONArray (scan_once fuel) fuel s.
Proof. reflexivity. Qed.

Lemma scan_once_object (fuel : nat) (s : pystr) :
  scan_once (S fuel) (123%N :: s) = JSONObject (scan_once fuel) fuel s.
Proof. reflexivity. Qed.

Lemma reads_back_scalar (v : value) : is_simple v = true -> reads_back v.
Proof.
  intros Hs indent max_line_length ci rest fuel Hj _ Hr Hlen.
  rewrite (format_value_simple _ _ _ _ Hs) in *.
  destruct v as [ | b | z | f | s | | ]; try discriminate; cbn [json_dumps] in *.
  - destruct fuel as [|fuel]; [cbn in Hlen; lia|]. reflexivity.
  - destruct b; (destruct fuel as [|fuel]; [cbn in Hlen; lia|]); reflexivity.
  - destruct fuel as [|fuel]; [|apply scan_once_int, Hr].
    pose proof (match_number_int_repr z) as Hm. destruct (int_repr z); [discriminate|].
    cbn in Hlen. lia.
  - cbn [json_value] in Hj. destruct (float_law f Hj) as [Ht Hf].
    destruct fuel as [|fuel]; [|apply scan_once_float; assumption].
    unfold float_token in Ht. destruct (float_str f); [discriminate|]. cbn in Hlen. lia.
  - destruct fuel as [|fuel]; [cbn in Hlen; lia|]. apply scan_once_string.
Qed.

Lemma reads_back_list (l : list value) : Forall reads_back l -> reads_back (VList l).
Proof.
  intros IH indent max_line_length ci rest fuel Hj Hk Hr Hlen.
  rewrite Forall_forall in IH.
  cbn [json_value keys_pair_free] in Hj, Hk. rewrite forallb_forall in Hj, Hk.
  rewrite format_value_list in *.
  destruct l as [|x0 l0]; [destruct fuel as [|fuel]; [cbn in Hlen; lia|reflexivity]|].
  set (l := x0 :: l0) in *.
  assert (l <> []) as Hne by discriminate.
  assert (forall m c x, In x l -> forall r, starts_value (format_value indent m x c ++ r) = true)
    as Hst.
  { intros m c x Hx r. apply reads_back_starts_value; auto. }
  destruct (all_simple l && (len (json_dumps false (VList l)) <=? max_line_length)) eqn:Hc.
  - apply andb_prop in Hc as [Hs _].
    change (json_dumps false (VList l))
      with (py "[" ++ str_join (py ", ") (map (json_dumps false) l) ++ py "]") in *.
    rewrite <- (all_simple_map_format indent max_line_length l ci Hs) in *.
    rewrite compact_render in * by (intros H; apply map_eq_nil in H; contradiction).
    change (py "[") with [91%N] in *. cbn [List.app] in *.
    destruct fuel as [|fuel]; [cbn [length] in Hlen; lia|].
    rewrite scan_once_array.
    apply (JSONArray_render (scan_once fuel)
             (fun x => format_value indent max_line_length x ci) [] (py " ") [] l rest fuel);
      try reflexivity; try exact Hne.
    + intros x Hx. apply Hst, Hx.
    + intros x Hx r Hdr Hl. apply IH; auto.
    + cbn [length] in Hlen. lia.
  - rewrite one_per_line_render in * by (intros H; apply map_eq_nil in H; contradiction).
    change (py "[") with [91%N] in *. cbn [List.app] in *.
    destruct fuel as [|fuel]; [cbn [length] in Hlen; lia|].
    rewrite scan_once_array, List.app_assoc.
    apply (JSONArray_render (scan_once fuel)
             (fun x => format_value indent max_line_length x (ci + indent))
             (NL ++ str_mul (py " ") (ci + indent))
             (NL ++ str_mul (py " ") (ci + indent)) (NL ++ str_mul (py " ") ci) l rest fuel);
      try apply all_ws_NL_pad; try exact Hne.
    + intros x Hx. apply Hst, Hx.
    + intros x Hx r Hdr Hl. apply IH; auto.
    + cbn [length] in Hlen. rewrite !length_app in Hlen. lia.
Qed.

Lemma reads_back_dict (items : list (pystr * value)) :
  Forall (fun kv => reads_back (snd kv)) items -> reads_back (VDict items).
Proof.
  intros IH indent max_line_length ci rest fuel Hj Hk Hr Hlen.
  rewrite Forall_forall in IH.
  cbn [json_value keys_pair_free] in Hj, Hk. apply andb_prop in Hj as [Hj Hd].
  rewrite forallb_forall in Hj, Hk.
  rewrite format_value_dict in *.
  destruct items as [|kv0 items0]; [destruct fuel as [|fuel]; [cbn in Hlen; lia|reflexivity]|].
  set (items := kv0 :: items0) in *.
  assert (items <> []) as Hne by discriminate.
  rewrite one_per_line_render in * by (intros H; apply map_eq_nil in H; contradiction).
  change (py "{") with [123%N] in *. cbn [List.app] in *.
  destruct fuel as [|fuel]; [cbn [length] in Hlen; lia|].
  rewrite scan_once_object, List.app_assoc.
  rewrite <- (dict_of_pairs_distinct items Hd) at 2.
  apply (JSONObject_render (scan_once fuel)
           (fun kv => dict_entry_value indent max_line_length ci (fst kv) (snd kv))
           (NL ++ str_mul (py " ") (ci + indent))
           (NL ++ str_mul (py " ") (ci + indent)) (NL ++ str_mul (py " ") ci) items rest fuel);
    try apply all_ws_NL_pad; try exact Hne.
  - intros kv Hkv. specialize (Hj kv Hkv). specialize (Hk kv Hkv).
    apply andb_prop in Hj as [Hj _]. apply andb_prop in Hk as [Hk _]. split; assumption.
  - intros kv Hkv r. specialize (Hj kv Hkv). specialize (Hk kv Hkv).
    apply andb_prop in Hj as [_ Hj]. apply andb_prop in Hk as [_ Hk].
    destruct (dict_entry_value_as_format indent max_line_length ci (fst kv) (snd kv))
      as (m & c & ->).
    apply reads_back_starts_value; auto.
  - intros kv Hkv r Hdr Hl. specialize (Hj kv Hkv). specialize (Hk kv Hkv).
    apply andb_prop in Hj as [_ Hj]. apply andb_prop in Hk as [_ Hk].
    destruct (dict_entry_value_as_format indent max_line_length ci (fst kv) (snd kv))
      as (m & c & Heq).
    rewrite Heq in *. apply IH; auto.
  - cbn [length] in Hlen. rewrite !length_app in Hlen.
    unfold dict_entry in Hlen. cbn [json_dumps encode_str] in Hlen. lia.
Qed.

Lemma scan_once_format_value (v : value) : reads_back v.
Proof.
  induction v as [ | b | z | f | s | l IH | items IH ] using value_ind';
    try (apply reads_back_scalar; reflexivity).
  - apply reads_back_list, IH.
  - apply reads_back_dict, IH.
Qed.

(** Parsing the formatted text gives the value back. *)
Lemma json_loads_format (v : value) (indent max_line_length : Z) :
  json_value v = true -> keys_pair_free v = true ->
  json_loads (format_json_prettier v indent max_line_length) = Some v.
Proof.
  intros Hj Hk. unfold json_loads, format_json_prettier.
  pose proof (scan_once_format_value v indent max_line_length 0 [] _ Hj Hk eq_refl (le_n _))
    as Hscan.
  rewrite List.app_nil_r in Hscan.
  pose proof (scan_once_starts_value _ _ _ Hscan) as Hsv.
  rewrite (starts_value_skip_ws _ Hsv), Hscan.
  destruct (format_value indent max_line_length v 0) as [|c r]; [discriminate|].
  cbn [starts_value] in Hsv. apply negb_true_iff in Hsv.
  apply orb_false_elim in Hsv as [_ Hsv].
  cbn [strip_prefix]. rewrite Hsv. reflexivity.
Qed.

End RoundTrip.

Lemma repr_floats_roundtrip : float_repr_roundtrips repr_floats.
Proof. intros f Hf. split; [exact Hf | reflexivity]. Qed.

(** C2. For floats whose [repr] reads back, parsing the formatted text
    of a JSON value gives the value back, provided no key holds a high
    surrogate immediately followed by a low surrogate. *)
Theorem C2_round_trip {F : PyFloat} (v : value) (indent max_line_length : Z) :
  float_repr_roundtrips F ->
  json_value v = true ->
  keys_pair_free v = true ->
  json_loads (format_json_prettier v indent max_line_length) = Some v.
Proof. intros Hf Hj Hk. apply json_loads_format; assumption. Qed.

Lemma C2_round_trip_witness :
  json_loads (format_json_prettier sample_document 2 80) = Some sample_document.
Proof.
  apply (C2_round_trip (F := repr_floats) sample_document 2 80).
  - exact repr_floats_roundtrip.
  - vm_compute. reflexivity.
  - vm_compute. reflexivity.
Defined.

(** A key made of a high and a low surrogate is printed as two escapes,
    which read back as the one character of the pair; the two dicts are
    printed alike. *)
Lemma C2_surrogate_pair_key_not_restored :
  json_value (F := repr_floats) surrogate_key_dict = true
  /\ json_loads (format_json_prettier (F := repr_floats) surrogate_key_dict 2 80)
     = Some astral_key_dict
  /\ json_loads (format_json_prettier (F := repr_floats) surrogate_key_dict 2 80)
     <> Some surrogate_key_dict
  /\ format_json_prettier (F := repr_floats) surrogate_key_dict 2 80
     = format_json_prettier astral_key_dict 2 80.
Proof.
  split; [reflexivity|]. split; [vm_compute; reflexivity|].
  split; [|vm_compute; reflexivity].
  intros H. vm_compute in H. discriminate H.
Qed.

(** With both keys in one dict, the formatted text parses to a dict with
    one entry, which is printed differently. *)
Lemma C3_colliding_keys_not_idempotent :
  json_value (F := repr_floats) colliding_keys_dict = true
  /\ json_loads (format_json_prettier (F := repr_floats) colliding_keys_dict 2 80)
     = Some (VDict [(astral_key, VInt 2)])
  /\ format_json_prettier (F := repr_floats) (VDict [(astral_key, VInt 2)]) 2 80
     <> format_json_prettier colliding_keys_dict 2 80.
Proof.
  split; [reflexivity|]. split; [vm_compute; reflexivity|].
  intros H. vm_compute in H. discriminate H.
Qed.

(** * Further properties *)

(** ** The check for a simple array in a dict (lines 22-28) *)

Lemma dict_entry_value_redundant {F : PyFloat} (indent max_line_length ci : Z)
    (k : pystr) (v : value) :
  0 <= ci ->
  dict_entry_value indent max_line_length ci k v
  = format_value indent max_line_length v (ci + indent).
Proof.
  intros Hci. unfold dict_entry_value, inline_simple_array.
  destruct v as [ | | | | | l | ]; try reflexivity.
  destruct (all_simple l) eqn:Hs; [|reflexivity].
  destruct (Z.leb_spec (len (json_dumps false (VList l)))
              (max_line_length - ci - len k - 5)) as [Hle|_]; [|reflexivity].
  symmetry. apply format_value_compact_list; [exact Hs|].
  unfold len in *. lia.
Qed.

(** X1. At a current indent that is not negative the check of lines 22-28
    changes nothing: every entry of a dict is its key followed by what the
    recursive call of line 19 returned. *)
Theorem key_aware_check_changes_nothing {F : PyFloat} (indent max_line_length ci : Z)
    (items : list (pystr * value)) :
  0 <= ci ->
  items <> [] ->
  format_value indent max_line_length (VDict items) ci
  = one_per_line (py "{") (py "}") indent ci
      (map (fun kv => json_dumps true (VStr (fst kv)) ++ py ": "
                      ++ format_value indent max_line_length (snd kv) (ci + indent))
         items).
Proof.
  intros Hci Hne. rewrite format_value_dict.
  destruct items as [|kv items']; [contradiction|].
  f_equal. apply map_ext. intros [k v]. unfold dict_entry. cbn [fst snd].
  rewrite (dict_entry_value_redundant _ _ _ _ _ Hci). reflexivity.
Qed.

Lemma key_aware_check_changes_nothing_witness :
  format_value 2 80 (VDict [(py "a", VList array_of_75)]) 0
  = one_per_line (py "{") (py "}") 2 0
      (map (fun kv => json_dumps true (VStr (fst kv)) ++ py ": "
                      ++ format_value 2 80 (snd kv) (0 + 2))
         [(py "a", VList array_of_75)]).
Proof.
  apply (key_aware_check_changes_nothing (F := repr_floats) 2 80 0
           [(py "a", VList array_of_75)]).
  - lia.
  - discriminate.
Defined.

(** ** Dicts as items *)

Lemma pystr_eqb_eq (a b : pystr) : pystr_eqb a b = true <-> a = b.
Proof.
  revert b. induction a as [|x a IH]; intros [|y b]; cbn [pystr_eqb];
    try (split; [discriminate|discriminate]); [split; reflexivity|].
  rewrite andb_true_iff, N.eqb_eq, IH. split.
  - intros [-> ->]. reflexivity.
  - intros [= -> ->]. split; reflexivity.
Qed.

Lemma pystr_eqb_refl (a : pystr) : pystr_eqb a a = true.
Proof. apply pystr_eqb_eq. reflexivity. Qed.

Lemma pystr_eqb_neq (a b : pystr) : a <> b -> pystr_eqb a b = false.
Proof.
  intros H. destruct (pystr_eqb a b) eqn:E; [|reflexivity].
  apply pystr_eqb_eq in E. contradiction.
Qed.

Lemma dict_get_setitem_same {F : PyFloat} (d : list (pystr * value)) (k : pystr) (v : value) :
  dict_get (dict_setitem d k v) k = Some v.
Proof.
  induction d as [|[k' v'] d IH]; cbn [dict_setitem dict_get].
  - rewrite pystr_eqb_refl. reflexivity.
  - destruct (pystr_eqb k' k) eqn:E; cbn [dict_get]; rewrite E; [reflexivity|exact IH].
Qed.

Lemma dict_get_setitem_other {F : PyFloat} (d : list (pystr * value)) (k k0 : pystr)
    (v : value) :
  k0 <> k -> dict_get (dict_setitem d k v) k0 = dict_get d k0.
Proof.
  intros Hne. induction d as [|[k' v'] d IH]; cbn [dict_setitem dict_get].
  - rewrite pystr_eqb_neq by (intros ->; contradiction). reflexivity.
  - destruct (pystr_eqb k' k) eqn:E; cbn [dict_get].
    + apply pystr_eqb_eq in E. subst k'.
      rewrite pystr_eqb_neq by (intros ->; contradiction). reflexivity.
    + rewrite IH. reflexivity.
Qed.

Lemma dict_setitem_keys {F : PyFloat} (d : list (pystr * value)) (k : pystr) (v : value) :
  map fst (dict_setitem d k v)
  = if dict_contains d k then map fst d else map fst d ++ [k].
Proof.
  unfold dict_contains. induction d as [|[k' v'] d IH]; [reflexivity|].
  cbn [dict_setitem dict_get]. destruct (pystr_eqb k' k) eqn:E; cbn [map fst].
  - apply pystr_eqb_eq in E. subst k'. reflexivity.
  - rewrite IH. destruct (dict_get d k); reflexivity.
Qed.

Lemma existsb_pystr_eqb_app (k : pystr) (a b : list pystr) :
  existsb (pystr_eqb k) (a ++ b) = existsb (pystr_eqb k) a || existsb (pystr_eqb k) b.
Proof. apply existsb_app. Qed.

Lemma distinct_snoc (keys : list pystr) (k : pystr) :
  distinct keys = true ->
  (forall k', In k' keys -> pystr_eqb k' k = false) ->
  distinct (keys ++ [k]) = true.
Proof.
  induction keys as [|x keys IH]; intros Hd Hk; [reflexivity|].
  cbn [List.app distinct] in *. apply andb_prop in Hd as [Hx Hd].
  apply andb_true_intro. split.
  - rewrite existsb_app. cbn [existsb]. rewrite (Hk x (or_introl eq_refl)).
    apply negb_true_iff in Hx. rewrite Hx. reflexivity.
  - apply IH; [exact Hd|]. intros k' Hin. apply Hk. right; exact Hin.
Qed.

Lemma dict_get_None_keys {F : PyFloat} (d : list (pystr * value)) (k : pystr) :
  dict_get d k = None -> forall k', In k' (map fst d) -> pystr_eqb k' k = false.
Proof.
  induction d as [|[k1 v1] d IH]; intros Hg k' Hin; [destruct Hin|].
  cbn [dict_get] in Hg. destruct (pystr_eqb k1 k) eqn:E; [discriminate|].
  destruct Hin as [<-|Hin]; [exact E | apply IH; assumption].
Qed.

Lemma dict_setitem_distinct {F : PyFloat} (d : list (pystr * value)) (k : pystr) (v : value) :
  distinct (map fst d) = true -> distinct (map fst (dict_setitem d k v)) = true.
Proof.
  intros Hd. rewrite dict_setitem_keys. unfold dict_contains.
  destruct (dict_get d k) eqn:Hg; [exact Hd|].
  apply distinct_snoc; [exact Hd | apply (dict_get_None_keys d k Hg)].
Qed.

Lemma dict_setitem_forallb {F : PyFloat} (p : pystr * value -> bool)
    (d : list (pystr * value)) (k : pystr) (v : value) :
  forallb p d = true -> p (k, v) = true -> forallb p (dict_setitem d k v) = true.
Proof.
  intros Hd Hp. induction d as [|[k' v'] d IH]; cbn [dict_setitem forallb].
  - rewrite Hp. reflexivity.
  - cbn [forallb] in Hd. apply andb_prop in Hd as [H1 H2].
    destruct (pystr_eqb k' k) eqn:E; cbn [forallb].
    + apply pystr_eqb_eq in E. subst k'. rewrite Hp, H2. reflexivity.
    + rewrite H1, (IH H2). reflexivity.
Qed.

Lemma dict_setitem_twice {F : PyFloat} (d : list (pystr * value)) (k : pystr) (v : value) :
  dict_setitem (dict_setitem d k v) k v = dict_setitem d k v.
Proof.
  induction d as [|[k' v'] d IH]; cbn [dict_setitem].
  - rewrite pystr_eqb_refl. reflexivity.
  - destruct (pystr_eqb k' k) eqn:E; cbn [dict_setitem]; rewrite E; [reflexivity|].
    rewrite IH. reflexivity.
Qed.

Lemma lstrip_chars_suffix (chars : N -> bool) (s : pystr) :
  exists m, s = m ++ lstrip_chars chars s /\ forallb chars m = true.
Proof.
  induction s as [|c s IH]; [exists []; split; reflexivity|].
  cbn [lstrip_chars]. destruct (chars c) eqn:E.
  - destruct IH as (m & Hm & Hc). exists (c :: m). cbn [List.app forallb].
    rewrite E, Hc. split; [f_equal; exact Hm | reflexivity].
  - exists []. split; reflexivity.
Qed.

Lemma lstrip_chars_head (chars : N -> bool) (s : pystr) (c : N) (r : pystr) :
  lstrip_chars chars s = c :: r -> chars c = false.
Proof.
  induction s as [|x s IH]; [discriminate|]. cbn [lstrip_chars].
  destruct (chars x) eqn:E; [exact IH|]. intros [= -> _]. exact E.
Qed.

Lemma is_str_lstrip (chars : N -> bool) (s : pystr) :
  is_str s = true -> is_str (lstrip_chars chars s) = true.
Proof.
  intros H. destruct (lstrip_chars_suffix chars s) as (m & Hm & _).
  rewrite Hm in H. unfold is_str in *. rewrite forallb_app in H.
  apply andb_prop in H as [_ H]. exact H.
Qed.

(** ** [update_info_json_version] *)

Section UpdateInfoFacts.

Context {F : PyFloat}.
Hypothesis float_law : float_repr_roundtrips F.

(** The text with the newline the caller writes after it parses to the
    value. *)
Lemma json_loads_format_newline (v : value) (indent max_line_length : Z) :
  json_value v = true -> keys_pair_free v = true ->
  json_loads (format_json_prettier v indent max_line_length ++ NL) = Some v.
Proof.
  intros Hj Hk. unfold json_loads, format_json_prettier.
  pose proof (scan_once_format_value float_law v indent max_line_length 0 NL _ Hj Hk
                eq_refl (le_n _)) as Hscan.
  pose proof (scan_once_starts_value _ _ _ Hscan) as Hsv.
  rewrite (starts_value_skip_ws _ Hsv), Hscan.
  destruct (format_value indent max_line_length v 0) as [|c r]; [discriminate|].
  cbn [starts_value List.app] in Hsv |- *. apply negb_true_iff in Hsv.
  apply orb_false_elim in Hsv as [_ Hsv].
  cbn [strip_prefix]. rewrite Hsv. reflexivity.
Qed.

Lemma json_value_set_version (info : list (pystr * value)) (version : pystr) :
  json_value (VDict info) = true -> is_str version = true ->
  json_value (VDict (dict_setitem info (py "version") (VStr version))) = true.
Proof.
  cbn [json_value]. intros H Hv. apply andb_prop in H as [H1 H2].
  apply andb_true_intro. split.
  - apply dict_setitem_forallb; [exact H1 |]. cbn [fst snd json_value].
    rewrite Hv. reflexivity.
  - apply dict_setitem_distinct, H2.
Qed.

Lemma keys_pair_free_set_version (info : list (pystr * value)) (version : pystr) :
  keys_pair_free (VDict info) = true ->
  keys_pair_free (VDict (dict_setitem info (py "version") (VStr version))) = true.
Proof.
  cbn [keys_pair_free]. intros H.
  apply dict_setitem_forallb; [exact H | reflexivity].
Qed.

End UpdateInfoFacts.

(** ** Repetition with backtracking *)

Lemma star_then_sound {A} (cls : N -> bool) (s : pystr) :
  forall (k : pystr -> pystr -> option A) (x : A),
    star_then cls k s = Some x ->
    exists m r, s = m ++ r /\ forallb cls m = true /\ k m r = Some x.
Proof.
  induction s as [|c s IH]; intros k x H.
  - exists [], []. repeat split. exact H.
  - cbn [star_then] in H. destruct (cls c) eqn:Hc.
    + destruct (star_then cls (fun m => k (c :: m)) s) as [y|] eqn:Hs.
      * injection H as ->. destruct (IH _ _ Hs) as (m & r & -> & Hm & Hk).
        exists (c :: m), r. cbn [List.app forallb]. rewrite Hc, Hm. repeat split. exact Hk.
      * exists [], (c :: s). repeat split. exact H.
    + exists [], (c :: s). repeat split. exact H.
Qed.

Lemma plus_then_sound {A} (cls : N -> bool) (s : pystr)
    (k : pystr -> pystr -> option A) (x : A) :
  plus_then cls k s = Some x ->
  exists m r, s = m ++ r /\ m <> [] /\ forallb cls m = true /\ k m r = Some x.
Proof.
  unfold plus_then. destruct s as [|c s]; [discriminate|].
  destruct (cls c) eqn:Hc; [|discriminate]. intros H.
  destruct (star_then_sound cls s _ _ H) as (m & r & -> & Hm & Hk).
  exists (c :: m), r. cbn [List.app forallb]. rewrite Hc, Hm.
  repeat split; [discriminate | exact Hk].
Qed.

(** The longest repetition is the match when what follows accepts it. *)
Lemma star_then_longest {A} (cls : N -> bool) (m r : pystr) :
  forall (k : pystr -> pystr -> option A) (x : A),
    forallb cls m = true -> stops cls r -> k m r = Some x ->
    star_then cls k (m ++ r) = Some x.
Proof.
  induction m as [|c m IH]; intros k x Hm Hr Hk.
  - destruct r as [|d r]; [exact Hk|]. cbn [List.app star_then]. cbn [stops] in Hr.
    rewrite Hr. exact Hk.
  - cbn [forallb] in Hm. apply andb_prop in Hm as [Hc Hm].
    cbn [List.app star_then]. rewrite Hc.
    rewrite (IH (fun m' => k (c :: m')) x Hm Hr Hk). reflexivity.
Qed.

Lemma plus_then_longest {A} (cls : N -> bool) (m r : pystr)
    (k : pystr -> pystr -> option A) (x : A) :
  m <> [] -> forallb cls m = true -> stops cls r -> k m r = Some x ->
  plus_then cls k (m ++ r) = Some x.
Proof.
  intros Hne Hm Hr Hk. destruct m as [|c m]; [contradiction|].
  cbn [forallb] in Hm. apply andb_prop in Hm as [Hc Hm].
  cbn [List.app plus_then]. rewrite Hc.
  apply (star_then_longest cls m r (fun m' => k (c :: m')) x Hm Hr Hk).
Qed.

(** ** Stripping *)

Lemma lstrip_chars_idem (chars : N -> bool) (s : pystr) :
  lstrip_chars chars (lstrip_chars chars s) = lstrip_chars chars s.
Proof.
  induction s as [|c s IH]; [reflexivity|]. cbn [lstrip_chars].
  destruct (chars c) eqn:E; [exact IH|]. cbn [lstrip_chars]. rewrite E. reflexivity.
Qed.

Lemma lstrip_chars_stops (chars : N -> bool) (s : pystr) :
  stops chars s -> lstrip_chars chars s = s.
Proof. destruct s as [|c s]; [reflexivity|]. cbn. intros ->. reflexivity. Qed.

Lemma lstrip_chars_app (chars : N -> bool) (m s : pystr) :
  forallb chars m = true -> lstrip_chars chars (m ++ s) = lstrip_chars chars s.
Proof.
  induction m as [|c m IH]; [reflexivity|]. cbn [forallb List.app lstrip_chars].
  intros H. apply andb_prop in H as [Hc Hm]. rewrite Hc. apply IH, Hm.
Qed.

Lemma lstrip_chars_In (chars : N -> bool) (s : pystr) (c : N) :
  In c (lstrip_chars chars s) -> In c s.
Proof.
  destruct (lstrip_chars_suffix chars s) as (m & Hm & _). intros H.
  rewrite Hm. apply in_or_app. right; exact H.
Qed.

Lemma lstrip_chars_nonempty (chars : N -> bool) (s : pystr) (c : N) :
  In c s -> chars c = false -> lstrip_chars chars s <> [].
Proof.
  induction s as [|x s IH]; intros Hin Hc; [destruct Hin|].
  cbn [lstrip_chars]. destruct (chars x) eqn:E; [|discriminate].
  destruct Hin as [->|Hin]; [congruence | apply IH; assumption].
Qed.

Lemma rstrip_chars_rstripped (s : pystr) : rstripped s -> rstrip_chars is_space s = s.
Proof.
  unfold rstripped, rstrip_chars. intros H.
  rewrite (lstrip_chars_stops _ _ H). apply rev_involutive.
Qed.

Lemma rstripped_rstrip (s : pystr) : rstripped (rstrip_chars is_space s).
Proof.
  unfold rstripped, rstrip_chars. rewrite rev_involutive.
  destruct (lstrip_chars is_space (List.rev s)) as [|c r] eqn:E; [exact I|].
  apply (lstrip_chars_head _ _ _ _ E).
Qed.

Lemma rstripped_suffix (m u : pystr) : rstripped (m ++ u) -> u <> [] -> rstripped u.
Proof.
  unfold rstripped. rewrite rev_app_distr. intros H Hne.
  destruct (List.rev u) as [|c r] eqn:E.
  - apply (f_equal (@List.rev N)) in E. rewrite rev_involutive in E. contradiction.
  - exact H.
Qed.

Lemma rstripped_nil : rstripped [].
Proof. exact I. Qed.

Lemma rstripped_lstrip (s : pystr) : rstripped s -> rstripped (lstrip_chars is_space s).
Proof.
  intros H. destruct (lstrip_chars_suffix is_space s) as (m & Hm & _).
  destruct (lstrip_chars is_space s) as [|c r] eqn:E; [apply rstripped_nil|].
  rewrite Hm in H. apply (rstripped_suffix m (c :: r) H). discriminate.
Qed.

Lemma rstripped_str_strip (s : pystr) : rstripped (str_strip s).
Proof. apply rstripped_lstrip, rstripped_rstrip. Qed.

Lemma str_strip_idem (s : pystr) : str_strip (str_strip s) = str_strip s.
Proof.
  unfold str_strip at 1. rewrite (rstrip_chars_rstripped _ (rstripped_str_strip s)).
  unfold str_strip. apply lstrip_chars_idem.
Qed.

Lemma rstrip_chars_In (s : pystr) (c : N) : In c (rstrip_chars is_space s) -> In c s.
Proof.
  unfold rstrip_chars. intros H. apply in_rev in H. apply lstrip_chars_In in H.
  apply in_rev, H.
Qed.

Lemma str_strip_In (s : pystr) (c : N) : In c (str_strip s) -> In c s.
Proof. intros H. apply rstrip_chars_In. apply (lstrip_chars_In _ _ _ H). Qed.

Lemma rstripped_last (s : pystr) (c : N) : rstripped (s ++ [c]) -> is_space c = false.
Proof. unfold rstripped. rewrite rev_app_distr. intros H. exact H. Qed.

(** A text without whitespace at its ends is what stripping leaves. *)
Lemma str_strip_clean (s : pystr) : stops is_space s -> rstripped s -> str_strip s = s.
Proof.
  intros H1 H2. unfold str_strip. rewrite (rstrip_chars_rstripped _ H2).
  apply lstrip_chars_stops, H1.
Qed.

Lemma str_strip_stops (s : pystr) : stops is_space (str_strip s).
Proof.
  unfold str_strip. destruct (lstrip_chars is_space _) as [|c r] eqn:E; [exact I|].
  apply (lstrip_chars_head _ _ _ _ E).
Qed.

(** ** [parse_commit_line] *)

Lemma is_space_not_alpha (c : N) : is_space c = true -> is_alpha c = false.
Proof.
  unfold is_space, is_alpha. intros H.
  destruct (((65 <=? c) && (c <=? 90)) || ((97 <=? c) && (c <=? 122)))%N eqn:Ha;
    [|reflexivity].
  exfalso.
  assert ((65 <= c <= 122)%N) as Hr.
  { apply orb_prop in Ha as [Ha|Ha]; apply andb_prop in Ha as [H1 H2];
      apply N.leb_le in H1, H2; lia. }
  repeat (apply orb_prop in H as [H|H]);
    try (apply andb_prop in H as [H1 H2]; apply N.leb_le in H1, H2; lia);
    apply N.eqb_eq in H; lia.
Qed.

Lemma at_end_inv (rest : pystr) : at_end rest = true -> rest = [] \/ rest = [10%N].
Proof.
  destruct rest as [|c [|d r]]; cbn [at_end]; intros H; [left; reflexivity| |].
  - right. rewrite andb_true_r in H. apply N.eqb_eq in H. subst c. reflexivity.
  - rewrite andb_false_r in H. discriminate.
Qed.

Lemma match_description_sound (prefix s group1 group2 : pystr) :
  match_description prefix s = Some (group1, group2) ->
  group1 = prefix
  /\ exists b rest,
       s = b ++ group2 ++ rest /\ b <> [] /\ stops is_alpha b /\ at_end rest = true
       /\ group2 <> [] /\ forallb (fun c => negb (c =? 10)%N) group2 = true.
Proof.
  unfold match_description. intros H.
  apply star_then_sound in H as (w1 & r1 & -> & Hw1 & H).
  destruct r1 as [|c r1]; [discriminate|].
  destruct (N.eqb_spec c 58) as [->|]; [|discriminate].
  apply star_then_sound in H as (w2 & r2 & -> & Hw2 & H).
  apply plus_then_sound in H as (d & rest & -> & Hd & Hdot & H).
  destruct (at_end rest) eqn:He; [|discriminate]. injection H as <- <-.
  split; [reflexivity|].
  exists (w1 ++ 58%N :: w2), rest.
  repeat split; try assumption.
  - rewrite <- List.app_assoc. reflexivity.
  - destruct w1; discriminate.
  - destruct w1 as [|x w1]; [reflexivity|]. cbn [forallb] in Hw1.
    apply andb_prop in Hw1 as [Hx _]. apply is_space_not_alpha, Hx.
Qed.

Lemma match_scope_sound (prefix s group1 group2 : pystr) :
  match_scope prefix s = Some (group1, group2) ->
  group1 = prefix
  /\ exists b rest,
       s = b ++ group2 ++ rest /\ b <> [] /\ stops is_alpha b /\ at_end rest = true
       /\ group2 <> [] /\ forallb (fun c => negb (c =? 10)%N) group2 = true.
Proof.
  unfold match_scope. destruct s as [|c s]; [discriminate|].
  destruct (N.eqb_spec c 40) as [->|]; [|discriminate]. intros H.
  apply plus_then_sound in H as (sc & r & -> & _ & _ & H).
  destruct r as [|c' r]; [discriminate|].
  destruct (c' =? 41)%N; [|discriminate].
  apply match_description_sound in H as (-> & b & rest & -> & _ & _ & He & Hg & Hd).
  split; [reflexivity|].
  exists (40%N :: sc ++ c' :: b), rest. repeat split; try assumption; try discriminate.
  cbn [List.app]. rewrite <- !List.app_assoc. reflexivity.
Qed.

Lemma match_commit_line_sound (line group1 group2 : pystr) :
  match_commit_line line = Some (group1, group2) ->
  group1 <> [] /\ forallb is_alpha group1 = true
  /\ exists b rest,
       line = group1 ++ b ++ group2 ++ rest /\ b <> [] /\ stops is_alpha b
       /\ at_end rest = true
       /\ group2 <> [] /\ forallb (fun c => negb (c =? 10)%N) group2 = true.
Proof.
  unfold match_commit_line. intros H.
  apply plus_then_sound in H as (p & r & -> & Hp & Ha & H).
  assert (group1 = p
          /\ exists b rest,
               r = b ++ group2 ++ rest /\ b <> [] /\ stops is_alpha b /\ at_end rest = true
               /\ group2 <> [] /\ forallb (fun c => negb (c =? 10)%N) group2 = true)
    as (-> & b & rest & -> & Hrest).
  { destruct (match_scope p r) as [[g1 g2]|] eqn:Hs.
    - injection H as -> ->. apply (match_scope_sound _ _ _ _ Hs).
    - apply (match_description_sound _ _ _ _ H). }
  repeat split; try assumption. exists b, rest. split; [reflexivity | exact Hrest].
Qed.

Lemma rstripped_remove_leading_dash (s : pystr) :
  rstripped s -> rstripped (remove_leading_dash s).
Proof.
  intros H. unfold remove_leading_dash. destruct s as [|c r]; [exact H|].
  destruct (c =? 45)%N; [|exact H]. apply rstripped_lstrip.
  destruct r as [|d r']; [apply rstripped_nil|].
  apply (rstripped_suffix [c] (d :: r') H). discriminate.
Qed.

Lemma dict_get_In {A} (d : list (pystr * A)) (k : pystr) (v : A) :
  dict_get d k = Some v -> In v (map snd d).
Proof.
  induction d as [|[k' v'] d IH]; [discriminate|]. cbn [dict_get map snd].
  destruct (pystr_eqb k' k); [intros [= ->]; left; reflexivity|].
  intros H. right. apply IH, H.
Qed.

Lemma category_of_official (prefix : pystr) : In (category_of prefix) (map snd CATEGORY_MAP).
Proof.
  unfold category_of. destruct (dict_get CATEGORY_MAP prefix) as [c|] eqn:E.
  - apply (dict_get_In _ _ _ E).
  - apply (dict_get_In CATEGORY_MAP (py "change")). reflexivity.
Qed.

Lemma nonempty_last {A} (l : list A) : l <> [] -> exists l' x, l = l' ++ [x].
Proof.
  intros H. destruct (exists_last H) as (l' & x & ->). exists l', x. reflexivity.
Qed.

(** X5. A line that [parse_commit_line] accepts is, once stripped and rid
    of a leading dash, a run of letters, something that starts with no
    letter, and the description up to the end of the line.  The category
    is the one of the letters in lower case, the letters are not an
    ignored prefix, the category is always one of the values of
    [CATEGORY_MAP], and the description is never empty, holds no newline
    and has no whitespace at its ends. *)
Theorem parse_commit_line_accepts (line category description : pystr) :
  parse_commit_line line = Some (category, description) ->
  exists group1 between : pystr,
    remove_leading_dash (str_strip line) = group1 ++ between ++ description
    /\ group1 <> [] /\ forallb is_alpha group1 = true
    /\ between <> [] /\ stops is_alpha between
    /\ existsb (pystr_eqb (str_lower group1)) IGNORED_PREFIXES = false
    /\ category = category_of (str_lower group1)
    /\ In category (map snd CATEGORY_MAP)
    /\ description <> []
    /\ ~ In 10%N description
    /\ str_strip description = description.
Proof.
  unfold parse_commit_line. intros H.
  pose proof (rstripped_remove_leading_dash _ (rstripped_str_strip line)) as Hrs.
  destruct (str_strip line) as [|c0 s0] eqn:Hs; [discriminate|].
  remember (remove_leading_dash (c0 :: s0)) as line' eqn:El. clear El.
  destruct (match_commit_line line') as [[g1 g2]|] eqn:Hm; [|discriminate].
  destruct (existsb _ IGNORED_PREFIXES) eqn:Hi; [discriminate|].
  injection H as <- <-.
  apply match_commit_line_sound in Hm
    as (Hg1 & Ha & b & rest & -> & Hb & Hsb & He & Hg2 & Hnl).
  assert (rest = []) as ->.
  { apply at_end_inv in He as [->| ->]; [reflexivity|]. exfalso.
    rewrite !List.app_assoc in Hrs. apply rstripped_last in Hrs. discriminate. }
  rewrite List.app_nil_r in *.
  assert (rstripped g2) as Hrg.
  { rewrite List.app_assoc in Hrs. apply (rstripped_suffix _ _ Hrs Hg2). }
  assert (str_strip g2 = lstrip_chars is_space g2) as Hd.
  { unfold str_strip. rewrite (rstrip_chars_rstripped _ Hrg). reflexivity. }
  destruct (lstrip_chars_suffix is_space g2) as (m & Hm & _).
  exists g1, (b ++ m). rewrite Hd. repeat split; try assumption.
  - rewrite <- List.app_assoc, <- Hm. reflexivity.
  - destruct b; [contradiction|discriminate].
  - destruct b; [contradiction|exact Hsb].
  - apply category_of_official.
  - destruct (nonempty_last g2 Hg2) as (g & x & Hx). rewrite Hx in Hrg.
    apply rstripped_last in Hrg. apply (lstrip_chars_nonempty _ _ x); [|exact Hrg].
    rewrite Hx. apply in_or_app. right; left; reflexivity.
  - intros Hin. apply lstrip_chars_In in Hin. rewrite forallb_forall in Hnl.
    specialize (Hnl _ Hin). discriminate.
  - rewrite <- Hd. apply str_strip_idem.
Qed.

Lemma parse_commit_line_accepts_witness :
  exists group1 between : pystr,
    remove_leading_dash (str_strip (py "  - Fix(gui): close the window  "))
    = group1 ++ between ++ py "close the window"
    /\ group1 <> [] /\ forallb is_alpha group1 = true
    /\ between <> [] /\ stops is_alpha between
    /\ existsb (pystr_eqb (str_lower group1)) IGNORED_PREFIXES = false
    /\ py "Bugfixes" = category_of (str_lower group1)
    /\ In (py "Bugfixes") (map snd CATEGORY_MAP)
    /\ py "close the window" <> []
    /\ ~ In 10%N (py "close the window")
    /\ str_strip (py "close the window") = py "close the window".
Proof.
  apply (parse_commit_line_accepts (py "  - Fix(gui): close the window  ")
           (py "Bugfixes") (py "close the window")).
  vm_compute. reflexivity.
Defined.

Lemma forallb_rev {A} (p : A -> bool) (l : list A) :
  forallb p l = true -> forallb p (List.rev l) = true.
Proof.
  rewrite !forallb_forall. intros H x Hx. apply H. apply in_rev, Hx.
Qed.

Lemma rstripped_app (y d : pystr) : d <> [] -> rstripped d -> rstripped (y ++ d).
Proof.
  unfold rstripped. rewrite rev_app_distr. intros Hne H.
  destruct (List.rev d) as [|c r] eqn:E; [|exact H].
  apply (f_equal (@List.rev N)) in E. rewrite rev_involutive in E. contradiction.
Qed.

Lemma str_strip_between (lead x trail : pystr) :
  all_space lead = true -> all_space trail = true ->
  x <> [] -> stops is_space x -> rstripped x ->
  str_strip (lead ++ x ++ trail) = x.
Proof.
  intros Hl Ht Hne Hs Hr. unfold str_strip.
  assert (rstrip_chars is_space (lead ++ x ++ trail) = lead ++ x) as ->.
  { unfold rstrip_chars. rewrite !rev_app_distr, <- List.app_assoc.
    rewrite lstrip_chars_app by (apply forallb_rev, Ht).
    rewrite (lstrip_chars_stops is_space (List.rev x ++ List.rev lead)).
    - rewrite rev_app_distr, !rev_involutive. reflexivity.
    - unfold rstripped in Hr. destruct (List.rev x) as [|c r] eqn:E; [|exact Hr].
      apply (f_equal (@List.rev N)) in E. rewrite rev_involutive in E. contradiction. }
  rewrite lstrip_chars_app by exact Hl. apply lstrip_chars_stops, Hs.
Qed.

Lemma is_alpha_not_space (c : N) : is_alpha c = true -> is_space c = false.
Proof.
  intros H. destruct (is_space c) eqn:E; [|reflexivity].
  rewrite (is_space_not_alpha _ E) in H. discriminate.
Qed.

Lemma stops_app (cls : N -> bool) (a b : pystr) : a <> [] -> stops cls a -> stops cls (a ++ b).
Proof. destruct a; [contradiction|]. intros _ H; exact H. Qed.

Lemma match_description_complete (prefix w1 w2 description : pystr) :
  all_space w1 = true -> all_space w2 = true ->
  description <> [] -> stops is_space description ->
  forallb (fun c => negb (c =? 10)%N) description = true ->
  match_description prefix (w1 ++ 58%N :: w2 ++ description) = Some (prefix, description).
Proof.
  intros H1 H2 Hne Hs Hnl. unfold match_description.
  apply star_then_longest; [exact H1 | reflexivity |].
  cbn [N.eqb Pos.eqb].
  apply star_then_longest; [exact H2 | exact Hs |].
  rewrite <- (List.app_nil_r description) at 1.
  apply plus_then_longest; [exact Hne | exact Hnl | exact I | reflexivity].
Qed.

Lemma match_scope_none (prefix w1 r : pystr) :
  all_space w1 = true -> match_scope prefix (w1 ++ 58%N :: r) = None.
Proof.
  intros H. destruct w1 as [|c w1]; [reflexivity|].
  cbn [all_space forallb] in H. apply andb_prop in H as [Hc _].
  cbn [List.app match_scope]. destruct (N.eqb_spec c 40) as [->|]; [discriminate|reflexivity].
Qed.

Lemma match_commit_line_complete (prefix : pystr) (scope : option pystr)
    (w1 w2 description : pystr) :
  prefix <> [] -> forallb is_alpha prefix = true ->
  option_all scope_ok scope = true ->
  all_space w1 = true -> all_space w2 = true ->
  description <> [] -> stops is_space description ->
  forallb (fun c => negb (c =? 10)%N) description = true ->
  match_commit_line
    (prefix ++ match scope with Some sc => 40%N :: sc ++ [41%N] | None => [] end
     ++ w1 ++ 58%N :: w2 ++ description)
  = Some (prefix, description).
Proof.
  intros Hp Ha Hsc H1 H2 Hne Hs Hnl. unfold match_commit_line.
  pose proof (match_description_complete prefix w1 w2 description H1 H2 Hne Hs Hnl) as Hd.
  apply plus_then_longest; [exact Hp | exact Ha | |].
  - destruct scope as [sc|]; [reflexivity|]. cbn [List.app].
    destruct w1 as [|c w1]; [reflexivity|]. cbn [all_space forallb] in H1.
    apply andb_prop in H1 as [Hc _]. apply is_space_not_alpha, Hc.
  - destruct scope as [sc|].
    + cbn [option_all] in Hsc. unfold scope_ok in Hsc. apply andb_prop in Hsc as [Hn Hc].
      cbn [List.app match_scope N.eqb Pos.eqb]. rewrite <- List.app_assoc. cbn [List.app].
      rewrite (plus_then_longest (fun c => negb (c =? 41)%N) sc _ _ (prefix, description));
        [reflexivity | destruct sc; [discriminate|discriminate] | exact Hc | reflexivity |].
      cbn [N.eqb Pos.eqb]. exact Hd.
    + cbn [List.app]. rewrite (match_scope_none _ _ _ H1). exact Hd.
Qed.

Lemma parse_commit_line_stripped (line : pystr) :
  str_strip line <> [] ->
  parse_commit_line line
  = match match_commit_line (remove_leading_dash (str_strip line)) with
    | Some (group1, group2) =>
        if existsb (pystr_eqb (str_lower group1)) IGNORED_PREFIXES then None
        else Some (category_of (str_lower group1), str_strip group2)
    | None => None
    end.
Proof.
  unfold parse_commit_line. destruct (str_strip line); [contradiction|reflexivity].
Qed.

(** X6. A line in the conventional form is accepted, unless its prefix is
    an ignored one: the category is the one of the prefix in lower case
    ([Changes] for a prefix that [CATEGORY_MAP] does not know) and the
    description comes back as it is.  The leading dash, the scope, the
    case of the prefix and the whitespace around change nothing. *)
Theorem parse_commit_line_conventional (lead : pystr) (dash : option pystr)
    (prefix : pystr) (scope : option pystr) (w1 w2 description trail : pystr) :
  all_space lead = true -> all_space trail = true ->
  option_all all_space dash = true ->
  prefix <> [] -> forallb is_alpha prefix = true ->
  option_all scope_ok scope = true ->
  all_space w1 = true -> all_space w2 = true ->
  description <> [] -> str_strip description = description ->
  forallb (fun c => negb (c =? 10)%N) description = true ->
  parse_commit_line (conventional_line lead dash prefix scope w1 w2 description trail)
  = if existsb (pystr_eqb (str_lower prefix)) IGNORED_PREFIXES then None
    else Some (category_of (str_lower prefix), description).
Proof.
  intros Hl Ht Hdash Hp Ha Hsc H1 H2 Hne Hd Hnl.
  assert (stops is_space description) as Hsd by (rewrite <- Hd; apply str_strip_stops).
  assert (rstripped description) as Hrd by (rewrite <- Hd; apply rstripped_str_strip).
  set (body := prefix ++ match scope with Some sc => 40%N :: sc ++ [41%N] | None => [] end
               ++ w1 ++ 58%N :: w2 ++ description).
  assert (stops is_space body) as Hsb.
  { unfold body. destruct prefix as [|c p]; [contradiction|]. cbn [forallb] in Ha.
    apply andb_prop in Ha as [Hc _]. apply is_alpha_not_space, Hc. }
  assert (rstripped body) as Hrb.
  { unfold body. rewrite !List.app_assoc. rewrite <- List.app_assoc.
    change (?a ++ 58%N :: w2 ++ description) with (a ++ (58%N :: w2) ++ description).
    rewrite !List.app_assoc. apply rstripped_app; assumption. }
  assert (body <> []) as Hnb by (unfold body; destruct prefix; [contradiction|discriminate]).
  set (x := match dash with Some ws => 45%N :: ws | None => [] end ++ body).
  assert (conventional_line lead dash prefix scope w1 w2 description trail
          = lead ++ x ++ trail) as ->.
  { unfold conventional_line, x, body. rewrite <- !List.app_assoc. cbn [List.app].
    rewrite <- !List.app_assoc. reflexivity. }
  assert (remove_leading_dash x = body) as Hx.
  { unfold x. destruct dash as [ws|]; cbn [List.app remove_leading_dash N.eqb Pos.eqb].
    - rewrite lstrip_chars_app by exact Hdash. apply lstrip_chars_stops, Hsb.
    - unfold body. destruct prefix as [|c p]; [contradiction|]. cbn [List.app remove_leading_dash].
      cbn [forallb] in Ha. apply andb_prop in Ha as [Hc _].
      destruct (N.eqb_spec c 45) as [->|]; [discriminate|reflexivity]. }
  assert (x <> []) as Hnx by (unfold x; destruct dash; [discriminate|exact Hnb]).
  assert (str_strip (lead ++ x ++ trail) = x) as Hstrip.
  { apply str_strip_between; try assumption.
    - unfold x. destruct dash; [reflexivity|exact Hsb].
    - unfold x. apply rstripped_app; assumption. }
  rewrite parse_commit_line_stripped by (rewrite Hstrip; exact Hnx).
  rewrite Hstrip, Hx. unfold body.
  rewrite match_commit_line_complete by assumption.
  rewrite Hd. reflexivity.
Qed.

Lemma parse_commit_line_conventional_witness :
  parse_commit_line
    (conventional_line (py "  ") (Some (py " ")) (py "Fix") (Some (py "gui")) [] (py " ")
       (py "close the window") (py " "))
  = Some (py "Bugfixes", py "close the window")
  /\ parse_commit_line
       (conventional_line [] None (py "Release") None [] (py " ") (py "1.2.0") [])
     = None
  /\ parse_commit_line
       (conventional_line [] None (py "wip") None [] (py " ") (py "try again") [])
     = Some (py "Changes", py "try again").
Proof.
  split; [|split].
  - apply (parse_commit_line_conventional (py "  ") (Some (py " ")) (py "Fix")
             (Some (py "gui")) [] (py " ") (py "close the window") (py " "));
      try reflexivity; discriminate.
  - apply (parse_commit_line_conventional [] None (py "Release") None [] (py " ")
             (py "1.2.0") []); try reflexivity; discriminate.
  - apply (parse_commit_line_conventional [] None (py "wip") None [] (py " ")
             (py "try again") []); try reflexivity; discriminate.
Defined.

(** ** [categorize_commits] *)

Lemma entries_of_append_entry (categorized : list (pystr * list pystr))
    (category description k : pystr) :
  entries_of (append_entry categorized category description) k
  = entries_of categorized k ++ (if pystr_eqb category k then [description] else []).
Proof.
  unfold entries_of. induction categorized as [|[c entries] rest IH].
  - cbn [append_entry dict_get]. destruct (pystr_eqb category k); reflexivity.
  - cbn [append_entry dict_get]. destruct (pystr_eqb c category) eqn:Ec.
    + apply pystr_eqb_eq in Ec. subst c. cbn [dict_get].
      destruct (pystr_eqb category k); [reflexivity|].
      destruct (dict_get rest k); rewrite List.app_nil_r; reflexivity.
    + cbn [dict_get]. destruct (pystr_eqb c k) eqn:Ek; [|exact IH].
      apply pystr_eqb_eq in Ek. subst c.
      destruct (pystr_eqb category k) eqn:E2.
      * apply pystr_eqb_eq in E2. subst k. rewrite pystr_eqb_refl in Ec. discriminate.
      * rewrite List.app_nil_r. reflexivity.
Qed.

Lemma entries_of_add_line (categorized : list (pystr * list pystr)) (line k : pystr) :
  entries_of (add_line categorized line) k
  = entries_of categorized k ++ entries_in k (accepted line).
Proof.
  unfold add_line, accepted, entries_in.
  destruct (parse_commit_line line) as [[category description]|].
  - rewrite entries_of_append_entry. cbn [filter fst].
    destruct (pystr_eqb category k); reflexivity.
  - cbn. rewrite List.app_nil_r. reflexivity.
Qed.

Lemma entries_in_app (k : pystr) (a b : list (pystr * pystr)) :
  entries_in k (a ++ b) = entries_in k a ++ entries_in k b.
Proof. unfold entries_in. rewrite filter_app, map_app. reflexivity. Qed.

Lemma entries_of_add_lines (lines : list pystr) (categorized : list (pystr * list pystr))
    (k : pystr) :
  entries_of (fold_left add_line lines categorized) k
  = entries_of categorized k ++ entries_in k (flat_map accepted lines).
Proof.
  revert categorized. induction lines as [|line lines IH]; intros categorized.
  - cbn. rewrite List.app_nil_r. reflexivity.
  - cbn [fold_left flat_map]. rewrite IH, entries_of_add_line, entries_in_app.
    rewrite <- List.app_assoc. reflexivity.
Qed.

Lemma parse_commit_line_empty : parse_commit_line [] = None.
Proof. reflexivity. Qed.

(** The test on the body changes nothing: an empty body is one empty
    line, which is not accepted. *)
Lemma categorize_commit_lines (categorized : list (pystr * list pystr)) (commit : Commit) :
  categorize_commit categorized commit
  = fold_left add_line (subject commit :: str_split 10 (body commit)) categorized.
Proof.
  unfold categorize_commit. cbn [fold_left]. destruct (body commit) as [|c b]; [|reflexivity].
  cbn [str_split fold_left]. unfold add_line at 2. rewrite parse_commit_line_empty.
  reflexivity.
Qed.

Lemma entries_of_categorize (commits : list Commit) (categorized : list (pystr * list pystr))
    (k : pystr) :
  entries_of (fold_left categorize_commit commits categorized) k
  = entries_of categorized k
    ++ entries_in k
         (flat_map accepted
            (flat_map (fun commit => subject commit :: str_split 10 (body commit)) commits)).
Proof.
  revert categorized. induction commits as [|commit commits IH]; intros categorized.
  - cbn. rewrite List.app_nil_r. reflexivity.
  - cbn [fold_left flat_map]. rewrite IH, categorize_commit_lines, entries_of_add_lines.
    rewrite flat_map_app, entries_in_app, <- List.app_assoc. reflexivity.
Qed.

(** X7. Grouping loses and reorders nothing: under every category,
    [categorize_commits] holds exactly the descriptions of the accepted
    lines of that category, subjects and body lines taken commit by commit,
    in their order. *)
Theorem categorize_commits_groups (commits : list Commit) (category : pystr) :
  entries_of (categorize_commits commits) category
  = map snd
      (filter (fun r => pystr_eqb (fst r) category) (accepted_lines commits)).
Proof.
  unfold categorize_commits. rewrite entries_of_categorize. reflexivity.
Qed.

Lemma append_entry_keys (categorized : list (pystr * list pystr))
    (category description : pystr) :
  map fst (append_entry categorized category description)
  = if dict_contains categorized category then map fst categorized
    else map fst categorized ++ [category].
Proof.
  unfold dict_contains. induction categorized as [|[c entries] rest IH]; [reflexivity|].
  cbn [append_entry dict_get]. destruct (pystr_eqb c category); [reflexivity|].
  cbn [map fst]. rewrite IH. destruct (dict_get rest category); reflexivity.
Qed.

Lemma dict_get_None_keys_gen {A} (d : list (pystr * A)) (k : pystr) :
  dict_get d k = None -> forall k', In k' (map fst d) -> pystr_eqb k' k = false.
Proof.
  induction d as [|[k1 v1] d IH]; intros Hg k' Hin; [destruct Hin|].
  cbn [dict_get] in Hg. destruct (pystr_eqb k1 k) eqn:E; [discriminate|].
  destruct Hin as [<-|Hin]; [exact E | apply IH; assumption].
Qed.

Lemma append_entry_well_grouped (categorized : list (pystr * list pystr))
    (category description : pystr) :
  In category (map snd CATEGORY_MAP) ->
  well_grouped categorized -> well_grouped (append_entry categorized category description).
Proof.
  intros Hc [Hd Hf]. split.
  - rewrite append_entry_keys. unfold dict_contains.
    destruct (dict_get categorized category) eqn:Hg; [exact Hd|].
    apply distinct_snoc; [exact Hd | apply (dict_get_None_keys_gen _ _ Hg)].
  - clear Hd. induction Hf as [|[c entries] rest [H1 H2] Hf IH]; cbn [append_entry].
    + constructor; [|constructor]. split; [exact Hc | discriminate].
    + destruct (pystr_eqb c category); constructor; try assumption.
      * split; [exact H1|]. cbn [snd]. destruct entries; discriminate.
      * split; assumption.
Qed.

Lemma parse_commit_line_official (line category description : pystr) :
  parse_commit_line line = Some (category, description) ->
  In category (map snd CATEGORY_MAP).
Proof.
  unfold parse_commit_line. destruct (str_strip line); [discriminate|].
  destruct (match_commit_line _) as [[g1 g2]|]; [|discriminate].
  destruct (existsb _ _); [discriminate|]. intros [= <- _]. apply category_of_official.
Qed.

Lemma add_line_well_grouped (categorized : list (pystr * list pystr)) (line : pystr) :
  well_grouped categorized -> well_grouped (add_line categorized line).
Proof.
  intros H. unfold add_line.
  destruct (parse_commit_line line) as [[category description]|] eqn:E; [|exact H].
  apply append_entry_well_grouped; [apply (parse_commit_line_official _ _ _ E) | exact H].
Qed.

Lemma add_lines_well_grouped (lines : list pystr) (categorized : list (pystr * list pystr)) :
  well_grouped categorized -> well_grouped (fold_left add_line lines categorized).
Proof.
  revert categorized. induction lines as [|line lines IH]; intros categorized H; [exact H|].
  cbn [fold_left]. apply IH, add_line_well_grouped, H.
Qed.

Lemma categorize_well_grouped (commits : list Commit) (categorized : list (pystr * list pystr)) :
  well_grouped categorized -> well_grouped (fold_left categorize_commit commits categorized).
Proof.
  revert categorized. induction commits as [|commit commits IH]; intros categorized H;
    [exact H|].
  cbn [fold_left]. apply IH. rewrite categorize_commit_lines.
  apply add_lines_well_grouped, H.
Qed.

(** X8. In what [categorize_commits] returns, every category is one of
    the values of [CATEGORY_MAP], no category comes twice, and no
    category has an empty list of entries. *)
Theorem categorize_commits_well_grouped (commits : list Commit) :
  distinct (map fst (categorize_commits commits)) = true
  /\ Forall (fun kv => In (fst kv) (map snd CATEGORY_MAP) /\ snd kv <> [])
       (categorize_commits commits).
Proof.
  apply (categorize_well_grouped commits []). split; [reflexivity | constructor].
Qed.

(** ** Wrapping the entries of the changelog *)

Lemma len_app_pystr {A} (a b : list A) : len (a ++ b) = len a + len b.
Proof. unfold len. rewrite length_app. lia. Qed.

Lemma len_nonneg {A} (a : list A) : 0 <= len a.
Proof. unfold len. lia. Qed.

Lemma str_join_snoc (sep : pystr) (l : list pystr) (w : pystr) :
  l <> [] -> str_join sep (l ++ [w]) = str_join sep l ++ sep ++ w.
Proof.
  induction l as [|p l IH]; intros Hne; [contradiction|].
  destruct l as [|q l].
  - reflexivity.
  - change (str_join sep ((p :: q :: l) ++ [w]))
      with (p ++ sep ++ str_join sep ((q :: l) ++ [w])).
    rewrite IH by discriminate.
    change (str_join sep (p :: q :: l)) with (p ++ sep ++ str_join sep (q :: l)).
    rewrite <- !List.app_assoc. reflexivity.
Qed.

Lemma line_width_snoc (l : list pystr) (w : pystr) :
  l <> [] -> line_width (l ++ [w]) = line_width l + (len w + 1).
Proof.
  intros Hne. unfold line_width. rewrite str_join_snoc by exact Hne.
  rewrite !len_app_pystr. change (len (py " ")) with 1. lia.
Qed.

Lemma line_width_single (w : pystr) : line_width [w] = 6 + len w.
Proof. reflexivity. Qed.

Lemma len_entry_line (first : bool) (g : list pystr) :
  len (entry_line first g) = line_width g.
Proof.
  unfold entry_line, line_width. rewrite len_app_pystr. destruct first; reflexivity.
Qed.

Lemma wrapped_lines_snoc (done : list (list pystr)) (g : list pystr) :
  wrapped_lines (done ++ [g])
  = wrapped_lines done
    ++ [entry_line (match done with [] => true | _ => false end) g].
Proof.
  destruct done as [|d done]; [reflexivity|].
  cbn [List.app wrapped_lines]. rewrite map_app. reflexivity.
Qed.

(** The loop over the words, started on an open line. *)
Lemma wrap_fold (words : list pystr) :
  forall (st : wrap_state) (done : list (list pystr)) (cur : list pystr),
    cur <> [] ->
    lines_out st = wrapped_lines done ->
    current_line st = cur ->
    current_length st = line_width cur ->
    is_first_line st = match done with [] => true | _ => false end ->
    (let st' := fold_left wrap_word words st in
     match current_line st' with
     | [] => lines_out st'
     | _ => lines_out st' ++ [entry_line (is_first_line st') (current_line st')]
     end) = wrapped_lines (done ++ fill_groups cur words).
Proof.
  induction words as [|w words IH]; intros st done cur Hne Hout Hcur Hlen Hfirst.
  - cbn [fold_left fill_groups]. cbv zeta. rewrite Hcur.
    destruct cur as [|c cur]; [contradiction|].
    rewrite wrapped_lines_snoc, Hout, Hfirst. reflexivity.
  - cbn [fold_left fill_groups].
    destruct cur as [|c cur]; [contradiction|].
    destruct (line_width (c :: cur) + (len w + 1) <=? 80) eqn:E.
    + assert (Hstep : wrap_word st w
                      = {| lines_out := lines_out st;
                           current_line := (c :: cur) ++ [w];
                           current_length := line_width (c :: cur) + (len w + 1);
                           is_first_line := is_first_line st |}).
      { unfold wrap_word. rewrite Hcur, Hlen, E. reflexivity. }
      rewrite Hstep.
      apply IH; cbn [lines_out current_line current_length is_first_line];
        try assumption.
      * discriminate.
      * reflexivity.
      * rewrite line_width_snoc by discriminate. reflexivity.
    + assert (Hstep : wrap_word st w
                      = {| lines_out :=
                             lines_out st ++ [entry_line (is_first_line st) (c :: cur)];
                           current_line := [w];
                           current_length := 6 + len w;
                           is_first_line := false |}).
      { unfold wrap_word. rewrite Hcur, Hlen, E. reflexivity. }
      rewrite Hstep.
      replace (done ++ (c :: cur) :: fill_groups [w] words)
        with ((done ++ [c :: cur]) ++ fill_groups [w] words)
        by (rewrite <- List.app_assoc; reflexivity).
      apply IH; cbn [lines_out current_line current_length is_first_line].
      * discriminate.
      * rewrite wrapped_lines_snoc, Hout, Hfirst. reflexivity.
      * reflexivity.
      * reflexivity.
      * destruct done; reflexivity.
Qed.

Lemma wrap_entry_word_groups (entry : pystr) :
  wrap_entry entry = wrapped_lines (word_groups (str_split_ws entry)).
Proof.
  unfold wrap_entry, word_groups. destruct (str_split_ws entry) as [|w words].
  - reflexivity.
  - cbn [fold_left].
    apply (wrap_fold words (wrap_word wrap_start w) [] [w]); try reflexivity.
    discriminate.
Qed.

Lemma fill_groups_concat (words : list pystr) :
  forall cur, concat (fill_groups cur words) = cur ++ words.
Proof.
  induction words as [|w words IH]; intros cur; cbn [fill_groups].
  - cbn. rewrite List.app_nil_r. reflexivity.
  - destruct (_ <=? 80).
    + rewrite IH, <- List.app_assoc. reflexivity.
    + cbn [concat]. rewrite IH. reflexivity.
Qed.

Lemma fill_groups_nonempty (words : list pystr) :
  forall cur, cur <> [] -> Forall (fun g => g <> []) (fill_groups cur words).
Proof.
  induction words as [|w words IH]; intros cur Hne; cbn [fill_groups].
  - constructor; [exact Hne | constructor].
  - destruct (_ <=? 80).
    + apply IH. destruct cur; discriminate.
    + constructor; [exact Hne | apply IH; discriminate].
Qed.

Lemma fill_groups_head (words : list pystr) :
  forall cur, exists r rest, fill_groups cur words = (cur ++ r) :: rest.
Proof.
  induction words as [|w words IH]; intros cur; cbn [fill_groups].
  - exists [], []. rewrite List.app_nil_r. reflexivity.
  - destruct (_ <=? 80).
    + destruct (IH (cur ++ [w])) as (r & rest & ->).
      exists (w :: r), rest. rewrite <- List.app_assoc. reflexivity.
    + exists [], (fill_groups [w] words). rewrite List.app_nil_r. reflexivity.
Qed.

Lemma fill_groups_forced (words : list pystr) :
  forall cur, cur <> [] -> forced_breaks (fill_groups cur words) = true.
Proof.
  induction words as [|w words IH]; intros cur Hne; cbn [fill_groups].
  - reflexivity.
  - destruct (line_width cur + (len w + 1) <=? 80) eqn:E.
    + apply IH. destruct cur; discriminate.
    + assert (H := IH [w] ltac:(discriminate)).
      destruct (fill_groups_head words [w]) as (r & rest & Eq).
      rewrite Eq in *. cbn [List.app] in *.
      change (forced_breaks (cur :: (w :: r) :: rest))
        with ((80 <? line_width cur + (len w + 1)) && forced_breaks ((w :: r) :: rest)).
      rewrite H. apply Z.leb_gt in E. apply Z.ltb_lt in E. rewrite E. reflexivity.
Qed.

Lemma fill_groups_fit (words : list pystr) :
  forall cur,
    (forall w, In w (cur ++ words) -> len w <= 74) ->
    line_width cur <= 80 ->
    Forall (fun g => line_width g <= 80) (fill_groups cur words).
Proof.
  induction words as [|w words IH]; intros cur Hw Hcur; cbn [fill_groups].
  - constructor; [exact Hcur | constructor].
  - destruct (line_width cur + (len w + 1) <=? 80) eqn:E.
    + apply IH.
      * intros x Hx. apply Hw. rewrite <- List.app_assoc in Hx. exact Hx.
      * apply Z.leb_le in E. destruct cur as [|c cur].
        -- cbn [List.app]. rewrite line_width_single.
           specialize (Hw w (or_introl eq_refl)). lia.
        -- rewrite line_width_snoc by discriminate. exact E.
    + constructor; [exact Hcur|]. apply IH.
      * intros x Hx. apply Hw. apply in_or_app. right. exact Hx.
      * rewrite line_width_single.
        assert (len w <= 74) by (apply Hw, in_or_app; right; left; reflexivity). lia.
Qed.

Lemma len_str_join_In (sep : pystr) (g : list pystr) (w : pystr) :
  In w g -> len w <= len (str_join sep g).
Proof.
  induction g as [|p g IH]; intros Hin; [destruct Hin|].
  destruct g as [|q g].
  - destruct Hin as [<-|[]]. cbn [str_join]. lia.
  - change (str_join sep (p :: q :: g)) with (p ++ sep ++ str_join sep (q :: g)).
    rewrite !len_app_pystr.
    assert (0 <= len p) by apply len_nonneg.
    assert (0 <= len sep) by apply len_nonneg.
    destruct Hin as [<-|Hin].
    + assert (0 <= len (str_join sep (q :: g))) by apply len_nonneg. lia.
    + specialize (IH Hin). lia.
Qed.

Lemma map_len_wrapped_lines (groups : list (list pystr)) :
  map len (wrapped_lines groups) = map line_width groups.
Proof.
  destruct groups as [|g groups]; [reflexivity|].
  cbn [wrapped_lines map]. f_equal.
  - apply (len_entry_line true).
  - rewrite map_map. apply map_ext. intros g'. apply (len_entry_line false).
Qed.

Lemma word_groups_concat (words : list pystr) : concat (word_groups words) = words.
Proof.
  destruct words as [|w words]; [reflexivity|].
  cbn [word_groups]. apply fill_groups_concat.
Qed.

(** X9. Wrapping keeps the words of an entry: the lines written for an
    entry are its words (what [entry.split()] gives) in their order, put in
    groups of at least one word joined by single spaces, the first line
    behind four spaces and a dash, every other line behind six spaces. *)
Theorem wrap_entry_keeps_words (entry : pystr) :
  exists groups : list (list pystr),
    wrap_entry entry = wrapped_lines groups
    /\ concat groups = str_split_ws entry
    /\ Forall (fun g => g <> []) groups.
Proof.
  exists (word_groups (str_split_ws entry)). split; [|split].
  - apply wrap_entry_word_groups.
  - apply word_groups_concat.
  - destruct (str_split_ws entry) as [|w words]; [constructor|].
    apply fill_groups_nonempty. discriminate.
Qed.

(** X10. The lines written for an entry all have at most 80 characters
    exactly when every word of the entry has at most 74: a longer word
    stands on a line that runs over, and nothing else does. *)
Theorem wrap_entry_fits_80 (entry : pystr) :
  Forall (fun line => len line <= 80) (wrap_entry entry)
  <-> Forall (fun word => len word <= 74) (str_split_ws entry).
Proof.
  rewrite wrap_entry_word_groups.
  assert (Hlines : forall groups,
             Forall (fun line => len line <= 80) (wrapped_lines groups)
             <-> Forall (fun g => line_width g <= 80) groups).
  { intros groups. rewrite <- (Forall_map len (fun n => n <= 80)).
    rewrite <- (Forall_map line_width (fun n => n <= 80)).
    rewrite map_len_wrapped_lines. reflexivity. }
  rewrite Hlines. split; intros H.
  - rewrite <- (word_groups_concat (str_split_ws entry)).
    apply Forall_forall. intros w Hw. apply in_concat in Hw as (g & Hg & Hwg).
    rewrite Forall_forall in H. specialize (H g Hg). unfold line_width in H.
    pose proof (len_str_join_In (py " ") g w Hwg). lia.
  - destruct (str_split_ws entry) as [|w words]; [constructor|].
    cbn [word_groups]. rewrite Forall_forall in H. apply fill_groups_fit.
    + intros x Hx. apply H. exact Hx.
    + rewrite line_width_single. specialize (H w (or_introl eq_refl)). lia.
Qed.

(** X11. No line break is made before it has to: the word that opens a
    line would have ended past column 80 on the line before. *)
Theorem wrap_entry_breaks_forced (entry : pystr) :
  exists groups : list (list pystr),
    wrap_entry entry = wrapped_lines groups
    /\ concat groups = str_split_ws entry
    /\ forced_breaks groups = true.
Proof.
  exists (word_groups (str_split_ws entry)). split; [|split].
  - apply wrap_entry_word_groups.
  - apply word_groups_concat.
  - destruct (str_split_ws entry) as [|w words]; [reflexivity|].
    apply fill_groups_forced. discriminate.
Qed.

(** ** The order of the categories of a changelog entry *)

Lemma dict_contains_key {A} (d : list (pystr * A)) (k : pystr) :
  In k (map fst d) -> dict_contains d k = true.
Proof.
  unfold dict_contains. induction d as [|[k1 v1] d IH]; intros Hin; [destruct Hin|].
  cbn [dict_get]. destruct (pystr_eqb k1 k) eqn:E; [reflexivity|].
  destruct Hin as [Hk|Hin]; [|apply IH, Hin].
  cbn in Hk. subst k1. rewrite pystr_eqb_refl in E. discriminate.
Qed.

Lemma existsb_filter_key (q : pystr -> bool) (k : pystr) (l : list pystr) :
  q k = true ->
  existsb (fun c => pystr_eqb c k) (filter q l) = existsb (fun c => pystr_eqb c k) l.
Proof.
  intros Hq. induction l as [|c l IH]; [reflexivity|].
  cbn [filter existsb]. destruct (pystr_eqb c k) eqn:E.
  - apply pystr_eqb_eq in E. subst c. rewrite Hq. cbn [existsb].
    rewrite pystr_eqb_refl. reflexivity.
  - destruct (q c); cbn [existsb]; rewrite ?E; exact IH.
Qed.

Lemma distinct_head (k : pystr) (ks : list pystr) :
  distinct (k :: ks) = true ->
  distinct ks = true /\ forall k', In k' ks -> pystr_eqb k k' = false.
Proof.
  cbn [distinct]. intros H. apply andb_prop in H as [Hk Hd]. split; [exact Hd|].
  intros k' Hin. apply negb_true_iff in Hk.
  destruct (pystr_eqb k k') eqn:E; [|reflexivity].
  assert (existsb (pystr_eqb k) ks = true) by (apply existsb_exists; eauto).
  congruence.
Qed.

(** The second loop, lines 138-140, over keys that are not yet in [acc]. *)
Lemma sorted_categories_rest (first ks : list pystr) :
  forall acc,
    distinct ks = true ->
    (forall k, In k ks -> existsb (fun c => pystr_eqb c k) acc = false) ->
    (forall k, In k ks -> existsb (fun c => pystr_eqb c k) first = is_official k) ->
    fold_left
      (fun sorted cat =>
         if existsb (fun c => pystr_eqb c cat) sorted then sorted else sorted ++ [cat])
      ks (first ++ acc)
    = first ++ acc ++ filter (fun k => negb (is_official k)) ks.
Proof.
  induction ks as [|k ks IH]; intros acc Hd Hacc Hfirst.
  - cbn. rewrite List.app_nil_r. reflexivity.
  - apply distinct_head in Hd as [Hd Hk].
    cbn [fold_left filter]. rewrite existsb_app.
    rewrite (Hfirst k (or_introl eq_refl)), (Hacc k (or_introl eq_refl)), orb_false_r.
    destruct (is_official k) eqn:E; cbn [negb].
    + apply IH; [exact Hd | |]; intros k' Hin; [apply Hacc | apply Hfirst]; right; exact Hin.
    + rewrite <- List.app_assoc. rewrite IH.
      * rewrite <- List.app_assoc. reflexivity.
      * exact Hd.
      * intros k' Hin. rewrite existsb_app. cbn [existsb].
        rewrite (Hacc k' (or_intror Hin)), (Hk k' Hin). reflexivity.
      * intros k' Hin. apply Hfirst. right; exact Hin.
Qed.

Lemma sorted_categories_split (categories : list (pystr * list pystr)) :
  distinct (map fst categories) = true ->
  sorted_categories categories
  = filter (fun cat => dict_contains categories cat) (map snd CATEGORY_MAP)
    ++ filter (fun k => negb (is_official k)) (map fst categories).
Proof.
  intros Hd. unfold sorted_categories.
  rewrite <- (List.app_nil_r (filter _ (map snd CATEGORY_MAP))) at 1.
  rewrite sorted_categories_rest; [reflexivity | exact Hd | reflexivity |].
  intros k Hin. unfold is_official. apply existsb_filter_key.
  apply dict_contains_key, Hin.
Qed.

Lemma is_official_In (k : pystr) : In k (map snd CATEGORY_MAP) -> is_official k = true.
Proof.
  intros Hin. unfold is_official. apply existsb_exists. exists k.
  split; [exact Hin | apply pystr_eqb_refl].
Qed.

Lemma existsb_filter_nil {A} (p : A -> bool) (l : list A) :
  existsb p l = match filter p l with [] => false | _ => true end.
Proof.
  induction l as [|x l IH]; [reflexivity|].
  cbn [existsb filter]. destruct (p x); [reflexivity | exact IH].
Qed.

Lemma dict_get_Some_In {A} (d : list (pystr * A)) (k : pystr) (v : A) :
  dict_get d k = Some v -> exists k', In (k', v) d.
Proof.
  induction d as [|[k1 v1] d IH]; intros H; [discriminate|].
  cbn [dict_get] in H. destruct (pystr_eqb k1 k).
  - injection H as ->. exists k1. left; reflexivity.
  - destruct (IH H) as [k' Hin]. exists k'. right; exact Hin.
Qed.

(** A category is a key of the grouping exactly when a line of the
    commits was accepted under it. *)
Lemma dict_contains_categorize (commits : list Commit) (category : pystr) :
  dict_contains (categorize_commits commits) category
  = existsb (fun r => pystr_eqb (fst r) category) (accepted_lines commits).
Proof.
  pose proof (entries_of_categorize commits [] category) as He.
  pose proof (categorize_well_grouped commits [] (conj eq_refl (Forall_nil _)))
    as [_ Hne].
  fold (categorize_commits commits) in He, Hne.
  change (flat_map accepted
            (flat_map (fun commit => subject commit :: str_split 10 (body commit)) commits))
    with (accepted_lines commits) in He.
  cbn [List.app] in He. unfold entries_of at 2 in He. cbn [dict_get] in He.
  cbn [List.app] in He. unfold entries_in in He.
  rewrite existsb_filter_nil. unfold dict_contains, entries_of in *.
  destruct (dict_get (categorize_commits commits) category) as [entries|] eqn:G.
  - destruct (dict_get_Some_In _ _ _ G) as [k' Hin].
    rewrite Forall_forall in Hne. destruct (Hne _ Hin) as [_ Hentries].
    cbn [snd] in Hentries.
    destruct (filter _ (accepted_lines commits)); [|reflexivity].
    cbn [map] in He. contradiction.
  - destruct (filter _ (accepted_lines commits)); [reflexivity | discriminate].
Qed.

(** X12. The categories of an entry are written with those of
    [CATEGORY_MAP] first, in the order of [CATEGORY_MAP], and the others
    after them in the order of the dict; none is left out and none comes
    twice. *)
Theorem sorted_categories_order (categories : list (pystr * list pystr)) :
  distinct (map fst categories) = true ->
  sorted_categories categories
  = filter (fun cat => dict_contains categories cat) (map snd CATEGORY_MAP)
    ++ filter (fun k => negb (is_official k)) (map fst categories).
Proof. apply sorted_categories_split. Qed.

Lemma sorted_categories_order_witness :
  distinct (map fst mixed_categories) = true
  /\ sorted_categories mixed_categories
     = [py "Features"; py "Bugfixes"; py "Zeta"; py "Alpha"].
Proof.
  split; [reflexivity|].
  rewrite (sorted_categories_order mixed_categories); reflexivity.
Defined.

Lemma sorted_categories_categorize (commits : list Commit) :
  sorted_categories (categorize_commits commits)
  = filter
      (fun cat => existsb (fun r => pystr_eqb (fst r) cat) (accepted_lines commits))
      (map snd CATEGORY_MAP).
Proof.
  pose proof (categorize_well_grouped commits [] (conj eq_refl (Forall_nil _)))
    as [Hd Hall].
  fold (categorize_commits commits) in Hd, Hall.
  rewrite sorted_categories_split by exact Hd.
  assert (Hrest : filter (fun k => negb (is_official k))
                    (map fst (categorize_commits commits)) = []).
  { clear Hd. induction Hall as [|[k entries] rest [Hk _] _ IH]; [reflexivity|].
    cbn [map filter fst] in *. rewrite (is_official_In k Hk). cbn [negb]. exact IH. }
  rewrite Hrest, List.app_nil_r.
  apply filter_ext. intros cat. apply dict_contains_categorize.
Qed.

(** X13. For the commits of a release the sections of the changelog
    entry are the values of [CATEGORY_MAP], in its order, under which a
    line of the commits was accepted. *)
Theorem sorted_categories_of_commits (commits : list Commit) :
  sorted_categories (categorize_commits commits)
  = filter
      (fun cat => existsb (fun r => pystr_eqb (fst r) cat) (accepted_lines commits))
      (map snd CATEGORY_MAP).
Proof. apply sorted_categories_categorize. Qed.

Lemma existsb_filter_false (q : pystr -> bool) (k : pystr) (l : list pystr) :
  existsb (pystr_eqb k) l = false -> existsb (pystr_eqb k) (filter q l) = false.
Proof.
  induction l as [|c l IH]; [reflexivity|]. cbn [existsb filter]. intros H.
  apply orb_false_elim in H as [Hc Hl].
  destruct (q c); cbn [existsb]; rewrite ?Hc; apply IH, Hl.
Qed.

Lemma distinct_filter (q : pystr -> bool) (l : list pystr) :
  distinct l = true -> distinct (filter q l) = true.
Proof.
  induction l as [|c l IH]; [reflexivity|]. cbn [distinct filter]. intros H.
  apply andb_prop in H as [Hc Hl]. destruct (q c); [|apply IH, Hl].
  cbn [distinct]. rewrite (IH Hl), andb_true_r.
  apply negb_true_iff in Hc. rewrite (existsb_filter_false q c l Hc). reflexivity.
Qed.

Lemma existsb_false_all (k : pystr) (l : list pystr) :
  existsb (fun c => pystr_eqb c k) l = false ->
  forall k', In k' l -> pystr_eqb k' k = false.
Proof.
  intros H k' Hin. destruct (pystr_eqb k' k) eqn:E; [|reflexivity].
  assert (existsb (fun c => pystr_eqb c k) l = true)
    by (apply existsb_exists; exists k'; split; assumption).
  congruence.
Qed.

(** What the second loop, lines 138-140, keeps of its list. *)
Lemma sorted_categories_keeps (p : pystr -> bool) (ks : list pystr) :
  forall sorted,
    forallb p ks = true ->
    forallb p sorted = true ->
    distinct sorted = true ->
    let sorted' :=
      fold_left
        (fun sorted cat =>
           if existsb (fun c => pystr_eqb c cat) sorted then sorted else sorted ++ [cat])
        ks sorted in
    forallb p sorted' = true /\ distinct sorted' = true.
Proof.
  induction ks as [|k ks IH]; intros sorted Hks Hp Hd; [split; assumption|].
  cbn [forallb] in Hks. apply andb_prop in Hks as [Hk Hks].
  cbn [fold_left]. destruct (existsb (fun c => pystr_eqb c k) sorted) eqn:E.
  - apply IH; assumption.
  - apply IH; [exact Hks | |].
    + rewrite forallb_app. cbn [forallb]. rewrite Hp, Hk. reflexivity.
    + apply distinct_snoc; [exact Hd | apply existsb_false_all, E].
Qed.

(** X14. Every category that is written is a key of the dict, so that
    the lookup of line 144 cannot fail, and no category is written
    twice. *)
Theorem sorted_categories_are_keys (categories : list (pystr * list pystr)) :
  forallb (fun cat => dict_contains categories cat) (sorted_categories categories) = true
  /\ distinct (sorted_categories categories) = true.
Proof.
  unfold sorted_categories. apply sorted_categories_keeps.
  - apply forallb_forall. intros k Hin. apply dict_contains_key, Hin.
  - apply forallb_forall. intros k Hin. apply filter_In in Hin as [_ H]. exact H.
  - apply distinct_filter. vm_compute. reflexivity.
Qed.

(** ** From the commits to the changelog entry *)

(** X15. From the commits to the text: the changelog entry of a release
    has, after its head, one section for every value of [CATEGORY_MAP]
    under which a line of the commits was accepted, in the order of
    [CATEGORY_MAP], and in each section the descriptions of the lines
    accepted under it, in the order of the commits, each one wrapped. *)
Theorem format_changelog_entry_of_commits (iso_date_dmy : pystr -> option pystr)
    (version date : pystr) (commits : list Commit) :
  format_changelog_entry iso_date_dmy version date (categorize_commits commits)
  = str_join NL
      ([str_mul (py "-") 99; py "Version: " ++ version]
       ++ date_lines iso_date_dmy date
       ++ [[]]
       ++ flat_map
            (fun category =>
               (py "  " ++ category ++ py ":")
               :: flat_map wrap_entry
                    (map snd
                       (filter (fun r => pystr_eqb (fst r) category)
                          (accepted_lines commits))))
            (filter
               (fun cat =>
                  existsb (fun r => pystr_eqb (fst r) cat) (accepted_lines commits))
               (map snd CATEGORY_MAP))).
Proof.
  unfold format_changelog_entry. rewrite sorted_categories_categorize.
  do 4 f_equal. apply flat_map_ext. intros category. unfold category_lines.
  f_equal. f_equal. unfold categorize_commits. rewrite entries_of_categorize.
  reflexivity.
Qed.

(** ** Idempotence through a parse cycle *)

Lemma escape_char_ascii_joined (c d : N) :
  is_high_surrogate c = true -> is_low_surrogate d = true ->
  escape_char_ascii (65536 + N.lor (N.shiftl (c - 55296) 10) (d - 56320))%N
  = u_escape c ++ u_escape d.
Proof.
  unfold is_high_surrogate, is_low_surrogate. intros Hc Hd.
  apply andb_prop in Hc as [Hc1 Hc2]. apply andb_prop in Hd as [Hd1 Hd2].
  apply N.leb_le in Hc1, Hc2, Hd1, Hd2.
  rewrite lor_shiftl_low by (change (2 ^ 10)%N with 1024%N; lia).
  change (2 ^ 10)%N with 1024%N.
  set (n := ((c - 55296) * 1024 + (d - 56320))%N).
  assert (Hdiv : (n / 1024 = c - 55296)%N).
  { unfold n. rewrite N.div_add_l by discriminate.
    rewrite N.div_small by lia. lia. }
  assert (Hmod : (n mod 1024 = d - 56320)%N).
  { unfold n. rewrite N.add_comm, N.Div0.mod_add. apply N.mod_small. lia. }
  unfold escape_char_ascii.
  assert (ESCAPE_DCT (65536 + n) = None) as ->.
  { unfold ESCAPE_DCT.
    repeat match goal with
           | |- context [(?a =? ?b)%N] =>
               replace (a =? b)%N with false by (symmetry; apply N.eqb_neq; lia)
           end.
    replace (65536 + n <? 32)%N with false by (symmetry; apply N.ltb_ge; lia).
    reflexivity. }
  replace (65536 + n <=? 126)%N with false by (symmetry; apply N.leb_gt; lia).
  rewrite andb_false_r.
  replace (65536 + n <? 65536)%N with false by (symmetry; apply N.ltb_ge; lia).
  cbv zeta. rewrite (N.add_comm 65536 n), N.add_sub.
  rewrite high_half, low_half, Hdiv, Hmod.
  rewrite (N.mod_small (c - 55296) 1024) by lia.
  replace (55296 + (c - 55296))%N with c by lia.
  replace (56320 + (d - 56320))%N with d by lia.
  reflexivity.
Qed.

Lemma escape_char_ascii_bmp (c : N) :
  (127 <= c)%N -> (c < 65536)%N -> escape_char_ascii c = u_escape c.
Proof.
  intros Hlo Hhi. unfold escape_char_ascii.
  assert (ESCAPE_DCT c = None) as ->.
  { unfold ESCAPE_DCT.
    repeat match goal with
           | |- context [(?a =? ?b)%N] =>
               replace (a =? b)%N with false by (symmetry; apply N.eqb_neq; lia)
           end.
    replace (c <? 32)%N with false by (symmetry; apply N.ltb_ge; lia).
    reflexivity. }
  replace (c <=? 126)%N with false by (symmetry; apply N.leb_gt; lia).
  rewrite andb_false_r.
  replace (c <? 65536)%N with true by (symmetry; apply N.ltb_lt; lia).
  reflexivity.
Qed.

Lemma escape_char_ascii_surrogates (c d : N) :
  is_high_surrogate c = true -> is_low_surrogate d = true ->
  escape_char_ascii c = u_escape c /\ escape_char_ascii d = u_escape d.
Proof.
  unfold is_high_surrogate, is_low_surrogate. intros Hc Hd.
  apply andb_prop in Hc as [Hc1 Hc2]. apply andb_prop in Hd as [Hd1 Hd2].
  apply N.leb_le in Hc1, Hc2, Hd1, Hd2.
  split; apply escape_char_ascii_bmp; lia.
Qed.

Lemma joined_bounds (c d : N) :
  is_high_surrogate c = true -> is_low_surrogate d = true ->
  (65536 <= 65536 + N.lor (N.shiftl (c - 55296) 10) (d - 56320) <= 1114111)%N.
Proof.
  unfold is_high_surrogate, is_low_surrogate. intros Hc Hd.
  apply andb_prop in Hc as [Hc1 Hc2]. apply andb_prop in Hd as [Hd1 Hd2].
  apply N.leb_le in Hc1, Hc2, Hd1, Hd2.
  rewrite lor_shiftl_low by (change (2 ^ 10)%N with 1024%N; lia).
  change (2 ^ 10)%N with 1024%N. lia.
Qed.

(** Induction over a string, one or two characters at a time. *)
Lemma pystr_ind2 (P : pystr -> Prop) :
  P [] ->
  (forall c, P [c]) ->
  (forall c d r, P r -> P (d :: r) -> P (c :: d :: r)) ->
  forall s, P s.
Proof.
  intros H0 H1 H2 s.
  assert (P s /\ forall c, P (c :: s)) as [H _]; [|exact H].
  induction s as [|d r [IH1 IH2]].
  - split; [exact H0 | exact H1].
  - split; [apply IH2 | intros c; apply H2; [exact IH1 | apply IH2]].
Qed.

Lemma join_pairs_cons2 (c d : N) (r : pystr) :
  join_pairs (c :: d :: r)
  = if is_high_surrogate c && is_low_surrogate d
    then (65536 + N.lor (N.shiftl (c - 55296) 10) (d - 56320))%N :: join_pairs r
    else c :: join_pairs (d :: r).
Proof. reflexivity. Qed.

Lemma flat_map_join_pairs (s : pystr) :
  flat_map escape_char_ascii (join_pairs s) = flat_map escape_char_ascii s.
Proof.
  induction s as [|c|c d r IH1 IH2] using pystr_ind2; [reflexivity | reflexivity |].
  rewrite join_pairs_cons2.
  destruct (is_high_surrogate c && is_low_surrogate d) eqn:E.
  - apply andb_prop in E as [Hc Hd].
    destruct (escape_char_ascii_surrogates c d Hc Hd) as [Ec Ed].
    cbn [flat_map]. rewrite (escape_char_ascii_joined c d Hc Hd), IH1, Ec, Ed.
    rewrite <- List.app_assoc. reflexivity.
  - change (flat_map escape_char_ascii (c :: join_pairs (d :: r)))
      with (escape_char_ascii c ++ flat_map escape_char_ascii (join_pairs (d :: r))).
    rewrite IH2. reflexivity.
Qed.

(** Both keys are printed alike. *)
Lemma encode_join_pairs (s : pystr) :
  encode_basestring_ascii (join_pairs s) = encode_basestring_ascii s.
Proof. unfold encode_basestring_ascii. rewrite flat_map_join_pairs. reflexivity. Qed.

Lemma is_str_join_pairs (s : pystr) : is_str s = true -> is_str (join_pairs s) = true.
Proof.
  induction s as [|c|c d r IH1 IH2] using pystr_ind2; [reflexivity | intros H; exact H |].
  intros H. rewrite join_pairs_cons2.
  assert (is_str (d :: r) = true /\ is_str r = true) as [Hdr Hr].
  { unfold is_str in *. cbn [forallb] in *. apply andb_prop in H as [_ H].
    split; [exact H|]. apply andb_prop in H as [_ H]. exact H. }
  destruct (is_high_surrogate c && is_low_surrogate d) eqn:E.
  - apply andb_prop in E as [Hc Hd].
    pose proof (joined_bounds c d Hc Hd) as [_ Hhi].
    unfold is_str in *. cbn [forallb]. apply andb_true_intro. split.
    + apply N.leb_le. exact Hhi.
    + apply IH1, Hr.
  - unfold is_str in *. cbn [forallb] in *. apply andb_prop in H as [Hc _].
    rewrite Hc. apply IH2, Hdr.
Qed.

Lemma join_pairs_head_low (s : pystr) (h : N) (t : pystr) :
  join_pairs s = h :: t -> is_low_surrogate h = true ->
  exists r, s = h :: r.
Proof.
  destruct s as [|c [|d r]]; [discriminate | |].
  - intros [= <- _] _. exists []. reflexivity.
  - rewrite join_pairs_cons2.
    destruct (is_high_surrogate c && is_low_surrogate d) eqn:E.
    + apply andb_prop in E as [Hc Hd].
      pose proof (joined_bounds c d Hc Hd) as [Hlo _].
      set (j := (65536 + N.lor (N.shiftl (c - 55296) 10) (d - 56320))%N) in *.
      intros Heq Hlow. exfalso. injection Heq as Hj _. subst h.
      unfold is_low_surrogate in Hlow. apply andb_prop in Hlow as [_ Hlow].
      apply N.leb_le in Hlow. lia.
    + intros [= <- _] _. exists (d :: r). reflexivity.
Qed.

Lemma pair_free_cons (c : N) (s : pystr) :
  pair_free s = true ->
  (forall h t, s = h :: t -> is_high_surrogate c && is_low_surrogate h = false) ->
  pair_free (c :: s) = true.
Proof.
  intros Hs Hh. destruct s as [|h t]; [reflexivity|].
  change (pair_free (c :: h :: t))
    with (negb (is_high_surrogate c && is_low_surrogate h) && pair_free (h :: t)).
  rewrite (Hh h t eq_refl), Hs. reflexivity.
Qed.

Lemma pair_free_join_pairs (s : pystr) : pair_free (join_pairs s) = true.
Proof.
  induction s as [|c|c d r IH1 IH2] using pystr_ind2; [reflexivity | reflexivity |].
  rewrite join_pairs_cons2.
  destruct (is_high_surrogate c && is_low_surrogate d) eqn:E.
  - apply andb_prop in E as [Hc Hd].
    apply pair_free_cons; [exact IH1|]. intros h t _.
    pose proof (joined_bounds c d Hc Hd) as [Hlo _].
    set (j := (65536 + N.lor (N.shiftl (c - 55296) 10) (d - 56320))%N) in *.
    replace (is_high_surrogate j) with false; [reflexivity|].
    symmetry. unfold is_high_surrogate. apply andb_false_intro2. apply N.leb_gt. lia.
  - apply pair_free_cons; [exact IH2|]. intros h t Heq.
    destruct (is_high_surrogate c) eqn:Hc; [|reflexivity].
    destruct (is_low_surrogate h) eqn:Hh; [|reflexivity].
    destruct (join_pairs_head_low _ _ _ Heq Hh) as (r' & Hr'). injection Hr' as -> _.
    cbn [andb] in E. congruence.
Qed.

Lemma join_pairs_pair_free (s : pystr) : pair_free s = true -> join_pairs s = s.
Proof.
  induction s as [|c|c d r IH1 IH2] using pystr_ind2; [reflexivity | reflexivity |].
  change (pair_free (c :: d :: r))
    with (negb (is_high_surrogate c && is_low_surrogate d) && pair_free (d :: r)).
  intros H. apply andb_prop in H as [Hcd Hdr]. apply negb_true_iff in Hcd.
  rewrite join_pairs_cons2, Hcd, (IH2 Hdr). reflexivity.
Qed.

Section ReadKeysFacts.

Context {F : PyFloat}.

Lemma read_keys_simple (v : value) : is_simple v = true -> read_keys v = v.
Proof. destruct v; try reflexivity; discriminate. Qed.

Lemma read_keys_all_simple (l : list value) : all_simple l = true -> map read_keys l = l.
Proof.
  unfold all_simple. intros H. rewrite <- (map_id l) at 2. apply map_ext_in.
  intros x Hx. apply read_keys_simple. rewrite forallb_forall in H. apply H, Hx.
Qed.

Lemma is_simple_read_keys (v : value) : is_simple (read_keys v) = is_simple v.
Proof. destruct v; reflexivity. Qed.

Lemma all_simple_read_keys (l : list value) : all_simple (map read_keys l) = all_simple l.
Proof.
  unfold all_simple. induction l as [|x l IH]; [reflexivity|].
  cbn [map forallb]. rewrite is_simple_read_keys, IH. reflexivity.
Qed.

(** A value without a pair of surrogates in a key is read back as it is. *)
Lemma read_keys_pair_free (v : value) : keys_pair_free v = true -> read_keys v = v.
Proof.
  induction v as [ | b | z | f | s | l IH | items IH ] using value_ind';
    try reflexivity; cbn [keys_pair_free read_keys]; intros H.
  - f_equal. rewrite <- (map_id l) at 2. apply map_ext_in. intros x Hx.
    rewrite Forall_forall in IH. rewrite forallb_forall in H. apply IH; auto.
  - f_equal. rewrite <- (map_id items) at 2. apply map_ext_in. intros [k x] Hx.
    rewrite Forall_forall in IH. rewrite forallb_forall in H.
    specialize (H _ Hx). specialize (IH _ Hx). cbn [fst snd] in *.
    apply andb_prop in H as [Hk Hv].
    rewrite (join_pairs_pair_free k Hk), (IH Hv). reflexivity.
Qed.

(** What is read back is a JSON value without a pair in a key, when no
    two keys of a dict are read back alike. *)
Lemma json_value_read_keys (v : value) :
  json_value v = true -> keys_read_distinct v = true ->
  json_value (read_keys v) = true /\ keys_pair_free (read_keys v) = true.
Proof.
  induction v as [ | b | z | f | s | l IH | items IH ] using value_ind';
    try (intros H _; split; [exact H | reflexivity]);
    cbn [json_value keys_read_distinct read_keys keys_pair_free]; intros Hj Hd.
  - rewrite Forall_forall in IH. rewrite forallb_forall in Hj, Hd.
    split; apply forallb_forall; intros y Hy; apply in_map_iff in Hy as (x & <- & Hx);
      apply IH; auto.
  - rewrite Forall_forall in IH.
    apply andb_prop in Hj as [Hj _]. apply andb_prop in Hd as [Hd1 Hd2].
    rewrite forallb_forall in Hj, Hd2.
    split.
    + apply andb_true_intro. split.
      * apply forallb_forall. intros y Hy. apply in_map_iff in Hy as ([k x] & <- & Hx).
        specialize (Hj _ Hx). cbn [fst snd] in *. apply andb_prop in Hj as [Hk Hv].
        rewrite (is_str_join_pairs k Hk). apply (IH _ Hx); [exact Hv | apply (Hd2 _ Hx)].
      * rewrite map_map. cbn [fst]. exact Hd1.
    + apply forallb_forall. intros y Hy. apply in_map_iff in Hy as ([k x] & <- & Hx).
      specialize (Hj _ Hx). cbn [fst snd] in *. apply andb_prop in Hj as [Hk Hv].
      rewrite pair_free_join_pairs. apply (IH _ Hx); [exact Hv | apply (Hd2 _ Hx)].
Qed.

Lemma length_join_pairs (s : pystr) : (length (join_pairs s) <= length s)%nat.
Proof.
  induction s as [|c|c d r IH1 IH2] using pystr_ind2; [apply le_n | apply le_n |].
  rewrite join_pairs_cons2. destruct (is_high_surrogate c && is_low_surrogate d).
  - cbn [length]. lia.
  - cbn [length] in *. lia.
Qed.

(** The entry of a dict for the key as it is read back. *)
Lemma dict_entry_value_join_pairs (indent max_line_length ci : Z) (k : pystr) (v : value) :
  key_length_matters max_line_length ci k v = false ->
  is_simple v = false ->
  format_value indent max_line_length (read_keys v) (ci + indent)
  = format_value indent max_line_length v (ci + indent) ->
  dict_entry_value indent max_line_length ci (join_pairs k) (read_keys v)
  = dict_entry_value indent max_line_length ci k v.
Proof.
  intros Hm _ Hfv. unfold dict_entry_value. rewrite Hfv.
  destruct v as [ | | | | | l | items ]; try reflexivity.
  cbn [read_keys]. unfold inline_simple_array. rewrite all_simple_read_keys.
  destruct (all_simple l) eqn:Hs; [|reflexivity].
  rewrite (read_keys_all_simple l Hs).
  destruct l as [|x l']; [destruct (_ <=? _), (_ <=? _); reflexivity|].
  unfold key_length_matters in Hm. cbv zeta in Hm. rewrite Hs in Hm.
  cbn [andb] in Hm.
  set (l := x :: l') in *.
  pose proof (length_join_pairs k) as Hlen.
  destruct (Z.leb_spec (len (json_dumps false (VList l)))
              (max_line_length - ci - len k - 5)) as [H1|H1];
    destruct (Z.leb_spec (len (json_dumps false (VList l)))
                (max_line_length - ci - len (join_pairs k) - 5)) as [H2|H2];
    try reflexivity.
  - unfold len in *. lia.
  - destruct (Z.ltb_spec max_line_length (len (json_dumps false (VList l)))) as [H3|H3].
    + apply Z.ltb_lt in H1. apply Z.leb_le in H2.
      rewrite ?H1, ?H2 in Hm. cbn [andb] in Hm. discriminate Hm.
    + symmetry. apply format_value_compact_list; assumption.
Qed.

(** The formatter does not tell a value from what is read back of it,
    when no entry is laid out otherwise for the key as it is read back. *)
Lemma format_value_read_keys (indent max_line_length : Z) (v : value) :
  forall ci, keys_keep_layout indent max_line_length v ci = true ->
    format_value indent max_line_length (read_keys v) ci
    = format_value indent max_line_length v ci.
Proof.
  induction v as [ | b | z | f | s | l IH | items IH ] using value_ind';
    try reflexivity; intros ci Hl; cbn [read_keys]; cbn [keys_keep_layout] in Hl;
    rewrite forallb_forall in Hl.
  - rewrite !format_value_list. rewrite Forall_forall in IH.
    destruct l as [|x l']; [reflexivity|]. set (l := x :: l') in *.
    change (map read_keys (x :: l')) with (map read_keys l).
    assert (map read_keys l <> []) as Hne by discriminate.
    destruct (map read_keys l) as [|y l''] eqn:Hm; [contradiction|]. rewrite <- Hm.
    rewrite all_simple_read_keys.
    destruct (all_simple l) eqn:Hs.
    + rewrite (read_keys_all_simple l Hs). reflexivity.
    + cbn [andb]. f_equal. rewrite map_map. apply map_ext_in. intros y' Hy.
      apply IH; [exact Hy | apply Hl, Hy].
  - rewrite !format_value_dict. rewrite Forall_forall in IH.
    destruct items as [|kv items']; [reflexivity|]. set (items := kv :: items') in *.
    cbn [map]. fold (map (fun kv => (join_pairs (fst kv), read_keys (snd kv))) items').
    change ((join_pairs (fst kv), read_keys (snd kv))
            :: map (fun kv => (join_pairs (fst kv), read_keys (snd kv))) items')
      with (map (fun kv => (join_pairs (fst kv), read_keys (snd kv))) items).
    assert (map (fun kv => (join_pairs (fst kv), read_keys (snd kv))) items <> [])
      as Hne by discriminate.
    destruct (map (fun kv => (join_pairs (fst kv), read_keys (snd kv))) items)
      as [|y l''] eqn:Hm; [contradiction|]. rewrite <- Hm.
    f_equal. rewrite map_map. apply map_ext_in. intros [k x] Hx.
    specialize (Hl _ Hx). specialize (IH _ Hx). cbn [fst snd] in *.
    apply andb_prop in Hl as [Hmat Hl]. apply negb_true_iff in Hmat.
    unfold dict_entry. cbn [fst snd json_dumps encode_str]. rewrite encode_join_pairs.
    do 2 f_equal.
    destruct (is_simple x) eqn:Hsx.
    + rewrite (read_keys_simple x Hsx). unfold dict_entry_value, inline_simple_array.
      destruct x; try reflexivity; discriminate.
    + apply dict_entry_value_join_pairs; [exact Hmat | exact Hsx | apply IH, Hl].
Qed.

(** Nothing is laid out otherwise at an indent that is not negative, or
    without a pair of surrogates in a key. *)
Lemma keys_keep_layout_indent (indent max_line_length : Z) (v : value) :
  0 <= indent ->
  forall ci, 0 <= ci -> keys_keep_layout indent max_line_length v ci = true.
Proof.
  intros Hi.
  induction v as [ | b | z | f | s | l IH | items IH ] using value_ind';
    try reflexivity; intros ci Hci; cbn [keys_keep_layout]; rewrite Forall_forall in IH;
    apply forallb_forall.
  - intros x Hx. apply IH; [exact Hx | lia].
  - intros [k x] Hx. cbn [fst snd]. rewrite (IH _ Hx) by lia. rewrite andb_true_r.
    apply negb_true_iff. unfold key_length_matters.
    destruct x as [ | | | | | [|y l] | ]; try reflexivity. cbv zeta.
    destruct (Z.ltb_spec max_line_length (len (json_dumps false (VList (y :: l)))))
      as [H1|H1]; [|rewrite andb_false_r; reflexivity].
    destruct (Z.leb_spec (len (json_dumps false (VList (y :: l))))
                (max_line_length - ci - len (join_pairs k) - 5)) as [H2|H2];
      [|apply andb_false_r].
    exfalso. unfold len in *. lia.
Qed.

Lemma keys_keep_layout_pair_free (indent max_line_length : Z) (v : value) :
  keys_pair_free v = true ->
  forall ci, keys_keep_layout indent max_line_length v ci = true.
Proof.
  induction v as [ | b | z | f | s | l IH | items IH ] using value_ind';
    try reflexivity; cbn [keys_pair_free keys_keep_layout]; intros Hk ci;
    rewrite Forall_forall in IH; rewrite forallb_forall in Hk; apply forallb_forall.
  - intros x Hx. apply IH; auto.
  - intros [k x] Hx. specialize (Hk _ Hx). specialize (IH _ Hx). cbn [fst snd] in *.
    apply andb_prop in Hk as [Hk1 Hk2]. rewrite (IH Hk2). rewrite andb_true_r.
    apply negb_true_iff. unfold key_length_matters.
    rewrite (join_pairs_pair_free k Hk1).
    destruct x as [ | | | | | [|y l] | ]; try reflexivity. cbv zeta.
    destruct (Z.ltb_spec (max_line_length - ci - len k - 5)
                (len (json_dumps false (VList (y :: l))))) as [H1|H1];
      [|rewrite andb_false_r; reflexivity].
    destruct (Z.leb_spec (len (json_dumps false (VList (y :: l))))
                (max_line_length - ci - len k - 5)) as [H2|H2]; [|apply andb_false_r].
    exfalso. lia.
Qed.

(** Without a pair of surrogates in a key, distinct keys are read back
    as distinct keys. *)
Lemma keys_read_distinct_pair_free (v : value) :
  json_value v = true -> keys_pair_free v = true -> keys_read_distinct v = true.
Proof.
  induction v as [ | b | z | f | s | l IH | items IH ] using value_ind';
    try reflexivity; cbn [json_value keys_pair_free keys_read_distinct]; intros Hj Hk.
  - rewrite Forall_forall in IH. rewrite forallb_forall in Hj, Hk.
    apply forallb_forall. intros x Hx. apply IH; auto.
  - rewrite Forall_forall in IH. apply andb_prop in Hj as [Hj Hd].
    rewrite forallb_forall in Hj, Hk. apply andb_true_intro. split.
    + replace (map (fun kv => join_pairs (fst kv)) items) with (map fst items); [exact Hd|].
      apply map_ext_in. intros kv Hkv. specialize (Hk _ Hkv).
      apply andb_prop in Hk as [Hk _]. symmetry. apply join_pairs_pair_free, Hk.
    + apply forallb_forall. intros kv Hkv. specialize (Hj _ Hkv). specialize (Hk _ Hkv).
      apply andb_prop in Hj as [_ Hj]. apply andb_prop in Hk as [_ Hk]. apply IH; auto.
Qed.

End ReadKeysFacts.

(** C3. Formatting what the formatted text parses to gives the same text
    again, for floats whose [repr] reads back and a JSON value in which
    no two keys of one dict are read back as the same key (two keys are,
    when they differ only in a high surrogate followed by a low one where
    the other has the character of the pair) and no entry is laid out
    otherwise for the key as it is read back.  The last holds at every
    indent that is not negative, and whenever no key holds such a pair
    ([keys_keep_layout_indent], [keys_keep_layout_pair_free]). *)
Theorem C3_idempotent_through_parse {F : PyFloat} (v : value) (indent max_line_length : Z) :
  float_repr_roundtrips F ->
  json_value v = true ->
  keys_read_distinct v = true ->
  keys_keep_layout indent max_line_length v 0 = true ->
  exists v' : value,
    json_loads (format_json_prettier v indent max_line_length) = Some v'
    /\ format_json_prettier v' indent max_line_length
       = format_json_prettier v indent max_line_length.
Proof.
  intros Hf Hj Hd Hl. exists (read_keys v).
  destruct (json_value_read_keys v Hj Hd) as [Hj' Hk'].
  assert (format_json_prettier (read_keys v) indent max_line_length
          = format_json_prettier v indent max_line_length) as Heq
    by (apply format_value_read_keys, Hl).
  rewrite <- Heq.
  split; [apply json_loads_format; assumption | reflexivity].
Qed.

Lemma C3_idempotent_through_parse_witness :
  (exists v' : value,
      json_loads (format_json_prettier sample_document 2 80) = Some v'
      /\ format_json_prettier v' 2 80 = format_json_prettier sample_document 2 80)
  /\ (exists v' : value,
         json_loads (format_json_prettier surrogate_key_dict 2 80) = Some v'
         /\ format_json_prettier v' 2 80 = format_json_prettier surrogate_key_dict 2 80)
  /\ (exists v' : value,
         json_loads (format_json_prettier surrogate_key_inside (-6) 80) = Some v'
         /\ format_json_prettier v' (-6) 80
            = format_json_prettier surrogate_key_inside (-6) 80).
Proof.
  split; [|split].
  - apply (C3_idempotent_through_parse (F := repr_floats) sample_document 2 80).
    + exact repr_floats_roundtrip.
    + vm_compute. reflexivity.
    + vm_compute. reflexivity.
    + vm_compute. reflexivity.
  - apply (C3_idempotent_through_parse (F := repr_floats) surrogate_key_dict 2 80).
    + exact repr_floats_roundtrip.
    + vm_compute. reflexivity.
    + vm_compute. reflexivity.
    + vm_compute. reflexivity.
  - apply (C3_idempotent_through_parse (F := repr_floats) surrogate_key_inside (-6) 80).
    + exact repr_floats_roundtrip.
    + vm_compute. reflexivity.
    + vm_compute. reflexivity.
    + vm_compute. reflexivity.
Defined.

(** At a negative indent a key with a pair of surrogates can change the
    layout although no two keys are read back alike: the check of line 27
    counts the two code points of the key before the parse and the one
    character after it. *)
Lemma C3_negative_indent_not_idempotent :
  json_value (F := repr_floats) surrogate_key_inside = true
  /\ keys_read_distinct (F := repr_floats) surrogate_key_inside = true
  /\ keys_keep_layout (F := repr_floats) (-7) 80 surrogate_key_inside 0 = false
  /\ json_loads (format_json_prettier (F := repr_floats) surrogate_key_inside (-7) 80)
     = Some (read_keys surrogate_key_inside)
  /\ format_json_prettier (F := repr_floats) (read_keys surrogate_key_inside) (-7) 80
     <> format_json_prettier surrogate_key_inside (-7) 80.
Proof.
  split; [reflexivity|]. split; [reflexivity|]. split; [vm_compute; reflexivity|].
  split; [vm_compute; reflexivity|].
  intros H. vm_compute in H. discriminate H.
Qed.

(** ** The formatter under the limits of the interpreter *)

Lemma for_enumerate_run_Return {A B} (f : nat -> A -> run B) (g : nat -> A -> B)
    (l : list A) :
  (forall i x, In x l -> f i x = Return (g i x)) ->
  forall i, for_enumerate_run f i l = Return (for_enumerate g i l).
Proof.
  induction l as [|x rest IH]; intros H i; [reflexivity|].
  cbn [for_enumerate_run for_enumerate].
  rewrite (H i x) by (left; reflexivity). cbn [bind].
  rewrite IH by (intros j y Hy; apply H; right; exact Hy). reflexivity.
Qed.

Lemma for_enumerate_run_inv {A B} (f : nat -> A -> run B) (l : list A) :
  forall i ys, for_enumerate_run f i l = Return ys ->
  forall x, In x l -> exists j y, f j x = Return y.
Proof.
  induction l as [|x rest IH]; intros i ys H z Hz; [destruct Hz|].
  cbn [for_enumerate_run] in H.
  destruct (f i x) as [y|e] eqn:Hy; [|discriminate]. cbn [bind] in H.
  destruct (for_enumerate_run f (S i) rest) as [ys'|e] eqn:Hrest; [|discriminate].
  destruct Hz as [<-|Hz]; [exists i, y; exact Hy | apply (IH _ _ Hrest _ Hz)].
Qed.


Lemma fold_max_bound {A} (f : A -> nat) (l : list A) (n : nat) :
  (forall x, In x l -> f x <= n)%nat -> (fold_right Nat.max 0 (map f l) <= n)%nat.
Proof.
  induction l as [|y rest IH]; intros H; cbn [map fold_right]; [lia|].
  specialize (H y (or_introl eq_refl)) as Hy.
  specialize (IH (fun x Hx => H x (or_intror Hx))). lia.
Qed.


Section RunFacts.

Context {F : PyFloat}.
Variables (indent max_line_length : Z).

Lemma inline_simple_array_run_printable (ci : Z) (k : pystr) (v : value) (fv : pystr) :
  ints_printable v = true ->
  inline_simple_array_run max_line_length ci k v fv
  = Return (inline_simple_array max_line_length ci k v fv).
Proof.
  intros Hp. unfold inline_simple_array_run, inline_simple_array, json_dumps_run.
  destruct v as [ | | | | | l | ]; try reflexivity.
  rewrite Hp. destruct (all_simple l); reflexivity.
Qed.

Lemma dict_body_Return (n : nat) (ci : Z) (i : nat) (kv : pystr * value) (limit : nat) :
  ints_printable (snd kv) = true ->
  format_value_run indent max_line_length limit (snd kv) (ci + indent)
  = Return (format_value indent max_line_length (snd kv) (ci + indent)) ->
  bind (format_value_run indent max_line_length limit (snd kv) (ci + indent))
    (fun formatted_value =>
       let comma := if Z.of_nat i <? Z.of_nat n - 1 then py "," else [] in
       bind (inline_simple_array_run max_line_length ci (fst kv) (snd kv) formatted_value)
         (fun formatted_value =>
            Return (str_mul (py " ") (ci + indent)
                    ++ json_dumps true (VStr (fst kv)) ++ py ": "
                    ++ formatted_value ++ comma)))
  = Return (dict_line indent max_line_length n ci i (fst kv) (snd kv)
              (format_value indent max_line_length (snd kv) (ci + indent))).
Proof.
  intros Hp Hrun. rewrite Hrun. cbn [bind]. cbv zeta.
  rewrite inline_simple_array_run_printable by exact Hp. reflexivity.
Qed.

(** With the frames it takes and [int]s that can be printed, the run
    returns what [format_value] computes. *)
Lemma format_value_run_enough (v : value) :
  forall (n : nat) (ci : Z),
    ints_printable v = true ->
    (call_depth max_line_length v <= n)%nat ->
    format_value_run indent max_line_length n v ci
    = Return (format_value indent max_line_length v ci).
Proof.
  induction v as [ | b | z | f | s | l IH | items IH ] using value_ind';
    intros n ci Hp Hn;
    (destruct n as [|n];
     [match type of Hn with (call_depth _ ?v <= _)%nat => pose proof (call_depth_pos max_line_length v) end;
      lia|]);
    try reflexivity.
  - cbn [format_value_run format_value]. unfold json_dumps_run. rewrite Hp. reflexivity.
  - destruct l as [|x l']; [reflexivity|].
    cbn [call_depth] in Hn. set (l := x :: l') in *.
    cbn [format_value_run format_value]. fold l. cbv zeta.
    unfold json_dumps_run. rewrite Hp.
    assert (Hloop :
      for_enumerate_run
        (fun i item =>
           bind (format_value_run indent max_line_length n item (ci + indent))
             (fun formatted_item => Return (list_line indent (length l) ci i formatted_item)))
        0%nat l
      = Return (for_enumerate
                  (fun i item => list_line indent (length l) ci i
                                   (format_value indent max_line_length item (ci + indent)))
                  0%nat l)
      \/ (all_simple l && (len (json_dumps false (VList l)) <=? max_line_length)) = true).
    { destruct (all_simple l && (len (json_dumps false (VList l)) <=? max_line_length)) eqn:Hc;
        [right; reflexivity | left].
      apply for_enumerate_run_Return. intros i y Hy. rewrite Forall_forall in IH.
      cbn [ints_printable] in Hp. rewrite forallb_forall in Hp.
      rewrite (IH y Hy); [reflexivity | apply Hp, Hy |].
      pose proof (fold_max_ge (call_depth max_line_length) l y Hy). lia. }
    destruct (all_simple l) eqn:Hs; cbn [bind andb] in *.
    + destruct (len (json_dumps false (VList l)) <=? max_line_length); [reflexivity|].
      destruct Hloop as [->|]; [reflexivity | discriminate].
    + destruct Hloop as [->|]; [reflexivity | discriminate].
  - destruct items as [|kv items']; [reflexivity|].
    cbn [call_depth] in Hn. set (items := kv :: items') in *.
    cbn [format_value_run format_value]. fold items.
    rewrite (for_enumerate_run_Return _
               (fun i kv => dict_line indent max_line_length (length items) ci i (fst kv) (snd kv)
                              (format_value indent max_line_length (snd kv) (ci + indent)))).
    + reflexivity.
    + intros i y Hy. rewrite Forall_forall in IH.
      cbn [ints_printable] in Hp. rewrite forallb_forall in Hp.
      apply dict_body_Return; [apply Hp, Hy|].
      apply (IH y Hy); [apply Hp, Hy|].
      pose proof (fold_max_ge (fun kv => call_depth max_line_length (snd kv)) items y Hy).
      cbn beta in *. lia.
Qed.

(** A run that returns had the frames, and met no [int] it could not
    print. *)
Lemma format_value_run_returns (v : value) :
  forall (n : nat) (ci : Z) (s : pystr),
    format_value_run indent max_line_length n v ci = Return s ->
    ints_printable v = true /\ (call_depth max_line_length v <= n)%nat.
Proof.
  induction v as [ | b | z | f | s0 | l IH | items IH ] using value_ind';
    intros [|n] ci s H; try discriminate;
    try (split; [reflexivity | cbn; lia]).
  - cbn [format_value_run] in H. unfold json_dumps_run in H.
    destruct (ints_printable (VInt z)) eqn:Hp; [|discriminate].
    split; [reflexivity | cbn; lia].
  - destruct l as [|x l']; [split; [reflexivity | cbn; lia]|].
    set (l := x :: l') in *.
    cbn [format_value_run] in H. fold l in H. cbv zeta in H.
    rewrite Forall_forall in IH.
    assert (Hloop : forall body,
      for_enumerate_run
        (fun i item =>
           bind (format_value_run indent max_line_length n item (ci + indent))
             (fun formatted_item => Return (list_line indent (length l) ci i formatted_item)))
        0%nat l = Return body ->
      ints_printable (VList l) = true
      /\ (S (fold_right Nat.max 0 (map (call_depth max_line_length) l)) <= S n)%nat).
    { intros body Hb.
      assert (forall y, In y l ->
                ints_printable y = true /\ (call_depth max_line_length y <= n)%nat) as Hall.
      { intros y Hy. destruct (for_enumerate_run_inv _ _ _ _ Hb y Hy) as (j & out & Hout).
        destruct (format_value_run indent max_line_length n y (ci + indent)) as [sy|e] eqn:Hr;
          [|discriminate].
        apply (IH y Hy _ _ _ Hr). }
      split.
      - cbn [ints_printable]. apply forallb_forall. intros y Hy. apply Hall, Hy.
      - apply le_n_S, fold_max_bound. intros y Hy. apply Hall, Hy. }
    change (call_depth max_line_length (VList l))
      with (if all_simple l && (len (json_dumps false (VList l)) <=? max_line_length)
            then 1%nat
            else S (fold_right Nat.max 0%nat (map (call_depth max_line_length) l))).
    destruct (all_simple l) eqn:Hs; cbn [andb].
    + unfold json_dumps_run in H.
      destruct (ints_printable (VList l)) eqn:Hp; [|discriminate]. cbn [bind] in H.
      destruct (len (json_dumps false (VList l)) <=? max_line_length);
        [split; [reflexivity | lia]|].
      destruct (for_enumerate_run _ 0%nat l) as [body|e] eqn:Hb; [|discriminate].
      split; [reflexivity | apply (Hloop body eq_refl)].
    + destruct (for_enumerate_run _ 0%nat l) as [body|e] eqn:Hb; [|discriminate].
      apply (Hloop body eq_refl).
  - destruct items as [|kv items']; [split; [reflexivity | cbn; lia]|].
    set (items := kv :: items') in *.
    cbn [format_value_run] in H. fold items in H.
    rewrite Forall_forall in IH.
    destruct (for_enumerate_run _ 0%nat items) as [body|e] eqn:Hb; [|discriminate].
    assert (forall y, In y items ->
              ints_printable (snd y) = true
              /\ (call_depth max_line_length (snd y) <= n)%nat) as Hall.
    { intros y Hy. destruct (for_enumerate_run_inv _ _ _ _ Hb y Hy) as (j & out & Hout).
      destruct (format_value_run indent max_line_length n (snd y) (ci + indent))
        as [sy|e] eqn:Hr; [|discriminate].
      apply (IH y Hy _ _ _ Hr). }
    split.
    + cbn [ints_printable]. apply forallb_forall. intros y Hy. apply Hall, Hy.
    + cbn [call_depth]. apply le_n_S.
      apply (fold_max_bound (fun kv => call_depth max_line_length (snd kv))).
      intros y Hy. apply Hall, Hy.
Qed.



End RunFacts.




(** ** The decoder under the limits of the interpreter *)

(** *** The digits of a token and of the [int] it stands for *)

Lemma length_uint_str (d : uint) : length (uint_str d) = nb_digits d.
Proof. induction d; cbn [uint_str length nb_digits]; congruence. Qed.

Lemma nb_digits_uint_of_str (s : pystr) : (nb_digits (uint_of_str s) <= length s)%nat.
Proof.
  induction s as [|c r IH]; [apply le_n|]. cbn [uint_of_str length].
  repeat match goal with
         | |- context [if ?b then _ else _] => destruct b
         end; cbn [nb_digits]; lia.
Qed.

Lemma int_digits_of_uint (d : uint) :
  int_digits (Z.of_uint d) = Z.of_nat (nb_digits (unorm d)).
Proof.
  unfold int_digits.
  assert (0 <= Z.of_uint d) as Hpos by (unfold Z.of_uint; apply N2Z.is_nonneg).
  rewrite Z.abs_eq by exact Hpos.
  unfold int_repr. change (Z.of_uint d) with (Z.of_int (Pos d)).
  rewrite DecimalZ.to_of. cbn [norm]. unfold len. rewrite length_uint_str. reflexivity.
Qed.

Lemma int_digits_opp (z : Z) : int_digits (- z) = int_digits z.
Proof. unfold int_digits. rewrite Z.abs_opp. reflexivity. Qed.

Lemma nb_digits_unorm_max (d : uint) :
  (nb_digits (unorm d) <= Nat.max 1 (nb_digits d))%nat.
Proof.
  assert (d = Nil \/ d <> Nil) as [->|Hne]
    by (destruct d; [left; reflexivity | right; discriminate ..]).
  - cbn. lia.
  - pose proof (nb_digits_unorm d Hne). lia.
Qed.

(** An [int] that was read can be printed. *)
Lemma int_readable_printable (integer : pystr) :
  int_readable integer = true -> int_printable (int_of_str integer) = true.
Proof.
  unfold int_readable, int_printable, token_digits, int_of_str, int_max_str_digits.
  destruct integer as [|c r]; [reflexivity|].
  destruct (c =? 45)%N; intros H; apply Z.leb_le in H; apply Z.leb_le.
  - cbn [Z.of_int]. rewrite int_digits_opp, int_digits_of_uint.
    pose proof (nb_digits_unorm_max (uint_of_str r)).
    pose proof (nb_digits_uint_of_str r). unfold len in H. lia.
  - cbn [Z.of_int]. rewrite int_digits_of_uint.
    pose proof (nb_digits_unorm_max (uint_of_str (c :: r))).
    pose proof (nb_digits_uint_of_str (c :: r)). unfold len in H. lia.
Qed.

(** What is printed of an [int] has its digits. *)
Lemma token_digits_int_repr (z : Z) : token_digits (int_repr z) = int_digits z.
Proof.
  unfold int_digits, int_repr. destruct z as [|p|p]; cbn [Z.abs Z.to_int]; [reflexivity| |].
  - destruct (pos_to_uint_head p) as (c & d' & Hs & _ & _ & Hm).
    rewrite Hs. unfold token_digits. rewrite Hm. reflexivity.
  - reflexivity.
Qed.

Lemma int_readable_int_repr (z : Z) : int_readable (int_repr z) = int_printable z.
Proof. unfold int_readable, int_printable. rewrite token_digits_int_repr. reflexivity. Qed.

(** *** A run that returns *)

Lemma dict_setitem_values {F : PyFloat} (P : value -> Prop) (d : list (pystr * value))
    (k : pystr) (v : value) :
  Forall (fun kv => P (snd kv)) d -> P v ->
  Forall (fun kv => P (snd kv)) (dict_setitem d k v).
Proof.
  induction d as [|[k' v'] d IH]; intros Hd Hv; cbn [dict_setitem].
  - constructor; [exact Hv | constructor].
  - inversion Hd as [|? ? Hh Ht]; subst. destruct (pystr_eqb k' k).
    + constructor; [exact Hv | exact Ht].
    + constructor; [exact Hh | apply IH; assumption].
Qed.

Lemma dict_of_pairs_values {F : PyFloat} (P : value -> Prop) (pairs : list (pystr * value)) :
  Forall (fun kv => P (snd kv)) pairs ->
  Forall (fun kv => P (snd kv)) (dict_of_pairs pairs).
Proof.
  unfold dict_of_pairs.
  assert (forall acc, Forall (fun kv => P (snd kv)) acc ->
                      Forall (fun kv => P (snd kv)) pairs ->
                      Forall (fun kv => P (snd kv))
                        (fold_left (fun d kv => dict_setitem d (fst kv) (snd kv)) pairs acc))
    as H.
  { induction pairs as [|[k v] pairs IH]; intros acc Hacc Hp; [exact Hacc|].
    inversion Hp as [|? ? Hh Ht]; subst. cbn [fold_left fst snd].
    apply IH; [apply dict_setitem_values; assumption | exact Ht]. }
  apply H. constructor.
Qed.

Section LoopsReturn.

Context {F : PyFloat}.
Variable scan : pystr -> run (value * pystr).
Variable P : value -> Prop.
Hypothesis scan_P : forall s v r, scan s = Return (v, r) -> P v.

Lemma array_values_run_all (n : nat) :
  forall s vs r, array_values_run scan n s = Return (vs, r) -> Forall P vs.
Proof.
  induction n as [|n IH]; intros s vs r H; [discriminate|].
  cbn [array_values_run] in H.
  destruct (scan s) as [[v r0]|e] eqn:Hs; [|discriminate].
  destruct (skip_ws r0) as [|c r'] eqn:Hw; [discriminate|].
  destruct (c =? 93)%N.
  - injection H as <- _. constructor; [apply (scan_P _ _ _ Hs) | constructor].
  - destruct (c =? 44)%N; [|discriminate].
    destruct (array_values_run scan n (skip_ws r')) as [[vs' r'']|e] eqn:Hrest; [|discriminate].
    injection H as <- _. constructor; [apply (scan_P _ _ _ Hs) | apply (IH _ _ _ Hrest)].
Qed.

Lemma object_pairs_run_all (n : nat) :
  forall s pairs r,
    object_pairs_run scan n s = Return (pairs, r) -> Forall (fun kv => P (snd kv)) pairs.
Proof.
  induction n as [|n IH]; intros s pairs r H; [discriminate|].
  cbn [object_pairs_run] in H.
  destruct (scanstring s) as [[key r0]|]; [|discriminate].
  destruct (skip_ws r0) as [|c r1]; [discriminate|].
  destruct (c =? 58)%N; [|discriminate].
  destruct (scan (skip_ws r1)) as [[v r2]|e] eqn:Hs; [|discriminate].
  destruct (skip_ws r2) as [|c2 r3]; [discriminate|].
  destruct (c2 =? 125)%N.
  - injection H as <- _. constructor; [apply (scan_P _ _ _ Hs) | constructor].
  - destruct (c2 =? 44)%N; [|discriminate].
    destruct (skip_ws r3) as [|q r4]; [discriminate|].
    destruct (q =? 34)%N; [|discriminate].
    destruct (object_pairs_run scan n r4) as [[pairs' r5]|e] eqn:Hrest; [|discriminate].
    injection H as <- _. constructor; [apply (scan_P _ _ _ Hs) | apply (IH _ _ _ Hrest)].
Qed.

End LoopsReturn.

(** What [json.loads] returns has no [int] that cannot be printed and
    nests no deeper than was allowed. *)
Lemma scan_once_run_returns {F : PyFloat} (fuel : nat) :
  forall (depth : nat) (s : pystr) (v : value) (r : pystr),
    scan_once_run depth fuel s = Return (v, r) ->
    ints_printable v = true /\ (nesting_depth v <= depth)%nat.
Proof.
  induction fuel as [|fuel IH]; intros depth s v r H; [discriminate|].
  destruct s as [|c s']; [discriminate|]. cbn [scan_once_run] in H.
  destruct (c =? 34)%N.
  { destruct (scanstring s') as [[str r']|]; [|discriminate].
    injection H as <- _. split; [reflexivity | cbn; lia]. }
  destruct (c =? 123)%N.
  { destruct depth as [|depth]; [discriminate|].
    unfold JSONObject_run in H. destruct (skip_ws s') as [|c1 r1]; [discriminate|].
    destruct (c1 =? 125)%N; [injection H as <- _; split; [reflexivity | cbn; lia]|].
    destruct (c1 =? 34)%N; [|discriminate].
    destruct (object_pairs_run _ fuel r1) as [[pairs r']|e] eqn:Hp; [|discriminate].
    injection H as <- _.
    pose proof (object_pairs_run_all (scan_once_run depth fuel)
                  (fun x => ints_printable x = true /\ (nesting_depth x <= depth)%nat)
                  (IH depth) fuel _ _ _ Hp) as Hall.
    apply dict_of_pairs_values in Hall. rewrite Forall_forall in Hall.
    split.
    - cbn [ints_printable]. apply forallb_forall. intros kv Hkv. apply (Hall kv Hkv).
    - cbn [nesting_depth]. apply le_n_S.
      apply (fold_max_bound (fun kv => nesting_depth (snd kv))).
      intros kv Hkv. apply (Hall kv Hkv). }
  destruct (c =? 91)%N.
  { destruct depth as [|depth]; [discriminate|].
    unfold JSONArray_run in H. destruct (skip_ws s') as [|c1 r1]; [discriminate|].
    destruct (c1 =? 93)%N; [injection H as <- _; split; [reflexivity | cbn; lia]|].
    destruct (array_values_run _ fuel (c1 :: r1)) as [[vs r']|e] eqn:Hp; [|discriminate].
    injection H as <- _.
    pose proof (array_values_run_all (scan_once_run depth fuel)
                  (fun x => ints_printable x = true /\ (nesting_depth x <= depth)%nat)
                  (IH depth) fuel _ _ _ Hp) as Hall.
    rewrite Forall_forall in Hall.
    split.
    - cbn [ints_printable]. apply forallb_forall. intros x Hx. apply (Hall x Hx).
    - cbn [nesting_depth]. apply le_n_S. apply fold_max_bound.
      intros x Hx. apply (Hall x Hx). }
  destruct (strip_prefix (py "null") (c :: s'));
    [injection H as <- _; split; [reflexivity | cbn; lia]|].
  destruct (strip_prefix (py "true") (c :: s'));
    [injection H as <- _; split; [reflexivity | cbn; lia]|].
  destruct (strip_prefix (py "false") (c :: s'));
    [injection H as <- _; split; [reflexivity | cbn; lia]|].
  destruct (match_number (c :: s')) as [[[[integer frac] exp] r']|].
  - destruct frac, exp; try (injection H as <- _; split; [reflexivity | cbn; lia]).
    destruct (int_readable integer) eqn:Hr; [|discriminate].
    injection H as <- _. split; [|cbn; lia].
    cbn [ints_printable]. apply int_readable_printable, Hr.
  - destruct (strip_prefix (py "NaN") (c :: s'));
      [injection H as <- _; split; [reflexivity | cbn; lia]|].
    destruct (strip_prefix (py "Infinity") (c :: s'));
      [injection H as <- _; split; [reflexivity | cbn; lia]|].
    destruct (strip_prefix (py "-Infinity") (c :: s')); [|discriminate].
    injection H as <- _; split; [reflexivity | cbn; lia].
Qed.

Lemma json_loads_run_returns {F : PyFloat} (depth : nat) (s : pystr) (v : value) :
  json_loads_run depth s = Return v ->
  ints_printable v = true /\ (nesting_depth v <= depth)%nat.
Proof.
  unfold json_loads_run. destruct (strip_prefix _ s); [discriminate|].
  destruct (scan_once_run depth (length s) (skip_ws s)) as [[obj r]|e] eqn:H; [|discriminate].
  destruct (skip_ws r); [|discriminate]. intros [= <-].
  apply (scan_once_run_returns _ _ _ _ _ H).
Qed.

(** *** The loops of the decoder as it runs, on a laid-out container *)

Section LoopsRun.

Context {F : PyFloat}.
Variable scan : pystr -> run (value * pystr).

Lemma array_values_run_render (f : value -> pystr) (ac bc : pystr) :
  all_ws ac = true -> all_ws bc = true ->
  forall (l : list value) (rest : pystr) (n : nat),
    l <> [] ->
    (forall x, In x l -> forall r, starts_value (f x ++ r) = true) ->
    (forall x, In x l -> forall r,
        at_delimiter r = true -> (length (f x ++ r) <= n)%nat -> scan (f x ++ r) = Return (x, r)) ->
    (length (render_seq ac bc (py "]") (map f l) rest) <= n)%nat ->
    array_values_run scan n (render_seq ac bc (py "]") (map f l) rest) = Return (l, rest).
Proof.
  intros Hac Hbc. induction l as [|x l IH]; intros rest n Hne Hst Hscan Hlen; [contradiction|].
  destruct l as [|y l'].
  - cbn [map render_seq] in *.
    destruct n as [|n]; [rewrite !length_app in Hlen; cbn in Hlen; lia|].
    cbn [array_values_run].
    rewrite (Hscan x (or_introl eq_refl));
      [|apply at_delimiter_close; [exact Hbc | left; reflexivity] | exact Hlen].
    rewrite skip_ws_app by exact Hbc. reflexivity.
  - cbn [map] in *. rewrite render_seq_cons in *.
    destruct n as [|n]; [rewrite !length_app in Hlen; cbn in Hlen; lia|].
    cbn [array_values_run].
    rewrite (Hscan x (or_introl eq_refl)); [|reflexivity|exact Hlen].
    change (py ",") with [44%N] in *.
    cbn [List.app skip_ws is_ws N.eqb Pos.eqb orb].
    rewrite skip_ws_app by exact Hac.
    rewrite starts_value_skip_ws
      by (apply starts_value_render_seq; apply Hst; right; left; reflexivity).
    rewrite IH; [reflexivity | discriminate | | |].
    + intros z Hz. apply Hst. right; exact Hz.
    + intros z Hz r Hr Hl. apply Hscan; [right; exact Hz | exact Hr | lia].
    + rewrite !length_app in Hlen. cbn [length] in Hlen. lia.
Qed.

Lemma JSONArray_run_render (f : value -> pystr) (ws ac bc : pystr) (l : list value)
    (rest : pystr) (n : nat) :
  all_ws ws = true -> all_ws ac = true -> all_ws bc = true ->
  l <> [] ->
  (forall x, In x l -> forall r, starts_value (f x ++ r) = true) ->
  (forall x, In x l -> forall r,
      at_delimiter r = true -> (length (f x ++ r) <= n)%nat -> scan (f x ++ r) = Return (x, r)) ->
  (length (render_seq ac bc (py "]") (map f l) rest) <= n)%nat ->
  JSONArray_run scan n (ws ++ render_seq ac bc (py "]") (map f l) rest) = Return (VList l, rest).
Proof.
  intros Hws Hac Hbc Hne Hst Hscan Hlen. unfold JSONArray_run.
  rewrite skip_ws_app by exact Hws.
  pose proof (array_values_run_render f ac bc Hac Hbc l rest n Hne Hst Hscan Hlen) as Hloop.
  assert (starts_value (render_seq ac bc (py "]") (map f l) rest) = true) as Hsv.
  { destruct l as [|x l']; [contradiction|]. cbn [map].
    apply starts_value_render_seq, Hst. left; reflexivity. }
  rewrite (starts_value_skip_ws _ Hsv).
  destruct (render_seq ac bc (py "]") (map f l) rest) as [|c r]; [discriminate|].
  cbn [starts_value] in Hsv. apply negb_true_iff in Hsv.
  do 2 (apply orb_false_elim in Hsv as [Hsv _]). apply orb_false_elim in Hsv as [_ Hsv].
  rewrite Hsv, Hloop. reflexivity.
Qed.

Lemma object_pairs_run_render (g : pystr * value -> pystr) (ac bc : pystr) :
  all_ws ac = true -> all_ws bc = true ->
  forall (items : list (pystr * value)) (rest : pystr) (n : nat),
    items <> [] ->
    (forall kv, In kv items -> is_str (fst kv) = true /\ pair_free (fst kv) = true) ->
    (forall kv, In kv items -> forall r, starts_value (g kv ++ r) = true) ->
    (forall kv, In kv items -> forall r,
        at_delimiter r = true -> (length (g kv ++ r) <= n)%nat ->
        scan (g kv ++ r) = Return (snd kv, r)) ->
    (length (render_seq ac bc (py "}")
               (map (fun kv => encode_basestring_ascii (fst kv) ++ py ": " ++ g kv) items)
               rest) <= n)%nat ->
    object_pairs_run scan n
      (tl (render_seq ac bc (py "}")
             (map (fun kv => encode_basestring_ascii (fst kv) ++ py ": " ++ g kv) items) rest))
    = Return (items, rest).
Proof.
  intros Hac Hbc.
  induction items as [|[k v] items IH]; intros rest n Hne Hkeys Hst Hscan Hlen; [contradiction|].
  destruct (Hkeys (k, v) (or_introl eq_refl)) as [Hk1 Hk2]. cbn [fst] in Hk1, Hk2.
  pose proof (Hst (k, v) (or_introl eq_refl)) as Hst1.
  pose proof (Hscan (k, v) (or_introl eq_refl)) as Hscan1. cbn [snd] in Hscan1.
  destruct items as [|kv' items'].
  - cbn [map render_seq fst snd] in *. unfold encode_basestring_ascii in *.
    change (py ": ") with [58%N; 32%N] in *. change (py "}") with [125%N] in *.
    rewrite <- ?List.app_assoc in *. cbn [List.app tl] in *.
    destruct n as [|n]; [cbn [length] in Hlen; lia|].
    cbn [object_pairs_run]. rewrite <- List.app_assoc. cbn [List.app].
    rewrite (scanstring_encode_basestring_ascii _ _ Hk1 Hk2).
    cbn [skip_ws is_ws N.eqb Pos.eqb orb].
    rewrite (starts_value_skip_ws _ (Hst1 _)).
    rewrite Hscan1;
      [|apply at_delimiter_close; [exact Hbc | right; left; reflexivity]
       |cbn [length] in Hlen; rewrite !length_app in Hlen; cbn [length] in Hlen; lia].
    rewrite skip_ws_app by exact Hbc. reflexivity.
  - cbn [map] in *. rewrite render_seq_cons in *. cbn [fst snd] in *.
    specialize (IH rest (pred n)).
    remember (render_seq ac bc (py "}")
                ((encode_basestring_ascii (fst kv') ++ py ": " ++ g kv')
                 :: map (fun kv => encode_basestring_ascii (fst kv) ++ py ": " ++ g kv) items')
                rest) as R eqn:ER.
    assert (exists R', R = DQUOTE :: R') as (R' & HR).
    { exists (tl R). rewrite ER. unfold encode_basestring_ascii.
      destruct (map _ items'); reflexivity. }
    clear ER. subst R.
    unfold encode_basestring_ascii in Hlen |- *.
    change (py ": ") with [58%N; 32%N] in *. change (py ",") with [44%N] in *.
    rewrite <- ?List.app_assoc in *. cbn [List.app tl] in *.
    destruct n as [|n]; [cbn [length] in Hlen; lia|].
    cbn [object_pairs_run]. rewrite <- List.app_assoc. cbn [List.app].
    rewrite (scanstring_encode_basestring_ascii _ _ Hk1 Hk2).
    cbn [skip_ws is_ws N.eqb Pos.eqb orb].
    rewrite (starts_value_skip_ws _ (Hst1 _)).
    rewrite Hscan1;
      [|reflexivity
       |cbn [length] in Hlen; rewrite !length_app in Hlen; cbn [length] in Hlen; lia].
    cbn [skip_ws is_ws N.eqb Pos.eqb orb].
    rewrite skip_ws_app by exact Hac.
    cbn [skip_ws is_ws DQUOTE N.eqb Pos.eqb orb pred] in *.
    rewrite IH; [reflexivity | discriminate | | | |].
    + intros z Hz. apply Hkeys. right; exact Hz.
    + intros z Hz. apply Hst. right; exact Hz.
    + intros z Hz r Hr Hl. apply Hscan; [right; exact Hz | exact Hr | lia].
    + cbn [length]. repeat (progress (rewrite ?length_app in Hlen; cbn [length] in Hlen)). lia.
Qed.

End LoopsRun.

Section ObjectsRun.

Context {F : PyFloat}.

Lemma JSONObject_run_render (scan : pystr -> run (value * pystr))
    (g : pystr * value -> pystr) (ws ac bc : pystr)
    (items : list (pystr * value)) (rest : pystr) (n : nat) :
  all_ws ws = true -> all_ws ac = true -> all_ws bc = true ->
  items <> [] ->
  (forall kv, In kv items -> is_str (fst kv) = true /\ pair_free (fst kv) = true) ->
  (forall kv, In kv items -> forall r, starts_value (g kv ++ r) = true) ->
  (forall kv, In kv items -> forall r,
      at_delimiter r = true -> (length (g kv ++ r) <= n)%nat ->
      scan (g kv ++ r) = Return (snd kv, r)) ->
  (length (render_seq ac bc (py "}")
             (map (fun kv => encode_basestring_ascii (fst kv) ++ py ": " ++ g kv) items)
             rest) <= n)%nat ->
  JSONObject_run scan n
    (ws ++ render_seq ac bc (py "}")
             (map (fun kv => encode_basestring_ascii (fst kv) ++ py ": " ++ g kv) items) rest)
  = Return (VDict (dict_of_pairs items), rest).
Proof.
  intros Hws Hac Hbc Hne Hkeys Hst Hscan Hlen. unfold JSONObject_run.
  rewrite skip_ws_app by exact Hws.
  pose proof (object_pairs_run_render scan g ac bc Hac Hbc items rest n Hne Hkeys Hst Hscan Hlen)
    as Hloop.
  remember (render_seq ac bc (py "}")
              (map (fun kv => encode_basestring_ascii (fst kv) ++ py ": " ++ g kv) items)
              rest) as R eqn:ER.
  assert (exists R', R = DQUOTE :: R') as (R' & HR).
  { exists (tl R). rewrite ER. destruct items as [|kv items']; [contradiction|].
    cbn [map]. unfold encode_basestring_ascii. destruct (map _ items'); reflexivity. }
  clear ER. subst R. cbn [tl] in Hloop.
  cbn [skip_ws is_ws DQUOTE N.eqb Pos.eqb orb]. rewrite Hloop. reflexivity.
Qed.

End ObjectsRun.

(** *** Scalars *)

Section ScanScalarsRun.

Context {F : PyFloat}.

Lemma scan_once_run_number (depth fuel : nat) (c : N) (r : pystr) :
  (is_digit c || (c =? 45)%N) = true ->
  scan_once_run depth (S fuel) (c :: r)
  = match match_number (c :: r) with
    | Some (integer, frac, exp, r') =>
        match frac, exp with
        | [], [] =>
            if int_readable integer then Return (VInt (int_of_str integer), r')
            else Raise ValueError
        | _, _ => Return (VFloat (float_of_str (integer ++ frac ++ exp)), r')
        end
    | None =>
        match strip_prefix (py "-Infinity") (c :: r) with
        | Some r' => Return (VFloat (float_of_str (py "-Infinity")), r')
        | None => Raise JSONDecodeError
        end
    end.
Proof.
  intros Hc.
  assert ((c < 58)%N) as Hlt.
  { apply orb_prop in Hc as [Hc|Hc].
    - unfold is_digit in Hc. apply andb_prop in Hc as [_ Hc]. apply N.leb_le in Hc. lia.
    - apply N.eqb_eq in Hc. lia. }
  cbn [scan_once_run].
  destruct (N.eqb_spec c 34) as [->|_]; [discriminate|].
  destruct (N.eqb_spec c 123); [lia|]. destruct (N.eqb_spec c 91); [lia|].
  change (py "null") with [110; 117; 108; 108]%N.
  change (py "true") with [116; 114; 117; 101]%N.
  change (py "false") with [102; 97; 108; 115; 101]%N.
  change (py "NaN") with [78; 97; 78]%N.
  change (py "Infinity") with [73; 110; 102; 105; 110; 105; 116; 121]%N.
  rewrite !strip_prefix_head by lia.
  reflexivity.
Qed.

Lemma scan_once_run_int (depth fuel : nat) (z : Z) (rest : pystr) :
  at_delimiter rest = true ->
  scan_once_run depth (S fuel) (int_repr z ++ rest)
  = if int_printable z then Return (VInt z, rest) else Raise ValueError.
Proof.
  intros Hr. pose proof (match_number_int_repr z) as Hm.
  pose proof Hm as Hh. unfold match_number in Hh.
  destruct (match_integer (int_repr z)) as [[i r]|] eqn:Hi; [|discriminate]. clear Hh.
  destruct (match_integer_head _ _ _ Hi) as (c & t & Hs & Hc).
  rewrite <- int_readable_int_repr.
  rewrite Hs in *. cbn [List.app]. rewrite (scan_once_run_number _ _ _ _ Hc).
  change (c :: t ++ rest) with ((c :: t) ++ rest).
  rewrite match_number_app by (apply at_delimiter_no_number_char, Hr).
  rewrite Hm, <- Hs, int_of_str_int_repr. reflexivity.
Qed.

Lemma scan_once_run_float (depth fuel : nat) (f : float) (rest : pystr) :
  float_token (float_str f) = true ->
  float_of_str (float_str f) = f ->
  at_delimiter rest = true ->
  scan_once_run depth (S fuel) (float_str f ++ rest) = Return (VFloat f, rest).
Proof.
  intros Ht Hf Hr. unfold float_token in Ht.
  destruct (match_number (float_str f)) as [[[[i fr] e] r]|] eqn:Hm; [|discriminate].
  destruct r; [|discriminate].
  pose proof (match_number_parts _ _ _ _ _ Hm) as Hparts. rewrite List.app_nil_r in Hparts.
  pose proof Hm as Hh. unfold match_number in Hh.
  destruct (match_integer (float_str f)) as [[i' r']|] eqn:Hi; [|discriminate]. clear Hh.
  destruct (match_integer_head _ _ _ Hi) as (c & t & Hs & Hc).
  rewrite Hs in Hm. rewrite Hs. cbn [List.app]. rewrite (scan_once_run_number _ _ _ _ Hc).
  change (c :: t ++ rest) with ((c :: t) ++ rest).
  rewrite match_number_app by (apply at_delimiter_no_number_char, Hr).
  rewrite Hm. rewrite <- Hparts, Hf.
  destruct fr, e; try reflexivity. discriminate.
Qed.

Lemma scan_once_run_string (depth fuel : nat) (s rest : pystr) :
  scan_once_run depth (S fuel) (encode_basestring s ++ rest) = Return (VStr s, rest).
Proof.
  unfold encode_basestring. cbn [List.app scan_once_run]. change (DQUOTE =? 34)%N with true.
  cbv iota. rewrite <- List.app_assoc. cbn [List.app].
  rewrite scanstring_encode_basestring. reflexivity.
Qed.

End ScanScalarsRun.

(** *** The round trip as it runs *)

Section RoundTripRun.

Context {F : PyFloat}.
Hypothesis float_law : float_repr_roundtrips F.

Lemma format_value_starts_value (v : value) :
  json_value v = true -> keys_pair_free v = true ->
  forall (indent max_line_length ci : Z) (r : pystr),
    starts_value (format_value indent max_line_length v ci ++ r) = true.
Proof.
  intros Hj Hk indent max_line_length ci r.
  apply (reads_back_starts_value v (scan_once_format_value float_law v) Hj Hk).
Qed.

Lemma scan_once_run_array (depth fuel : nat) (s : pystr) :
  scan_once_run (S depth) (S fuel) (91%N :: s)
  = JSONArray_run (scan_once_run depth fuel) fuel s.
Proof. reflexivity. Qed.

Lemma scan_once_run_object (depth fuel : nat) (s : pystr) :
  scan_once_run (S depth) (S fuel) (123%N :: s)
  = JSONObject_run (scan_once_run depth fuel) fuel s.
Proof. reflexivity. Qed.

Lemma reads_back_run_scalar (v : value) : is_simple v = true -> reads_back_run v.
Proof.
  intros Hs indent max_line_length ci rest fuel depth Hj _ Hp _ Hr Hlen.
  rewrite (format_value_simple _ _ _ _ Hs) in *.
  destruct v as [ | b | z | f | s | | ]; try discriminate; cbn [json_dumps] in *.
  - destruct fuel as [|fuel]; [cbn in Hlen; lia|]. reflexivity.
  - destruct b; (destruct fuel as [|fuel]; [cbn in Hlen; lia|]); reflexivity.
  - cbn [ints_printable] in Hp.
    destruct fuel as [|fuel]; [|rewrite scan_once_run_int by exact Hr; rewrite Hp; reflexivity].
    pose proof (match_number_int_repr z) as Hm. destruct (int_repr z); [discriminate|].
    cbn in Hlen. lia.
  - cbn [json_value] in Hj. destruct (float_law f Hj) as [Ht Hf].
    destruct fuel as [|fuel]; [|apply scan_once_run_float; assumption].
    unfold float_token in Ht. destruct (float_str f); [discriminate|]. cbn in Hlen. lia.
  - destruct fuel as [|fuel]; [cbn in Hlen; lia|]. apply scan_once_run_string.
Qed.

Lemma reads_back_run_list (l : list value) :
  Forall reads_back_run l -> reads_back_run (VList l).
Proof.
  intros IH indent max_line_length ci rest fuel depth Hj Hk Hp Hd Hr Hlen.
  rewrite Forall_forall in IH.
  cbn [json_value keys_pair_free ints_printable] in Hj, Hk, Hp.
  rewrite forallb_forall in Hj, Hk, Hp.
  rewrite format_value_list in *.
  destruct l as [|x0 l0]; [destruct fuel as [|fuel]; [cbn in Hlen; lia|]; destruct depth;
                            [cbn in Hd; lia | reflexivity]|].
  set (l := x0 :: l0) in *.
  destruct depth as [|depth]; [cbn in Hd; lia|].
  assert (forall x, In x l -> (nesting_depth x <= depth)%nat) as Hdx.
  { intros x Hx. cbn [nesting_depth] in Hd. apply le_S_n in Hd.
    pose proof (fold_max_ge nesting_depth l x Hx). lia. }
  assert (l <> []) as Hne by discriminate.
  assert (forall m c x, In x l -> forall r, starts_value (format_value indent m x c ++ r) = true)
    as Hst.
  { intros m c x Hx r. apply format_value_starts_value; auto. }
  destruct (all_simple l && (len (json_dumps false (VList l)) <=? max_line_length)) eqn:Hc.
  - apply andb_prop in Hc as [Hs _].
    change (json_dumps false (VList l))
      with (py "[" ++ str_join (py ", ") (map (json_dumps false) l) ++ py "]") in *.
    rewrite <- (all_simple_map_format indent max_line_length l ci Hs) in *.
    rewrite compact_render in * by (intros H; apply map_eq_nil in H; contradiction).
    change (py "[") with [91%N] in *. cbn [List.app] in *.
    destruct fuel as [|fuel]; [cbn [length] in Hlen; lia|].
    rewrite scan_once_run_array.
    apply (JSONArray_run_render (scan_once_run depth fuel)
             (fun x => format_value indent max_line_length x ci) [] (py " ") [] l rest fuel);
      try reflexivity; try exact Hne.
    + intros x Hx. apply Hst, Hx.
    + intros x Hx r Hdr Hl. apply IH; auto.
    + cbn [length] in Hlen. lia.
  - rewrite one_per_line_render in * by (intros H; apply map_eq_nil in H; contradiction).
    change (py "[") with [91%N] in *. cbn [List.app] in *.
    destruct fuel as [|fuel]; [cbn [length] in Hlen; lia|].
    rewrite scan_once_run_array, List.app_assoc.
    apply (JSONArray_run_render (scan_once_run depth fuel)
             (fun x => format_value indent max_line_length x (ci + indent))
             (NL ++ str_mul (py " ") (ci + indent))
             (NL ++ str_mul (py " ") (ci + indent)) (NL ++ str_mul (py " ") ci) l rest fuel);
      try apply all_ws_NL_pad; try exact Hne.
    + intros x Hx. apply Hst, Hx.
    + intros x Hx r Hdr Hl. apply IH; auto.
    + cbn [length] in Hlen. rewrite !length_app in Hlen. lia.
Qed.

Lemma reads_back_run_dict (items : list (pystr * value)) :
  Forall (fun kv => reads_back_run (snd kv)) items -> reads_back_run (VDict items).
Proof.
  intros IH indent max_line_length ci rest fuel depth Hj Hk Hp Hd Hr Hlen.
  rewrite Forall_forall in IH.
  cbn [json_value keys_pair_free ints_printable] in Hj, Hk, Hp.
  apply andb_prop in Hj as [Hj Hdist].
  rewrite forallb_forall in Hj, Hk, Hp.
  rewrite format_value_dict in *.
  destruct items as [|kv0 items0]; [destruct fuel as [|fuel]; [cbn in Hlen; lia|]; destruct depth;
                                    [cbn in Hd; lia | reflexivity]|].
  set (items := kv0 :: items0) in *.
  destruct depth as [|depth]; [cbn in Hd; lia|].
  assert (forall kv, In kv items -> (nesting_depth (snd kv) <= depth)%nat) as Hdx.
  { intros kv Hkv. cbn [nesting_depth] in Hd. apply le_S_n in Hd.
    pose proof (fold_max_ge (fun kv => nesting_depth (snd kv)) items kv Hkv).
    cbn beta in *. lia. }
  assert (items <> []) as Hne by discriminate.
  rewrite one_per_line_render in * by (intros H; apply map_eq_nil in H; contradiction).
  change (py "{") with [123%N] in *. cbn [List.app] in *.
  destruct fuel as [|fuel]; [cbn [length] in Hlen; lia|].
  rewrite scan_once_run_object, List.app_assoc.
  rewrite <- (dict_of_pairs_distinct items Hdist) at 2.
  apply (JSONObject_run_render (scan_once_run depth fuel)
           (fun kv => dict_entry_value indent max_line_length ci (fst kv) (snd kv))
           (NL ++ str_mul (py " ") (ci + indent))
           (NL ++ str_mul (py " ") (ci + indent)) (NL ++ str_mul (py " ") ci) items rest fuel);
    try apply all_ws_NL_pad; try exact Hne.
  - intros kv Hkv. specialize (Hj kv Hkv). specialize (Hk kv Hkv).
    apply andb_prop in Hj as [Hj _]. apply andb_prop in Hk as [Hk _]. split; assumption.
  - intros kv Hkv r. specialize (Hj kv Hkv). specialize (Hk kv Hkv).
    apply andb_prop in Hj as [_ Hj]. apply andb_prop in Hk as [_ Hk].
    destruct (dict_entry_value_as_format indent max_line_length ci (fst kv) (snd kv))
      as (m & c & ->).
    apply format_value_starts_value; auto.
  - intros kv Hkv r Hdr Hl. specialize (Hj kv Hkv). specialize (Hk kv Hkv).
    apply andb_prop in Hj as [_ Hj]. apply andb_prop in Hk as [_ Hk].
    destruct (dict_entry_value_as_format indent max_line_length ci (fst kv) (snd kv))
      as (m & c & Heq).
    rewrite Heq in *. apply IH; auto.
  - cbn [length] in Hlen. rewrite !length_app in Hlen.
    unfold dict_entry in Hlen. cbn [json_dumps encode_str] in Hlen. lia.
Qed.

Lemma scan_once_run_format_value (v : value) : reads_back_run v.
Proof.
  induction v as [ | b | z | f | s | l IH | items IH ] using value_ind';
    try (apply reads_back_run_scalar; reflexivity).
  - apply reads_back_run_list, IH.
  - apply reads_back_run_dict, IH.
Qed.

(** The run of [json.loads] on the formatted text, with the newline the
    caller writes after it, returns the value. *)
Lemma json_loads_run_format_newline (v : value) (indent max_line_length : Z) (depth : nat) :
  json_value v = true -> keys_pair_free v = true ->
  ints_printable v = true -> (nesting_depth v <= depth)%nat ->
  json_loads_run depth (format_json_prettier v indent max_line_length ++ NL) = Return v.
Proof.
  intros Hj Hk Hp Hd. unfold json_loads_run, format_json_prettier.
  pose proof (scan_once_run_format_value v indent max_line_length 0 NL _ depth Hj Hk Hp Hd
                eq_refl (le_n _)) as Hscan.
  pose proof (format_value_starts_value v Hj Hk indent max_line_length 0 NL) as Hsv.
  rewrite (starts_value_skip_ws _ Hsv), Hscan.
  destruct (format_value indent max_line_length v 0) as [|c r]; [discriminate|].
  cbn [starts_value List.app] in Hsv |- *. apply negb_true_iff in Hsv.
  apply orb_false_elim in Hsv as [_ Hsv].
  cbn [strip_prefix]. rewrite Hsv. reflexivity.
Qed.

End RoundTripRun.

(** ** [update_info_json_version] as it runs *)

Section UpdateInfoRun.

Context {F : PyFloat}.
Hypothesis float_law : float_repr_roundtrips F.

Variable info_json_path : pystr.
Variables (nesting frames : nat).
Variable repr_value : value -> pystr.
Variable stdout_accepts : pystr -> bool.

Lemma ints_printable_set_version (info : list (pystr * value)) (version : pystr) :
  ints_printable (VDict info) = true ->
  ints_printable (VDict (dict_setitem info (py "version") (VStr version))) = true.
Proof.
  cbn [ints_printable]. intros H. apply dict_setitem_forallb; [exact H | reflexivity].
Qed.

Lemma nesting_depth_set_version (info : list (pystr * value)) (version : pystr) :
  (nesting_depth (VDict (dict_setitem info (py "version") (VStr version)))
   <= nesting_depth (VDict info))%nat.
Proof.
  cbn [nesting_depth]. apply le_n_S.
  apply (fold_max_bound (fun kv => nesting_depth (snd kv))).
  apply Forall_forall.
  apply (dict_setitem_values
           (fun x => (nesting_depth x
                      <= fold_right Nat.max 0 (map (fun kv => nesting_depth (snd kv)) info))%nat)).
  - apply Forall_forall. intros kv Hkv.
    apply (fold_max_ge (fun kv => nesting_depth (snd kv)) info kv Hkv).
  - cbn. lia.
Qed.

(** What a run that rewrites the file went through. *)
Lemma update_info_json_version_rewritten (tag date : pystr) (tags : list (pystr * pystr))
    (text : pystr) (info : list (pystr * value)) (writable b : bool) (text' : pystr) :
  let version := lstrip_chars (fun c => c =? 118)%N tag in
  let updated := dict_setitem info (py "version") (VStr version) in
  json_loads_run nesting text = Return (VDict info) ->
  update_info_json_version info_json_path nesting frames repr_value stdout_accepts
    ((tag, date) :: tags) (Contents text) writable
  = Returns b (Rewritten text') ->
  writable = true
  /\ format_json_prettier_run frames (VDict updated) 2 80
     = Return (format_json_prettier (VDict updated) 2 80)
  /\ utf8_encodable (format_json_prettier (VDict updated) 2 80) = true
  /\ text' = format_json_prettier (VDict updated) 2 80 ++ NL
  /\ b = stdout_accepts
           (updated_message info_json_path repr_value (old_version_of info) version).
Proof.
  intros version updated Hload H. unfold update_info_json_version in H.
  rewrite Hload in H. fold version in H. fold updated in H.
  destruct writable; [|discriminate].
  destruct (format_json_prettier_run frames (VDict updated) 2 80) as [formatted|e] eqn:Hf;
    [|discriminate].
  assert (formatted = format_json_prettier (VDict updated) 2 80) as ->.
  { unfold format_json_prettier_run in Hf.
    destruct (format_value_run_returns _ _ _ _ _ _ Hf) as [Hp Hd].
    rewrite format_value_run_enough in Hf by assumption. injection Hf as <-. reflexivity. }
  destruct (utf8_encodable _) eqn:Henc; [|discriminate].
  destruct (stdout_accepts _) eqn:Hout; injection H as <- <-; repeat split; reflexivity.
Qed.

(** The run of [json.loads] on the file that was written. *)
Lemma json_loads_run_updated (tag : pystr) (text : pystr) (info : list (pystr * value)) :
  let version := lstrip_chars (fun c => c =? 118)%N tag in
  let updated := dict_setitem info (py "version") (VStr version) in
  json_loads_run nesting text = Return (VDict info) ->
  json_value (VDict info) = true ->
  keys_pair_free (VDict info) = true ->
  is_str tag = true ->
  json_loads_run nesting (format_json_prettier (VDict updated) 2 80 ++ NL)
  = Return (VDict updated).
Proof.
  intros version updated Hload Hj Hk Htag.
  destruct (json_loads_run_returns _ _ _ Hload) as [Hp Hd].
  apply (json_loads_run_format_newline float_law).
  - apply json_value_set_version; [exact Hj | apply is_str_lstrip, Htag].
  - apply keys_pair_free_set_version, Hk.
  - apply ints_printable_set_version, Hp.
  - pose proof (nesting_depth_set_version info version). fold updated in H. lia.
Qed.

(** X2. Whenever the file is rewritten, it holds the old document with
    only [version] changed: [json.loads] reads it back as a dict in which
    [version] is the latest tag without its leading [v]s, every other key
    has the value it had, and the keys keep their order ([version] comes
    last when it is new).  The result is [True] exactly when the [print]
    of line 311 went through. *)
Theorem update_info_json_version_rewrites (tag date : pystr) (tags : list (pystr * pystr))
    (text : pystr) (info : list (pystr * value)) (writable b : bool) (text' : pystr) :
  let version := lstrip_chars (fun c => c =? 118)%N tag in
  json_loads_run nesting text = Return (VDict info) ->
  json_value (VDict info) = true ->
  keys_pair_free (VDict info) = true ->
  is_str tag = true ->
  update_info_json_version info_json_path nesting frames repr_value stdout_accepts
    ((tag, date) :: tags) (Contents text) writable
  = Returns b (Rewritten text') ->
  exists info' : list (pystr * value),
    json_loads_run nesting text' = Return (VDict info')
    /\ dict_get info' (py "version") = Some (VStr version)
    /\ (forall k, k <> py "version" -> dict_get info' k = dict_get info k)
    /\ map fst info'
       = (if dict_contains info (py "version") then map fst info
          else map fst info ++ [py "version"])
    /\ b = stdout_accepts
             (updated_message info_json_path repr_value (old_version_of info) version).
Proof.
  intros version Hload Hj Hk Htag Hrun.
  destruct (update_info_json_version_rewritten _ _ _ _ _ _ _ _ Hload Hrun)
    as (_ & _ & _ & -> & Hb).
  exists (dict_setitem info (py "version") (VStr version)).
  split; [|split; [|split; [|split]]].
  - apply (json_loads_run_updated tag text info); assumption.
  - apply dict_get_setitem_same.
  - intros k Hne. apply dict_get_setitem_other, Hne.
  - apply dict_setitem_keys.
  - exact Hb.
Qed.

(** X3. Updating again with the same tags rewrites the file with the
    same text; the old version that is printed is then the new one. *)
Theorem update_info_json_version_idempotent (tag date : pystr) (tags : list (pystr * pystr))
    (text : pystr) (info : list (pystr * value)) (writable b : bool) (text' : pystr) :
  let version := lstrip_chars (fun c => c =? 118)%N tag in
  json_loads_run nesting text = Return (VDict info) ->
  json_value (VDict info) = true ->
  keys_pair_free (VDict info) = true ->
  is_str tag = true ->
  update_info_json_version info_json_path nesting frames repr_value stdout_accepts
    ((tag, date) :: tags) (Contents text) writable
  = Returns b (Rewritten text') ->
  update_info_json_version info_json_path nesting frames repr_value stdout_accepts
    ((tag, date) :: tags) (Contents text') writable
  = Returns (stdout_accepts (updated_message info_json_path repr_value (VStr version) version))
      (Rewritten text').
Proof.
  intros version Hload Hj Hk Htag Hrun.
  destruct (update_info_json_version_rewritten _ _ _ _ _ _ _ _ Hload Hrun)
    as (-> & Hf & Henc & -> & _).
  fold version in Hf, Henc |- *.
  set (updated := dict_setitem info (py "version") (VStr version)) in *.
  pose proof (json_loads_run_updated tag text info Hload Hj Hk Htag) as Hload'.
  fold version in Hload'. fold updated in Hload'.
  unfold update_info_json_version. rewrite Hload'. fold version.
  assert (dict_setitem updated (py "version") (VStr version) = updated) as ->
    by apply dict_setitem_twice.
  assert (old_version_of updated = VStr version) as ->.
  { unfold old_version_of, updated. rewrite dict_get_setitem_same. reflexivity. }
  rewrite Hf, Henc. destruct (stdout_accepts _); reflexivity.
Qed.


End UpdateInfoRun.

Lemma update_info_json_version_rewrites_witness :
  (exists info' : list (pystr * value),
      json_loads_run 100 sample_info_updated_text = Return (VDict info')
      /\ dict_get info' (py "version") = Some (VStr (py "1.2.0"))
      /\ (forall k, k <> py "version" -> dict_get info' k = dict_get sample_info k)
      /\ map fst info' = map fst sample_info
      /\ true = utf8_encodable (py "Updated info.json: 0.1.0 -> 1.2.0"))
  /\ (exists info' : list (pystr * value),
         json_loads_run 100 surrogate_info_updated_text = Return (VDict info')
         /\ dict_get info' (py "version") = Some (VStr (py "1.2.0"))
         /\ (forall k, k <> py "version" -> dict_get info' k = dict_get surrogate_info k)
         /\ map fst info' = map fst surrogate_info
         /\ false = utf8_encodable
                      (py "Updated info.json: " ++ [55357%N] ++ py " -> 1.2.0")).
Proof.
  split.
  - apply (update_info_json_version_rewrites (F := repr_floats) repr_floats_roundtrip
             (py "info.json") 100 100 sample_repr utf8_encodable
             (py "vv1.2.0") (py "2024-05-01 10:00:00 +0200")
             [(py "v1.1.0", py "2024-01-01 10:00:00 +0100")] sample_info_text sample_info
             true true sample_info_updated_text);
      vm_compute; reflexivity.
  - apply (update_info_json_version_rewrites (F := repr_floats) repr_floats_roundtrip
             (py "info.json") 100 100 sample_repr utf8_encodable
             (py "vv1.2.0") (py "2024-05-01 10:00:00 +0200")
             [(py "v1.1.0", py "2024-01-01 10:00:00 +0100")] surrogate_info_text
             surrogate_info true false surrogate_info_updated_text);
      vm_compute; reflexivity.
Defined.

Lemma update_info_json_version_idempotent_witness :
  sample_update sample_tags (Contents sample_info_updated_text) true
  = Returns true (Rewritten sample_info_updated_text).
Proof.
  apply (update_info_json_version_idempotent (F := repr_floats) repr_floats_roundtrip
           (py "info.json") 100 100 sample_repr utf8_encodable
           (py "vv1.2.0") (py "2024-05-01 10:00:00 +0200")
           [(py "v1.1.0", py "2024-01-01 10:00:00 +0100")] sample_info_text sample_info
           true true);
    vm_compute; reflexivity.
Defined.
